(** * UBX message parsing to GPS assist data

    A shallow embedding of [ubx-parse.c]: the two fixed-point scaling
    helpers, the six message decoders and the dispatch table, followed by
    the properties of the parser that its specification states.

    Conventions.
    - C integers are values of [Z]; where the code can leave the range of
      its type the wrap-around is written out ([wrap_int]).
    - [float] and [double] are IEEE 754 binary32 and binary64 values, as
      [spec_float] with the operations of the standard library
      ([SFmul 24 128] and [SFmul 53 1024]).
    - The decoders run in a small monad over a [world]: the accumulator
      they are given ([ud]), the text they print and the wall clock they
      read.  A step whose behaviour C leaves undefined (a store outside an
      array, a floating value that does not fit [int]) stops the run with
      a [Fault] that keeps the world reached at that point. *)

From Stdlib Require Import ZArith Lia Bool List String QArith Qround Qpower Qabs.
From Stdlib Require Import SpecFloat.
From stdpp Require Import base list.
From Equations Require Import Equations.

Open Scope Z_scope.

(** ** Machine integers *)

Module CInt.

Definition INT_MIN : Z := - 2 ^ 31.
Definition INT_MAX : Z := 2 ^ 31 - 1.

Definition in_int (z : Z) : bool := (INT_MIN <=? z) && (z <=? INT_MAX).

(** Two's complement wrap-around of a value into [int]. *)
Definition wrap_int (z : Z) : Z := (z + 2 ^ 31) mod 2 ^ 32 - 2 ^ 31.

(** A C condition: any non-zero value is true. *)
Definition truthy (z : Z) : bool := negb (z =? 0).

End CInt.
Export CInt.

(** ** Floating point *)

Module Flt.

(** binary32, the C type [float]. *)
Definition f32_mul : spec_float -> spec_float -> spec_float := SFmul 24 128.
Definition f32_of_Z (z : Z) : spec_float := binary_normalize 24 128 z 0 false.

(** binary64, the C type [double]. *)
Definition f64_mul : spec_float -> spec_float -> spec_float := SFmul 53 1024.
Definition f64_div : spec_float -> spec_float -> spec_float := SFdiv 53 1024.
Definition f64_of_Z (z : Z) : spec_float := binary_normalize 53 1024 z 0 false.

(** The literals of the source.  [2.0] and [0.5] are exact in both formats;
    [1e-7] and [1e-3] denote the binary64 values nearest to the decimal
    ones, which are the correctly rounded quotients [1 / 10^7] and
    [1 / 10^3]. *)
Definition f32_2_0 : spec_float := S754_finite false 8388608 (-22).
Definition f32_0_5 : spec_float := S754_finite false 8388608 (-24).
Definition f64_2_0 : spec_float := S754_finite false 4503599627370496 (-51).
Definition f64_0_5 : spec_float := S754_finite false 4503599627370496 (-53).
Definition f64_1e_7 : spec_float := f64_div (f64_of_Z 1) (f64_of_Z 10000000).
Definition f64_1e_3 : spec_float := f64_div (f64_of_Z 1) (f64_of_Z 1000).

(** The value of a floating point number truncated toward zero, read off
    the mantissa: a left shift for a non-negative exponent, a right shift
    that drops the fraction bits otherwise.  NaN and the infinities have
    none. *)
Definition SFtrunc (f : spec_float) : option Z :=
  match f with
  | S754_zero _ => Some 0
  | S754_finite s m e =>
      Some (cond_Zopp s (match e with
                         | Z0 => Zpos m
                         | Zpos p => Z.shiftl (Zpos m) e
                         | Zneg p => Z.shiftr (Zpos m) (Zpos p)
                         end))
  | S754_infinity _ | S754_nan => None
  end.

(** The conversion [(int)f].  C defines it only when the truncated value
    is representable in [int]; [None] stands for the undefined cases. *)
Definition cast_int (f : spec_float) : option Z :=
  match SFtrunc f with
  | Some z => if in_int z then Some z else None
  | None => None
  end.

(** The rational number a floating point value denotes. *)
Definition SF2Q (f : spec_float) : option Q :=
  match f with
  | S754_zero _ => Some 0%Q
  | S754_finite s m e => Some (inject_Z (cond_Zopp s (Zpos m)) * Qpower 2 e)%Q
  | S754_infinity _ | S754_nan => None
  end.

(** Truncation of a rational toward zero. *)
Definition Qtrunc (q : Q) : Z := if Qle_bool 0 q then Qfloor q else Qceiling q.

(** [f] denotes a number within [eps] of [q]. *)
Definition within (f : spec_float) (q eps : Q) : Prop :=
  match SF2Q f with
  | Some x => (Qabs (x - q) <= eps)%Q
  | None => False
  end.

End Flt.
Export Flt.

(** ** Helpers *)

(** The loop [while (sf++ < 0) body]: the test reads [sf] and then
    increments it, so the body runs once per value of [sf] below zero. *)
Equations while_inc_lt0 (body : spec_float -> spec_float) (sf : Z) (f : spec_float)
  : spec_float by wf (Z.to_nat (- sf)) lt :=
  while_inc_lt0 body sf f with Z_lt_dec sf 0 := {
    | left _ => while_inc_lt0 body (sf + 1) (body f)
    | right _ => f }.
Next Obligation. lia. Qed.

(** The loop [while (sf-- > 0) body]. *)
Equations while_dec_gt0 (body : spec_float -> spec_float) (sf : Z) (f : spec_float)
  : spec_float by wf (Z.to_nat sf) lt :=
  while_dec_gt0 body sf f with Z_gt_dec sf 0 := {
    | left _ => while_dec_gt0 body (sf - 1) (body f)
    | right _ => f }.
Next Obligation. lia. Qed.

(** [static int float_to_fixedpoint(float f, int sf)] *)
Definition float_to_fixedpoint (f : spec_float) (sf : Z) : option Z :=
  let f :=
    if sf <? 0
    then while_inc_lt0 (fun f => f32_mul f f32_2_0) sf f
    else while_dec_gt0 (fun f => f32_mul f f32_0_5) sf f in
  cast_int f.

(** [static inline int double_to_fixedpoint(double d, int sf)] *)
Definition double_to_fixedpoint (d : spec_float) (sf : Z) : option Z :=
  let d :=
    if sf <? 0
    then while_inc_lt0 (fun d => f64_mul d f64_2_0) sf d
    else while_dec_gt0 (fun d => f64_mul d f64_0_5) sf d in
  cast_int d.

(** *** The scaling helper as the specification words it *)

(** "Truncated toward zero to an integer": the truncation of the number
    the value denotes, which exists when the value is finite and the
    integer fits [int]. *)
Definition truncate_toward_zero (f : spec_float) : option Z :=
  match SF2Q f with
  | Some q => if in_int (Qtrunc q) then Some (Qtrunc q) else None
  | None => None
  end.

(** "If scaleFactor < 0, multiply value by 2.0 exactly |scaleFactor|
    times; otherwise multiply by 0.5 exactly scaleFactor times", for the
    multiplication [mul] and the constants [two] and [half] of a format. *)
Definition scale_spec (mul : spec_float -> spec_float -> spec_float)
    (two half : spec_float) (v : spec_float) (sf : Z) : option Z :=
  truncate_toward_zero
    (if sf <? 0
     then Nat.iter (Z.abs_nat sf) (fun x => mul x two) v
     else Nat.iter (Z.to_nat sf) (fun x => mul x half) v).

(** [1.0] in each format. *)
Definition f32_1_0 : spec_float := f32_of_Z 1.
Definition f64_1_0 : spec_float := f64_of_Z 1.

(** The round trip scale(scale(v, sf), -sf).  The first call returns an
    [int], which C converts back to the floating type of the parameter. *)
Definition round_trip32 (v : spec_float) (sf : Z) : option Z :=
  match float_to_fixedpoint v sf with
  | Some n => float_to_fixedpoint (f32_of_Z n) (- sf)
  | None => None
  end.

Definition round_trip64 (v : spec_float) (sf : Z) : option Z :=
  match double_to_fixedpoint v sf with
  | Some n => double_to_fixedpoint (f64_of_Z n) (- sf)
  | None => None
  end.

(** The result [r] of a round trip approximates [v] with relative
    tolerance [tol]. *)
Definition approximates (tol : Q) (r : option Z) (v : spec_float) : Prop :=
  match r, SF2Q v with
  | Some n, Some x => (Qabs (inject_Z n - x) <= tol * Qabs x)%Q
  | _, _ => False
  end.

(** ** Data model *)

(** *** The accumulator, [struct gps_assist_data] of gps.h

    gps.h is not part of the sources at hand.  The structures below list
    the members the parser reads or writes, under the names the parser
    uses; a satellite record is its [sv_id] and the orbital parameters,
    which only the unpack functions touch and whose type is left open. *)

Record gps_ref_pos := {
  latitude : spec_float;  (* double, degrees *)
  longitude : spec_float; (* double, degrees *)
  altitude : spec_float   (* double, meters *)
}.

Record gps_ref_time := {
  wn : Z;
  tow : spec_float; (* double, seconds *)
  when : Z          (* time_t *)
}.

Record gps_utc_model := {
  a0 : Z; a1 : Z; delta_t_ls : Z; t_ot : Z;
  wn_t : Z; wn_lsf : Z; dn : Z; delta_t_lsf : Z
}.

Record gps_ionosphere_model := {
  alpha_0 : Z; alpha_1 : Z; alpha_2 : Z; alpha_3 : Z;
  beta_0 : Z; beta_1 : Z; beta_2 : Z; beta_3 : Z
}.

Record gps_sv (params : Type) := { sv_id : Z; sv_params : params }.
Arguments sv_id {params} _.
Arguments sv_params {params} _.
Arguments Build_gps_sv {params} _ _.

Definition set_sv_id {params : Type} (x : Z) (sv : gps_sv params) : gps_sv params :=
  {| sv_id := x; sv_params := sv_params sv |}.

Section Parser.

(** The orbital parameters of [struct gps_almanac_sv] and of
    [struct gps_ephemeris_sv]. *)
Context {almanac_params ephemeris_params : Type}.

Definition gps_almanac_sv : Type := gps_sv almanac_params.
Definition gps_ephemeris_sv : Type := gps_sv ephemeris_params.

Record gps_almanac := {
  wna : Z;
  alm_n_sv : Z;                   (* int n_sv *)
  alm_svs : list gps_almanac_sv   (* svs[MAX_SV] *)
}.

Record gps_ephemeris := {
  eph_n_sv : Z;                    (* int n_sv *)
  eph_svs : list gps_ephemeris_sv  (* svs[MAX_SV] *)
}.

Record gps_assist_data := {
  fields : Z;
  ref_pos : gps_ref_pos;
  ref_time : gps_ref_time;
  utc : gps_utc_model;
  ionosphere : gps_ionosphere_model;
  almanac : gps_almanac;
  ephemeris : gps_ephemeris
}.

(** Assignment to one member. *)
Definition set_fields (x : Z) (g : gps_assist_data) : gps_assist_data :=
  {| fields := x; ref_pos := ref_pos g; ref_time := ref_time g; utc := utc g;
     ionosphere := ionosphere g; almanac := almanac g; ephemeris := ephemeris g |}.
Definition set_ref_pos (x : gps_ref_pos) (g : gps_assist_data) : gps_assist_data :=
  {| fields := fields g; ref_pos := x; ref_time := ref_time g; utc := utc g;
     ionosphere := ionosphere g; almanac := almanac g; ephemeris := ephemeris g |}.
Definition set_ref_time (x : gps_ref_time) (g : gps_assist_data) : gps_assist_data :=
  {| fields := fields g; ref_pos := ref_pos g; ref_time := x; utc := utc g;
     ionosphere := ionosphere g; almanac := almanac g; ephemeris := ephemeris g |}.
Definition set_utc (x : gps_utc_model) (g : gps_assist_data) : gps_assist_data :=
  {| fields := fields g; ref_pos := ref_pos g; ref_time := ref_time g; utc := x;
     ionosphere := ionosphere g; almanac := almanac g; ephemeris := ephemeris g |}.
Definition set_ionosphere (x : gps_ionosphere_model) (g : gps_assist_data) : gps_assist_data :=
  {| fields := fields g; ref_pos := ref_pos g; ref_time := ref_time g; utc := utc g;
     ionosphere := x; almanac := almanac g; ephemeris := ephemeris g |}.
Definition set_almanac (x : gps_almanac) (g : gps_assist_data) : gps_assist_data :=
  {| fields := fields g; ref_pos := ref_pos g; ref_time := ref_time g; utc := utc g;
     ionosphere := ionosphere g; almanac := x; ephemeris := ephemeris g |}.
Definition set_ephemeris (x : gps_ephemeris) (g : gps_assist_data) : gps_assist_data :=
  {| fields := fields g; ref_pos := ref_pos g; ref_time := ref_time g; utc := utc g;
     ionosphere := ionosphere g; almanac := almanac g; ephemeris := x |}.

Definition set_latitude (x : spec_float) (p : gps_ref_pos) : gps_ref_pos :=
  {| latitude := x; longitude := longitude p; altitude := altitude p |}.
Definition set_longitude (x : spec_float) (p : gps_ref_pos) : gps_ref_pos :=
  {| latitude := latitude p; longitude := x; altitude := altitude p |}.
Definition set_altitude (x : spec_float) (p : gps_ref_pos) : gps_ref_pos :=
  {| latitude := latitude p; longitude := longitude p; altitude := x |}.

Definition set_wn (x : Z) (t : gps_ref_time) : gps_ref_time :=
  {| wn := x; tow := tow t; when := when t |}.
Definition set_tow (x : spec_float) (t : gps_ref_time) : gps_ref_time :=
  {| wn := wn t; tow := x; when := when t |}.
Definition set_when (x : Z) (t : gps_ref_time) : gps_ref_time :=
  {| wn := wn t; tow := tow t; when := x |}.

Definition set_a0 (x : Z) (u : gps_utc_model) : gps_utc_model :=
  {| a0 := x; a1 := a1 u; delta_t_ls := delta_t_ls u; t_ot := t_ot u;
     wn_t := wn_t u; wn_lsf := wn_lsf u; dn := dn u; delta_t_lsf := delta_t_lsf u |}.
Definition set_a1 (x : Z) (u : gps_utc_model) : gps_utc_model :=
  {| a0 := a0 u; a1 := x; delta_t_ls := delta_t_ls u; t_ot := t_ot u;
     wn_t := wn_t u; wn_lsf := wn_lsf u; dn := dn u; delta_t_lsf := delta_t_lsf u |}.
Definition set_delta_t_ls (x : Z) (u : gps_utc_model) : gps_utc_model :=
  {| a0 := a0 u; a1 := a1 u; delta_t_ls := x; t_ot := t_ot u;
     wn_t := wn_t u; wn_lsf := wn_lsf u; dn := dn u; delta_t_lsf := delta_t_lsf u |}.
Definition set_t_ot (x : Z) (u : gps_utc_model) : gps_utc_model :=
  {| a0 := a0 u; a1 := a1 u; delta_t_ls := delta_t_ls u; t_ot := x;
     wn_t := wn_t u; wn_lsf := wn_lsf u; dn := dn u; delta_t_lsf := delta_t_lsf u |}.
Definition set_wn_t (x : Z) (u : gps_utc_model) : gps_utc_model :=
  {| a0 := a0 u; a1 := a1 u; delta_t_ls := delta_t_ls u; t_ot := t_ot u;
     wn_t := x; wn_lsf := wn_lsf u; dn := dn u; delta_t_lsf := delta_t_lsf u |}.
Definition set_wn_lsf (x : Z) (u : gps_utc_model) : gps_utc_model :=
  {| a0 := a0 u; a1 := a1 u; delta_t_ls := delta_t_ls u; t_ot := t_ot u;
     wn_t := wn_t u; wn_lsf := x; dn := dn u; delta_t_lsf := delta_t_lsf u |}.
Definition set_dn (x : Z) (u : gps_utc_model) : gps_utc_model :=
  {| a0 := a0 u; a1 := a1 u; delta_t_ls := delta_t_ls u; t_ot := t_ot u;
     wn_t := wn_t u; wn_lsf := wn_lsf u; dn := x; delta_t_lsf := delta_t_lsf u |}.
Definition set_delta_t_lsf (x : Z) (u : gps_utc_model) : gps_utc_model :=
  {| a0 := a0 u; a1 := a1 u; delta_t_ls := delta_t_ls u; t_ot := t_ot u;
     wn_t := wn_t u; wn_lsf := wn_lsf u; dn := dn u; delta_t_lsf := x |}.

Definition set_alpha_0 (x : Z) (i : gps_ionosphere_model) : gps_ionosphere_model :=
  {| alpha_0 := x; alpha_1 := alpha_1 i; alpha_2 := alpha_2 i; alpha_3 := alpha_3 i;
     beta_0 := beta_0 i; beta_1 := beta_1 i; beta_2 := beta_2 i; beta_3 := beta_3 i |}.
Definition set_alpha_1 (x : Z) (i : gps_ionosphere_model) : gps_ionosphere_model :=
  {| alpha_0 := alpha_0 i; alpha_1 := x; alpha_2 := alpha_2 i; alpha_3 := alpha_3 i;
     beta_0 := beta_0 i; beta_1 := beta_1 i; beta_2 := beta_2 i; beta_3 := beta_3 i |}.
Definition set_alpha_2 (x : Z) (i : gps_ionosphere_model) : gps_ionosphere_model :=
  {| alpha_0 := alpha_0 i; alpha_1 := alpha_1 i; alpha_2 := x; alpha_3 := alpha_3 i;
     beta_0 := beta_0 i; beta_1 := beta_1 i; beta_2 := beta_2 i; beta_3 := beta_3 i |}.
Definition set_alpha_3 (x : Z) (i : gps_ionosphere_model) : gps_ionosphere_model :=
  {| alpha_0 := alpha_0 i; alpha_1 := alpha_1 i; alpha_2 := alpha_2 i; alpha_3 := x;
     beta_0 := beta_0 i; beta_1 := beta_1 i; beta_2 := beta_2 i; beta_3 := beta_3 i |}.
Definition set_beta_0 (x : Z) (i : gps_ionosphere_model) : gps_ionosphere_model :=
  {| alpha_0 := alpha_0 i; alpha_1 := alpha_1 i; alpha_2 := alpha_2 i; alpha_3 := alpha_3 i;
     beta_0 := x; beta_1 := beta_1 i; beta_2 := beta_2 i; beta_3 := beta_3 i |}.
Definition set_beta_1 (x : Z) (i : gps_ionosphere_model) : gps_ionosphere_model :=
  {| alpha_0 := alpha_0 i; alpha_1 := alpha_1 i; alpha_2 := alpha_2 i; alpha_3 := alpha_3 i;
     beta_0 := beta_0 i; beta_1 := x; beta_2 := beta_2 i; beta_3 := beta_3 i |}.
Definition set_beta_2 (x : Z) (i : gps_ionosphere_model) : gps_ionosphere_model :=
  {| alpha_0 := alpha_0 i; alpha_1 := alpha_1 i; alpha_2 := alpha_2 i; alpha_3 := alpha_3 i;
     beta_0 := beta_0 i; beta_1 := beta_1 i; beta_2 := x; beta_3 := beta_3 i |}.
Definition set_beta_3 (x : Z) (i : gps_ionosphere_model) : gps_ionosphere_model :=
  {| alpha_0 := alpha_0 i; alpha_1 := alpha_1 i; alpha_2 := alpha_2 i; alpha_3 := alpha_3 i;
     beta_0 := beta_0 i; beta_1 := beta_1 i; beta_2 := beta_2 i; beta_3 := x |}.

Definition set_wna (x : Z) (a : gps_almanac) : gps_almanac :=
  {| wna := x; alm_n_sv := alm_n_sv a; alm_svs := alm_svs a |}.
Definition set_alm_n_sv (x : Z) (a : gps_almanac) : gps_almanac :=
  {| wna := wna a; alm_n_sv := x; alm_svs := alm_svs a |}.
Definition set_alm_svs (x : list gps_almanac_sv) (a : gps_almanac) : gps_almanac :=
  {| wna := wna a; alm_n_sv := alm_n_sv a; alm_svs := x |}.
Definition set_eph_n_sv (x : Z) (e : gps_ephemeris) : gps_ephemeris :=
  {| eph_n_sv := x; eph_svs := eph_svs e |}.
Definition set_eph_svs (x : list gps_ephemeris_sv) (e : gps_ephemeris) : gps_ephemeris :=
  {| eph_n_sv := eph_n_sv e; eph_svs := x |}.

(** The constants and functions of gps.h the parser uses: the capability
    bits of [fields], the capacity of the two satellite arrays, and the
    two functions that unpack subframe words into the record they are
    given a pointer to. *)
Class GpsH := {
  GPS_FIELD_IONOSPHERE : Z;
  GPS_FIELD_UTC : Z;
  GPS_FIELD_REFTIME : Z;
  GPS_FIELD_REFPOS : Z;
  GPS_FIELD_ALMANAC : Z;
  GPS_FIELD_EPHEMERIS : Z;
  MAX_SV : Z;
  gps_unpack_sf123 : list Z -> gps_ephemeris_sv -> gps_ephemeris_sv;
  gps_unpack_sf45_almanac : list Z -> gps_almanac_sv -> gps_almanac_sv
}.

(** *** The messages, ubx.h

    ubx.h is not part of the sources either.  Each message structure
    lists the members the parser reads. *)

Record ubx_hdr := {
  hdr_msg_class : Z;
  hdr_msg_id : Z;
  hdr_payload_len : Z
}.

Record ubx_nav_posllh := {
  posllh_itow : Z;
  posllh_lon : Z;
  posllh_lat : Z;
  posllh_height : Z
}.

Record ubx_aid_ini := {
  ini_wn : Z;
  ini_tow : Z;
  ini_flags : Z
}.

Record ubx_aid_hui := {
  utc_a1 : spec_float; (* double *)
  utc_a0 : spec_float; (* double *)
  utc_tot : Z;
  utc_wnt : Z;
  utc_ls : Z;
  utc_wnf : Z;
  utc_dn : Z;
  utc_lsf : Z;
  klob_a0 : spec_float; (* float *)
  klob_a1 : spec_float;
  klob_a2 : spec_float;
  klob_a3 : spec_float;
  klob_b0 : spec_float;
  klob_b1 : spec_float;
  klob_b2 : spec_float;
  klob_b3 : spec_float;
  hui_flags : Z
}.

Record ubx_aid_alm := {
  alm_sv_id : Z;
  gps_week : Z;
  alm_words : list Z
}.

Record ubx_aid_eph := {
  eph_sv_id : Z;
  present : Z;
  eph_words : list Z
}.

Record ubx_nav_timegps := {
  timegps_itow : Z;
  week : Z
}.

(** The memory [pl] points to.  The decoders read it only through the
    structures above. *)
Context {payload : Type}.

(** What ubx.h fixes: the class and id numbers, the size of the two
    structures whose length is checked, and the layout of each structure,
    as the view of a payload through a pointer to it. *)
Class UbxH := {
  UBX_CLASS_NAV : Z;
  UBX_CLASS_AID : Z;
  UBX_NAV_POSLLH : Z;
  UBX_NAV_TIMEGPS : Z;
  UBX_AID_INI : Z;
  UBX_AID_HUI : Z;
  UBX_AID_ALM : Z;
  UBX_AID_EPH : Z;
  sizeof_ubx_aid_alm : Z;
  sizeof_ubx_aid_eph : Z;
  as_nav_posllh : payload -> ubx_nav_posllh;
  as_aid_ini : payload -> ubx_aid_ini;
  as_aid_hui : payload -> ubx_aid_hui;
  as_aid_alm : payload -> ubx_aid_alm;
  as_aid_eph : payload -> ubx_aid_eph;
  as_nav_timegps : payload -> ubx_nav_timegps
}.

Context {gps_h : GpsH} {ubx_h : UbxH}.

(** ** The world of a decoder call *)

(** An argument of a [printf] call. *)
Inductive printf_arg :=
| ArgInt (z : Z)
| ArgDouble (d : spec_float)
| ArgStr (s : string).

(** One call that prints: on stdout, the debug trace of [printd], or on
    stderr, the diagnostics.  The text is the format as written in the
    source, with its arguments beside it. *)
Inductive event :=
| Stdout (fmt : string) (args : list printf_arg)
| Stderr (fmt : string) (args : list printf_arg).

Definition is_stderr (e : event) : bool :=
  match e with Stderr _ _ => true | Stdout _ _ => false end.

(** The diagnostics among the events printed. *)
Definition diagnostics (l : list event) : list event := List.filter is_stderr l.

Record world := {
  ud : gps_assist_data; (* the accumulator [ud] points to *)
  out : list event;     (* what was printed so far, oldest first *)
  clock : Z             (* what [time(NULL)] returns *)
}.

Definition set_ud (g : gps_assist_data) (w : world) : world :=
  {| ud := g; out := out w; clock := clock w |}.
Definition set_clock (c : Z) (w : world) : world :=
  {| ud := ud w; out := out w; clock := c |}.

(** Behaviour C leaves undefined. *)
Inductive fault :=
| OutOfBounds (i : Z)  (* a store to [svs[i]] outside the array *)
| CastOverflow.        (* [(int)f] for an [f] that does not fit [int] *)

Inductive outcome (A : Type) :=
| Done (a : A) (w : world)
| Fault (f : fault) (w : world).
Arguments Done {A} _ _.
Arguments Fault {A} _ _.

(** The world a call ends in, or the world it had reached when it met the
    undefined step: [Fault] records the state before that step and says
    nothing of what memory holds after it. *)
Definition world_of {A : Type} (o : outcome A) : world :=
  match o with Done _ w => w | Fault _ w => w end.

Definition M (A : Type) : Type := world -> outcome A.

Definition ret {A : Type} (a : A) : M A := fun w => Done a w.

Definition bind {A B : Type} (m : M A) (k : A -> M B) : M B :=
  fun w => match m w with
           | Done a w' => k a w'
           | Fault f w' => Fault f w'
           end.

Notation "x <- m ;; k" := (bind m (fun x => k))
  (at level 100, m at next level, right associativity).
Notation "m ;; k" := (bind m (fun _ => k))
  (at level 100, right associativity).

(** Read the accumulator through [gps]. *)
Definition get_gps : M gps_assist_data := fun w => Done (ud w) w.

(** A store through [gps]. *)
Definition store (f : gps_assist_data -> gps_assist_data) : M unit :=
  fun w => Done tt (set_ud (f (ud w)) w).

(** [printd(fmt, args)], with [DEBUG] set to 1. *)
Definition printd (fmt : string) (args : list printf_arg) : M unit :=
  fun w => Done tt {| ud := ud w; out := out w ++ [Stdout fmt args]; clock := clock w |}.

(** [printd1(fmt, args)], with [DEBUG1] set to 0: expands to nothing. *)
Definition printd1 (fmt : string) (args : list printf_arg) : M unit := ret tt.

(** [fprintf(stderr, fmt, args)] *)
Definition fprintf_stderr (fmt : string) (args : list printf_arg) : M unit :=
  fun w => Done tt {| ud := ud w; out := out w ++ [Stderr fmt args]; clock := clock w |}.

(** [time(NULL)] *)
Definition time_NULL : M Z := fun w => Done (clock w) w.

(** The result of a scaling helper, whose cast may be undefined. *)
Definition defined (o : option Z) : M Z :=
  fun w => match o with Some z => Done z w | None => Fault CastOverflow w end.

(** [if (c) { m }] *)
Definition when_ (c : bool) (m : M unit) : M unit := if c then m else ret tt.

(** The store [f] to [gps->almanac.svs[i]].  The array has [MAX_SV]
    records (a list of that length in a well-formed accumulator).  The
    source makes the store without a test; at an index outside the array
    it is undefined, and the run stops here with the accumulator as it
    was before the store. *)
Definition store_almanac_sv (i : Z) (f : gps_almanac_sv -> gps_almanac_sv) : M unit :=
  fun w =>
    if (0 <=? i) && (i <? MAX_SV)
    then Done tt (set_ud (set_almanac
           (set_alm_svs (alter f (Z.to_nat i) (alm_svs (almanac (ud w))))
                        (almanac (ud w))) (ud w)) w)
    else Fault (OutOfBounds i) w.

(** The store [f] to [gps->ephemeris.svs[i]], likewise. *)
Definition store_ephemeris_sv (i : Z) (f : gps_ephemeris_sv -> gps_ephemeris_sv) : M unit :=
  fun w =>
    if (0 <=? i) && (i <? MAX_SV)
    then Done tt (set_ud (set_ephemeris
           (set_eph_svs (alter f (Z.to_nat i) (eph_svs (ephemeris (ud w))))
                        (ephemeris (ud w))) (ud w)) w)
    else Fault (OutOfBounds i) w.

(** ** UBX message parsing to fill gps assist data *)

Definition _ubx_msg_parse_nav_posllh (hdr : ubx_hdr) (pl : payload) (pl_len : Z) : M unit :=
  let nav_posllh := as_nav_posllh pl in
  printd "[.] NAV_POSLLH\n" [] ;;
  store (fun gps => set_fields (Z.lor (fields gps) GPS_FIELD_REFPOS) gps) ;;
  store (fun gps => set_ref_pos (set_latitude
    (f64_mul (f64_of_Z (posllh_lat nav_posllh)) f64_1e_7) (ref_pos gps)) gps) ;;
  store (fun gps => set_ref_pos (set_longitude
    (f64_mul (f64_of_Z (posllh_lon nav_posllh)) f64_1e_7) (ref_pos gps)) gps) ;;
  store (fun gps => set_ref_pos (set_altitude
    (f64_mul (f64_of_Z (posllh_height nav_posllh)) f64_1e_3) (ref_pos gps)) gps) ;;
  gps <- get_gps ;;
  printd "  TOW       %lu\n" [ArgInt (posllh_itow nav_posllh)] ;;
  printd "  latitude  %f\n" [ArgDouble (latitude (ref_pos gps))] ;;
  printd "  longitude %f\n" [ArgDouble (longitude (ref_pos gps))] ;;
  printd "  altitude  %f\n" [ArgDouble (altitude (ref_pos gps))].

Definition _ubx_msg_parse_aid_ini (hdr : ubx_hdr) (pl : payload) (pl_len : Z) : M unit :=
  let aid_ini := as_aid_ini pl in
  printd "[.] AID_INI\n" [] ;;
  (* Extract info for "Reference Time" *)
  store (fun gps => set_fields (Z.lor (fields gps) GPS_FIELD_REFTIME) gps) ;;
  store (fun gps => set_ref_time (set_wn (ini_wn aid_ini) (ref_time gps)) gps) ;;
  store (fun gps => set_ref_time (set_tow
    (f64_mul (f64_of_Z (ini_tow aid_ini)) f64_1e_3) (ref_time gps)) gps) ;;
  now <- time_NULL ;;
  store (fun gps => set_ref_time (set_when now (ref_time gps)) gps) ;;
  gps <- get_gps ;;
  printd "  WN   %d\n" [ArgInt (wn (ref_time gps))] ;;
  printd "  TOW  %ld\n" [ArgInt (ini_tow aid_ini)] ;;
  (* time and pos valid ? *)
  when_ (negb (Z.land (ini_flags aid_ini) 3 =? 3))
    (fprintf_stderr "Postion and/or time not valid (0x%lx)" [ArgInt (ini_flags aid_ini)]).

Definition _ubx_msg_parse_aid_hui (hdr : ubx_hdr) (pl : payload) (pl_len : Z) : M unit :=
  let aid_hui := as_aid_hui pl in
  printd "[.] AID_HUI\n" [] ;;
  (* UTC parameters valid *)
  when_ (truthy (Z.land (hui_flags aid_hui) 2))
    (printd "  UTC\n" [] ;;
     store (fun gps => set_fields (Z.lor (fields gps) GPS_FIELD_UTC) gps) ;;
     x <- defined (double_to_fixedpoint (utc_a0 aid_hui) (-30)) ;;
     store (fun gps => set_utc (set_a0 x (utc gps)) gps) ;;
     x <- defined (double_to_fixedpoint (utc_a1 aid_hui) (-50)) ;;
     store (fun gps => set_utc (set_a1 x (utc gps)) gps) ;;
     store (fun gps => set_utc (set_delta_t_ls (utc_ls aid_hui) (utc gps)) gps) ;;
     store (fun gps => set_utc (set_t_ot (Z.shiftr (utc_tot aid_hui) 12) (utc gps)) gps) ;;
     store (fun gps => set_utc (set_wn_t (utc_wnt aid_hui) (utc gps)) gps) ;;
     store (fun gps => set_utc (set_wn_lsf (utc_wnf aid_hui) (utc gps)) gps) ;;
     store (fun gps => set_utc (set_dn (utc_dn aid_hui) (utc gps)) gps) ;;
     store (fun gps => set_utc (set_delta_t_lsf (utc_lsf aid_hui) (utc gps)) gps)) ;;
  (* Klobuchar parameters valid *)
  when_ (truthy (Z.land (hui_flags aid_hui) 4))
    (printd "  IONOSPHERE\n" [] ;;
     store (fun gps => set_fields (Z.lor (fields gps) GPS_FIELD_IONOSPHERE) gps) ;;
     x <- defined (float_to_fixedpoint (klob_a0 aid_hui) (-30)) ;;
     store (fun gps => set_ionosphere (set_alpha_0 x (ionosphere gps)) gps) ;;
     x <- defined (float_to_fixedpoint (klob_a1 aid_hui) (-27)) ;;
     store (fun gps => set_ionosphere (set_alpha_1 x (ionosphere gps)) gps) ;;
     x <- defined (float_to_fixedpoint (klob_a2 aid_hui) (-24)) ;;
     store (fun gps => set_ionosphere (set_alpha_2 x (ionosphere gps)) gps) ;;
     x <- defined (float_to_fixedpoint (klob_a3 aid_hui) (-24)) ;;
     store (fun gps => set_ionosphere (set_alpha_3 x (ionosphere gps)) gps) ;;
     x <- defined (float_to_fixedpoint (klob_b0 aid_hui) 11) ;;
     store (fun gps => set_ionosphere (set_beta_0 x (ionosphere gps)) gps) ;;
     x <- defined (float_to_fixedpoint (klob_b1 aid_hui) 14) ;;
     store (fun gps => set_ionosphere (set_beta_1 x (ionosphere gps)) gps) ;;
     x <- defined (float_to_fixedpoint (klob_b2 aid_hui) 16) ;;
     store (fun gps => set_ionosphere (set_beta_2 x (ionosphere gps)) gps) ;;
     x <- defined (float_to_fixedpoint (klob_b3 aid_hui) 16) ;;
     store (fun gps => set_ionosphere (set_beta_3 x (ionosphere gps)) gps)).

Definition _ubx_msg_parse_aid_alm (hdr : ubx_hdr) (pl : payload) (pl_len : Z) : M unit :=
  let aid_alm := as_aid_alm pl in
  if pl_len =? 8 then (* length if not available *)
    ret tt
  else if negb (pl_len =? sizeof_ubx_aid_alm) then
    fprintf_stderr "pl_len != sizeof(struct ubx_aid_alm) (%d)\n" [ArgInt pl_len]
  else
    gps <- get_gps ;;
    printd "[.] AID_ALM %2ld - %ld (nsv = %d)\n"
      [ArgInt (alm_sv_id aid_alm); ArgInt (gps_week aid_alm);
       ArgInt (alm_n_sv (almanac gps))] ;;
    when_ (truthy (gps_week aid_alm))
      (gps <- get_gps ;;
       let i := alm_n_sv (almanac gps) in
       store (fun gps => set_almanac (set_alm_n_sv (wrap_int (i + 1)) (almanac gps)) gps) ;;
       store (fun gps => set_fields (Z.lor (fields gps) GPS_FIELD_ALMANAC) gps) ;;
       store (fun gps => set_almanac
         (set_wna (Z.land (gps_week aid_alm) 255) (almanac gps)) gps) ;;
       store_almanac_sv i (gps_unpack_sf45_almanac (alm_words aid_alm)) ;;
       (* set satellite ID this way, otherwise it will be wrong *)
       store_almanac_sv i (set_sv_id (alm_sv_id aid_alm))).

Definition _ubx_msg_parse_aid_eph (hdr : ubx_hdr) (pl : payload) (pl_len : Z) : M unit :=
  let aid_eph := as_aid_eph pl in
  if pl_len =? 8 then (* length if not available *)
    ret tt
  else if negb (pl_len =? sizeof_ubx_aid_eph) then
    fprintf_stderr "pl_len != sizeof(struct ubx_aid_eph) (%d)\n" [ArgInt pl_len]
  else
    gps <- get_gps ;;
    printd "[.] AID_EPH %2ld - %s (nsv = %d)\n"
      [ArgInt (eph_sv_id aid_eph);
       ArgStr (if truthy (present aid_eph) then "present" else EmptyString);
       ArgInt (eph_n_sv (ephemeris gps))] ;;
    when_ (truthy (present aid_eph))
      (gps <- get_gps ;;
       let i := eph_n_sv (ephemeris gps) in
       store (fun gps => set_ephemeris (set_eph_n_sv (wrap_int (i + 1)) (ephemeris gps)) gps) ;;
       store (fun gps => set_fields (Z.lor (fields gps) GPS_FIELD_EPHEMERIS) gps) ;;
       store_ephemeris_sv i (set_sv_id (eph_sv_id aid_eph)) ;;
       store_ephemeris_sv i (gps_unpack_sf123 (eph_words aid_eph))).

Definition _ubx_msg_parse_nav_timegps (hdr : ubx_hdr) (pl : payload) (pl_len : Z) : M unit :=
  let nav_timegps := as_nav_timegps pl in
  printd1 "[.] NAV_TIMEGPS\n" [] ;;
  (* Extract info for "Reference Time" *)
  store (fun gps => set_fields (Z.lor (fields gps) GPS_FIELD_REFTIME) gps) ;;
  store (fun gps => set_ref_time (set_wn (week nav_timegps) (ref_time gps)) gps) ;;
  store (fun gps => set_ref_time (set_tow
    (f64_mul (f64_of_Z (timegps_itow nav_timegps)) f64_1e_3) (ref_time gps)) gps) ;;
  now <- time_NULL ;;
  store (fun gps => set_ref_time (set_when now (ref_time gps)) gps) ;;
  printd1 "  WN   %d\n" [ArgInt (week nav_timegps)] ;;
  printd1 "  TOW  %ld\n" [ArgInt (timegps_itow nav_timegps)].

(** ** Dispatch table *)

Record ubx_dispatch_entry := {
  msg_class : Z;
  msg_id : Z;
  handler : ubx_hdr -> payload -> Z -> M unit
}.

Definition ubx_parse_dt : list ubx_dispatch_entry := [
  {| msg_class := UBX_CLASS_NAV; msg_id := UBX_NAV_POSLLH; handler := _ubx_msg_parse_nav_posllh |};
  {| msg_class := UBX_CLASS_AID; msg_id := UBX_AID_INI; handler := _ubx_msg_parse_aid_ini |};
  {| msg_class := UBX_CLASS_AID; msg_id := UBX_AID_HUI; handler := _ubx_msg_parse_aid_hui |};
  {| msg_class := UBX_CLASS_AID; msg_id := UBX_AID_ALM; handler := _ubx_msg_parse_aid_alm |};
  {| msg_class := UBX_CLASS_AID; msg_id := UBX_AID_EPH; handler := _ubx_msg_parse_aid_eph |};
  {| msg_class := UBX_CLASS_NAV; msg_id := UBX_NAV_TIMEGPS; handler := _ubx_msg_parse_nav_timegps |}
].

(** ** Notions the properties are stated with *)

(** [n] calls of [m] in a row. *)
Fixpoint repeat_m (n : nat) (m : M unit) : M unit :=
  match n with
  | O => ret tt
  | S n' => m ;; repeat_m n' m
  end.

(** A valid AID-ALM message, with a week that is not 0. *)
Definition valid_alm (pl : payload) : Prop :=
  sizeof_ubx_aid_alm <> 8 /\ gps_week (as_aid_alm pl) <> 0.

(** A valid AID-EPH message that is present. *)
Definition valid_eph (pl : payload) : Prop :=
  sizeof_ubx_aid_eph <> 8 /\ present (as_aid_eph pl) <> 0.

(** Every capability bit set in [w] is set in [w']. *)
Definition grows (w w' : world) : Prop :=
  Z.land (fields (ud w)) (fields (ud w')) = fields (ud w).

(** A computation that clears no capability bit, wherever it ends or
    stops. *)
Definition monotone {A : Type} (m : M A) : Prop :=
  forall w : world, grows w (world_of (m w)).

(** What a call leaves behind for its caller: whether it ran to its end
    or stopped, and the accumulator. *)
Definition result {A : Type} (o : outcome A) : (A + fault) * gps_assist_data :=
  match o with
  | Done a w => (inl a, ud w)
  | Fault f w => (inr f, ud w)
  end.

(** The same, with the capture time [ref_time.when] blanked. *)
Definition erase_when {R : Type} (r : R * gps_assist_data) : R * gps_assist_data :=
  (fst r, set_ref_time (set_when 0 (ref_time (snd r))) (snd r)).

(** A computation whose result is a function of the accumulator alone:
    it reads neither the clock nor what was printed. *)
Definition accumulator_only {A : Type} (m : M A) : Prop :=
  forall w1 w2 : world, ud w1 = ud w2 -> result (m w1) = result (m w2).

(** The calls [d pl] for the payloads of a list, in the order of the
    list. *)
Fixpoint run_each (d : payload -> M unit) (pls : list payload) : M unit :=
  match pls with
  | [] => ret tt
  | pl :: pls' => d pl ;; run_each d pls'
  end.

(** A computation that leaves the part [proj] of the accumulator as it
    is, wherever it ends or stops. *)
Definition keeps {A X : Type} (proj : gps_assist_data -> X) (m : M A) : Prop :=
  forall w : world, proj (ud (world_of (m w))) = proj (ud w).

(** A computation that prints at most [n] diagnostics, wherever it ends
    or stops. *)
Definition diagnoses {A : Type} (n : nat) (m : M A) : Prop :=
  forall w : world,
    exists l : list event,
      diagnostics (out (world_of (m w))) = diagnostics (out w) ++ l /\
      (length l <= n)%nat.

End Parser.

Arguments Done {almanac_params ephemeris_params A} a w.
Arguments Fault {almanac_params ephemeris_params A} f w.

(** ** A configuration to run the parser on

    The class and id numbers are those of the UBX protocol, and the two
    sizes those of a packed structure of two 32-bit words followed by 8,
    respectively 24, subframe words.  The capability bits, the capacity
    of 64 satellites and the two unpack functions stand for those of
    gps.h.  A payload carries the view through each structure. *)

Module Demo.

Record payload := {
  nav_posllh : ubx_nav_posllh;
  aid_ini : ubx_aid_ini;
  aid_hui : ubx_aid_hui;
  aid_alm : ubx_aid_alm;
  aid_eph : ubx_aid_eph;
  nav_timegps : ubx_nav_timegps
}.

Definition gps_h : @GpsH (list Z) (list Z) := {|
  GPS_FIELD_IONOSPHERE := 1;
  GPS_FIELD_UTC := 2;
  GPS_FIELD_REFTIME := 4;
  GPS_FIELD_REFPOS := 8;
  GPS_FIELD_ALMANAC := 16;
  GPS_FIELD_EPHEMERIS := 32;
  MAX_SV := 64;
  gps_unpack_sf123 := fun words sv => {| sv_id := sv_id sv; sv_params := words |};
  gps_unpack_sf45_almanac := fun words sv =>
    {| sv_id := Z.land (hd 0 words) 63; sv_params := words |}
|}.

Definition ubx_h : @UbxH payload := {|
  UBX_CLASS_NAV := 1;
  UBX_CLASS_AID := 11;
  UBX_NAV_POSLLH := 2;
  UBX_NAV_TIMEGPS := 32;
  UBX_AID_INI := 1;
  UBX_AID_HUI := 2;
  UBX_AID_ALM := 48;
  UBX_AID_EPH := 49;
  sizeof_ubx_aid_alm := 40;
  sizeof_ubx_aid_eph := 104;
  as_nav_posllh := nav_posllh;
  as_aid_ini := aid_ini;
  as_aid_hui := aid_hui;
  as_aid_alm := aid_alm;
  as_aid_eph := aid_eph;
  as_nav_timegps := nav_timegps
|}.

Definition hdr : ubx_hdr :=
  {| hdr_msg_class := 11; hdr_msg_id := 48; hdr_payload_len := 40 |}.

(** 2^-30 and 2^-50 as [double], 3 * 2^-30 and 5 * 2^11 as [float]. *)
Definition hui : ubx_aid_hui := {|
  utc_a1 := S754_finite false 4503599627370496 (-102);
  utc_a0 := S754_finite false 4503599627370496 (-82);
  utc_tot := 405504;
  utc_wnt := 1550;
  utc_ls := 15;
  utc_wnf := 1512;
  utc_dn := 7;
  utc_lsf := 15;
  klob_a0 := S754_finite false 12582912 (-52);
  klob_a1 := S754_finite false 12582912 (-49);
  klob_a2 := S754_finite false 12582912 (-46);
  klob_a3 := S754_finite false 12582912 (-46);
  klob_b0 := S754_finite false 10485760 (-10);
  klob_b1 := S754_finite false 10485760 (-7);
  klob_b2 := S754_finite false 10485760 (-5);
  klob_b3 := S754_finite false 10485760 (-5);
  hui_flags := 6
|}.

Definition words (n : nat) : list Z := List.map Z.of_nat (List.seq 1 n).

(** A payload with a valid almanac page for satellite 5. *)
Definition pl : payload := {|
  nav_posllh := {| posllh_itow := 345600000; posllh_lon := -1220041450;
                   posllh_lat := 373382270; posllh_height := 30000 |};
  aid_ini := {| ini_wn := 2100; ini_tow := 345600000; ini_flags := 3 |};
  aid_hui := hui;
  aid_alm := {| alm_sv_id := 5; gps_week := 1550; alm_words := words 8 |};
  aid_eph := {| eph_sv_id := 5; present := 1; eph_words := words 24 |};
  nav_timegps := {| timegps_itow := 345600000; week := 2100 |}
|}.

(** The same with the week of the almanac page set to 0. *)
Definition pl_week0 : payload := {|
  nav_posllh := nav_posllh pl;
  aid_ini := aid_ini pl;
  aid_hui := hui;
  aid_alm := {| alm_sv_id := 5; gps_week := 0; alm_words := words 8 |};
  aid_eph := aid_eph pl;
  nav_timegps := nav_timegps pl
|}.

(** A zeroed accumulator. *)
Definition gps0 : @gps_assist_data (list Z) (list Z) := {|
  fields := 0;
  ref_pos := {| latitude := S754_zero false; longitude := S754_zero false;
                altitude := S754_zero false |};
  ref_time := {| wn := 0; tow := S754_zero false; when := 0 |};
  utc := {| a0 := 0; a1 := 0; delta_t_ls := 0; t_ot := 0;
            wn_t := 0; wn_lsf := 0; dn := 0; delta_t_lsf := 0 |};
  ionosphere := {| alpha_0 := 0; alpha_1 := 0; alpha_2 := 0; alpha_3 := 0;
                   beta_0 := 0; beta_1 := 0; beta_2 := 0; beta_3 := 0 |};
  almanac := {| wna := 0; alm_n_sv := 0;
                alm_svs := List.repeat {| sv_id := 0; sv_params := [] |} 64 |};
  ephemeris := {| eph_n_sv := 0;
                  eph_svs := List.repeat {| sv_id := 0; sv_params := [] |} 64 |}
|}.

Definition w0 : @world (list Z) (list Z) :=
  {| ud := gps0; out := []; clock := 1256000000 |}.

(** The payload [pl] with every flag of the AID-HUI message cleared. *)
Definition pl_noflags : payload := {|
  nav_posllh := nav_posllh pl;
  aid_ini := aid_ini pl;
  aid_hui := {|
    utc_a1 := utc_a1 hui; utc_a0 := utc_a0 hui; utc_tot := utc_tot hui;
    utc_wnt := utc_wnt hui; utc_ls := utc_ls hui; utc_wnf := utc_wnf hui;
    utc_dn := utc_dn hui; utc_lsf := utc_lsf hui;
    klob_a0 := klob_a0 hui; klob_a1 := klob_a1 hui; klob_a2 := klob_a2 hui;
    klob_a3 := klob_a3 hui; klob_b0 := klob_b0 hui; klob_b1 := klob_b1 hui;
    klob_b2 := klob_b2 hui; klob_b3 := klob_b3 hui; hui_flags := 0 |};
  aid_alm := aid_alm pl;
  aid_eph := aid_eph pl;
  nav_timegps := nav_timegps pl
|}.

(** A second almanac page and ephemeris, for satellite 7. *)
Definition pl_sv7 : payload := {|
  nav_posllh := nav_posllh pl;
  aid_ini := aid_ini pl;
  aid_hui := hui;
  aid_alm := {| alm_sv_id := 7; gps_week := 1550; alm_words := words 8 |};
  aid_eph := {| eph_sv_id := 7; present := 1; eph_words := words 24 |};
  nav_timegps := nav_timegps pl
|}.

(** The payload [pl] with an ephemeris that is not present. *)
Definition pl_absent : payload := {|
  nav_posllh := nav_posllh pl;
  aid_ini := aid_ini pl;
  aid_hui := hui;
  aid_alm := aid_alm pl;
  aid_eph := {| eph_sv_id := 5; present := 0; eph_words := words 24 |};
  nav_timegps := nav_timegps pl
|}.

(** The payload [pl] with the UTC term a0 set to 2^40, which scaled by
    2^30 does not fit [int]. *)
Definition pl_overflow : payload := {|
  nav_posllh := nav_posllh pl;
  aid_ini := aid_ini pl;
  aid_hui := {|
    utc_a1 := utc_a1 hui; utc_a0 := S754_finite false 4503599627370496 (-12);
    utc_tot := utc_tot hui;
    utc_wnt := utc_wnt hui; utc_ls := utc_ls hui; utc_wnf := utc_wnf hui;
    utc_dn := utc_dn hui; utc_lsf := utc_lsf hui;
    klob_a0 := klob_a0 hui; klob_a1 := klob_a1 hui; klob_a2 := klob_a2 hui;
    klob_a3 := klob_a3 hui; klob_b0 := klob_b0 hui; klob_b1 := klob_b1 hui;
    klob_b2 := klob_b2 hui; klob_b3 := klob_b3 hui; hui_flags := 6 |};
  aid_alm := aid_alm pl;
  aid_eph := aid_eph pl;
  nav_timegps := nav_timegps pl
|}.

(** The zeroed accumulator with both counts at the capacity. *)
Definition w_full : @world (list Z) (list Z) :=
  {| ud := set_ephemeris (set_eph_n_sv 64 (ephemeris gps0))
             (set_almanac (set_alm_n_sv 64 (almanac gps0)) gps0);
     out := [];
     clock := 1256000000 |}.

End Demo.

(** * Properties *)

(** ** The scaling helpers *)

Lemma while_inc_lt0_iter (body : spec_float -> spec_float) (sf : Z) (f : spec_float) :
  while_inc_lt0 body sf f = Nat.iter (Z.to_nat (- sf)) body f.
Proof.
  remember (Z.to_nat (- sf)) as n eqn:Hn.
  revert sf f Hn; induction n as [|n IH]; intros sf f Hn;
    simp while_inc_lt0; destruct (Z_lt_dec sf 0) as [Hlt|Hge]; simpl; try lia; auto.
  rewrite (IH (sf + 1) (body f)) by lia.
  symmetry; apply (Nat.iter_succ_r n body f).
Qed.

Lemma while_dec_gt0_iter (body : spec_float -> spec_float) (sf : Z) (f : spec_float) :
  while_dec_gt0 body sf f = Nat.iter (Z.to_nat sf) body f.
Proof.
  remember (Z.to_nat sf) as n eqn:Hn.
  revert sf f Hn; induction n as [|n IH]; intros sf f Hn;
    simp while_dec_gt0; destruct (Z_gt_dec sf 0) as [Hgt|Hle]; simpl; try lia; auto.
  rewrite (IH (sf - 1) (body f)) by lia.
  symmetry; apply (Nat.iter_succ_r n body f).
Qed.

#[local] Instance Qtrunc_comp : Proper (Qeq ==> eq) Qtrunc.
Proof.
  intros x y Hxy. unfold Qtrunc.
  assert (Hb : Qle_bool 0 x = Qle_bool 0 y).
  { apply eq_true_iff_eq. rewrite !Qle_bool_iff. now rewrite Hxy. }
  rewrite Hb. destruct (Qle_bool 0 y); now rewrite Hxy.
Qed.

Lemma Qtrunc_inject_Z (z : Z) : Qtrunc (inject_Z z) = z.
Proof.
  unfold Qtrunc. destruct (Qle_bool 0 (inject_Z z)); [apply Qfloor_Z | apply Qceiling_Z].
Qed.

Lemma Qtrunc_div_pos (m d : positive) :
  Qtrunc (inject_Z (Zpos m) / inject_Z (Zpos d)) = Zpos m / Zpos d.
Proof.
  unfold Qtrunc.
  replace (Qle_bool 0 (inject_Z (Zpos m) / inject_Z (Zpos d))) with true.
  - symmetry. apply Zdiv_Qdiv.
  - symmetry. apply Qle_bool_iff. apply Qle_shift_div_l; [reflexivity|].
    rewrite Qmult_0_l. discriminate.
Qed.

Lemma Qtrunc_div_neg (m d : positive) :
  Qtrunc (inject_Z (Zneg m) / inject_Z (Zpos d)) = - (Zpos m / Zpos d).
Proof.
  unfold Qtrunc.
  replace (Qle_bool 0 (inject_Z (Zneg m) / inject_Z (Zpos d))) with false.
  - unfold Qceiling. f_equal. rewrite (Zdiv_Qdiv (Zpos m) (Zpos d)).
    apply Qfloor_comp. unfold Qdiv, Qopp, Qmult, Qeq; simpl. reflexivity.
  - symmetry. apply not_true_iff_false. rewrite Qle_bool_iff.
    unfold Qdiv, Qle, Qmult, Qinv; simpl. lia.
Qed.

Lemma Qpower_2_pos (p : positive) :
  (Qpower 2 (Zpos p) == inject_Z (Zpos (2 ^ p)))%Q.
Proof.
  rewrite Pos2Z.inj_pow. symmetry. apply (Zpower_Qpower 2 (Zpos p)). lia.
Qed.

(** Reading the truncated value off the mantissa gives the truncation
    toward zero of the number the floating point value denotes. *)
Lemma SFtrunc_Qtrunc (f : spec_float) : SFtrunc f = option_map Qtrunc (SF2Q f).
Proof.
  destruct f as [s|s| |s m e]; simpl; try reflexivity.
  f_equal. destruct e as [|p|p].
  - rewrite Qmult_1_r. symmetry. apply Qtrunc_inject_Z.
  - rewrite Qpower_2_pos, <- inject_Z_mult, Qtrunc_inject_Z.
    rewrite Z.shiftl_mul_pow2 by lia. rewrite Pos2Z.inj_pow.
    destruct s; simpl; lia.
  - change (Qpower 2 (Zneg p)) with (/ Qpower 2 (Zpos p))%Q.
    rewrite Qpower_2_pos.
    rewrite Z.shiftr_div_pow2 by lia. rewrite <- Pos2Z.inj_pow.
    destruct s; simpl cond_Zopp; symmetry.
    + apply Qtrunc_div_neg.
    + apply Qtrunc_div_pos.
Qed.

Lemma cast_int_truncate (f : spec_float) : cast_int f = truncate_toward_zero f.
Proof.
  unfold cast_int, truncate_toward_zero. rewrite SFtrunc_Qtrunc.
  destruct (SF2Q f); reflexivity.
Qed.

Lemma float_to_fixedpoint_spec (v : spec_float) (sf : Z) :
  float_to_fixedpoint v sf = scale_spec f32_mul f32_2_0 f32_0_5 v sf.
Proof.
  unfold float_to_fixedpoint, scale_spec.
  rewrite cast_int_truncate, while_inc_lt0_iter, while_dec_gt0_iter.
  destruct (Z.ltb_spec sf 0); [|reflexivity].
  now replace (Z.abs_nat sf) with (Z.to_nat (- sf)) by lia.
Qed.

Lemma double_to_fixedpoint_spec (v : spec_float) (sf : Z) :
  double_to_fixedpoint v sf = scale_spec f64_mul f64_2_0 f64_0_5 v sf.
Proof.
  unfold double_to_fixedpoint, scale_spec.
  rewrite cast_int_truncate, while_inc_lt0_iter, while_dec_gt0_iter.
  destruct (Z.ltb_spec sf 0); [|reflexivity].
  now replace (Z.abs_nat sf) with (Z.to_nat (- sf)) by lia.
Qed.

(** C2. For every floating value [v] and every scale factor [sf], both
    scaling helpers return the value obtained by multiplying [v] by 2.0
    exactly [|sf|] times when [sf < 0] and by 0.5 exactly [sf] times
    otherwise, truncated toward zero to an integer; in particular
    scale(1.0, -1) = 2, scale(1.0, 1) = 0 and scale(4.0, 2) = 1, in the
    32-bit and in the 64-bit variant. *)
Theorem C2_scaling_helper :
  (forall (v : spec_float) (sf : Z),
      float_to_fixedpoint v sf = scale_spec f32_mul f32_2_0 f32_0_5 v sf /\
      double_to_fixedpoint v sf = scale_spec f64_mul f64_2_0 f64_0_5 v sf) /\
  (float_to_fixedpoint f32_1_0 (-1) = Some 2 /\
   float_to_fixedpoint f32_1_0 1 = Some 0 /\
   float_to_fixedpoint (f32_of_Z 4) 2 = Some 1) /\
  (double_to_fixedpoint f64_1_0 (-1) = Some 2 /\
   double_to_fixedpoint f64_1_0 1 = Some 0 /\
   double_to_fixedpoint (f64_of_Z 4) 2 = Some 1).
Proof.
  split; [|split].
  - intros v sf. split;
      [apply float_to_fixedpoint_spec | apply double_to_fixedpoint_spec].
  - vm_compute. auto.
  - vm_compute. auto.
Qed.

(** *** Exact scaling of integers *)

Lemma digits2_pos_bounds (p : positive) :
  2 ^ (Zpos (digits2_pos p) - 1) <= Zpos p < 2 ^ Zpos (digits2_pos p).
Proof.
  induction p as [p IH|p IH|]; cbn [digits2_pos].
  - rewrite Pos2Z.inj_succ. replace (Z.succ (Zpos (digits2_pos p)) - 1) with (Zpos (digits2_pos p)) by lia.
    rewrite Z.pow_succ_r by lia.
    replace (Zpos (digits2_pos p)) with (Z.succ (Zpos (digits2_pos p) - 1)) at 1 by lia.
    rewrite Z.pow_succ_r by lia. lia.
  - rewrite Pos2Z.inj_succ. replace (Z.succ (Zpos (digits2_pos p)) - 1) with (Zpos (digits2_pos p)) by lia.
    rewrite Z.pow_succ_r by lia.
    replace (Zpos (digits2_pos p)) with (Z.succ (Zpos (digits2_pos p) - 1)) at 1 by lia.
    rewrite Z.pow_succ_r by lia. lia.
  - cbn. lia.
Qed.

Lemma iter_xO_spec (p k : positive) :
  digits2_pos (Pos.iter xO p k) = (digits2_pos p + k)%positive /\
  Zpos (Pos.iter xO p k) = Zpos p * 2 ^ Zpos k.
Proof.
  induction k as [|k [IHd IHv]] using Pos.peano_ind.
  - cbn [Pos.iter digits2_pos]. split; [lia|]. lia.
  - rewrite Pos.iter_succ. cbn [digits2_pos]. rewrite IHd. split; [lia|].
    rewrite Pos2Z.inj_xO, IHv, Pos2Z.inj_succ, Z.pow_succ_r by lia. lia.
Qed.

Section Exact.
Variables prec emax : Z.
Hypothesis Hprec : 0 < prec.
Hypothesis Hemax : prec <= emax.
Hypothesis Hemax2 : 2 <= emax.

Lemma binary_round_aux_exact (s : bool) (m : positive) (e : Z) :
  Zpos (digits2_pos m) = prec -> 3 - emax - prec <= e <= emax - prec ->
  binary_round_aux prec emax s (Zpos m) e loc_Exact = S754_finite s m e.
Proof.
  intros Hd He. unfold binary_round_aux, shr_fexp, fexp, emin.
  cbn [Zdigits2 shr_record_of_loc]. rewrite Hd.
  replace (IntDef.Z.max (prec + e - prec) (3 - emax - prec) - e) with 0
    by (change IntDef.Z.max with Z.max; lia).
  cbn [shr shr_m loc_of_shr_record round_nearest_even Zdigits2 shr_record_of_loc].
  rewrite Hd.
  replace (IntDef.Z.max (prec + e - prec) (3 - emax - prec) - e) with 0
    by (change IntDef.Z.max with Z.max; lia).
  cbn [shr shr_m].
  replace (e <=? emax - prec) with true by (symmetry; apply Z.leb_le; lia).
  reflexivity.
Qed.

Lemma binary_round_small (s : bool) (p : positive) :
  Zpos p < 2 ^ prec ->
  exists (m : positive) (e : Z),
    binary_round prec emax s p 0 = S754_finite s m e /\
    Zpos (digits2_pos m) = prec /\ - prec < e <= 0 /\ Zpos m = Zpos p * 2 ^ (- e).
Proof.
  intros Hp.
  pose proof (digits2_pos_bounds p) as [Hlo Hhi].
  assert (Hd : Zpos (digits2_pos p) <= prec).
  { destruct (Z_le_gt_dec (Zpos (digits2_pos p)) prec) as [|Hgt]; [assumption|].
    assert (2 ^ prec <= 2 ^ (Zpos (digits2_pos p) - 1)) by (apply Z.pow_le_mono_r; lia). lia. }
  unfold binary_round, shl_align, fexp, emin.
  replace (IntDef.Z.max (Zpos (digits2_pos p) + 0 - prec) (3 - emax - prec) - 0)
    with (Zpos (digits2_pos p) - prec) by (change IntDef.Z.max with Z.max; lia).
  replace (IntDef.Z.max (Zpos (digits2_pos p) + 0 - prec) (3 - emax - prec))
    with (Zpos (digits2_pos p) - prec) by (change IntDef.Z.max with Z.max; lia).
  destruct (Zpos (digits2_pos p) - prec) as [|q|q] eqn:Hq.
  - exists p, 0. rewrite binary_round_aux_exact by lia.
    repeat split; try lia.
  - lia.
  - destruct (iter_xO_spec p q) as [Hdq Hvq].
    exists (Pos.iter xO p q), (Zneg q).
    rewrite binary_round_aux_exact by (rewrite ?Hdq; lia).
    repeat split; try lia.
    rewrite Hvq. reflexivity.
Qed.
End Exact.

(** [SpecFloat] computes with the core [Z.max]. *)
Ltac fold_max := change IntDef.Z.max with Z.max.

(** Multiplying a normal number by a power of two whose mantissa is
    [2^(prec-1)] shifts the product back by [prec - 1] bits, exactly. *)
Ltac exact_mul_pow2 Hd shift :=
  rewrite Pos.mul_comm, xorb_false_r;
  unfold binary_round_aux, shr_fexp;
  cbv [Pos.mul]; cbn [Zdigits2 digits2_pos]; rewrite Hd; cbv [Pos.succ];
  unfold fexp, emin;
  match goal with
  | |- context [shr _ ?e (IntDef.Z.max ?a ?b - ?e)] =>
      replace (IntDef.Z.max a b - e) with shift by (fold_max; lia)
  end;
  cbn [shr shr_record_of_loc SpecFloat.iter_pos shr_1 orb shr_m loc_of_shr_record
       round_nearest_even Zdigits2];
  rewrite Hd;
  match goal with
  | |- context [shr _ ?e (IntDef.Z.max ?a ?b - ?e)] =>
      replace (IntDef.Z.max a b - e) with 0 by (fold_max; lia)
  end;
  cbn [shr shr_m];
  match goal with
  | |- context [?a <=? ?b] =>
      replace (a <=? b) with true by (symmetry; apply Z.leb_le; lia)
  end;
  f_equal; lia.

Lemma f64_mul_2 (s : bool) (m : positive) (e : Z) :
  digits2_pos m = 53%positive -> -100 <= e <= 100 ->
  f64_mul (S754_finite s m e) f64_2_0 = S754_finite s m (e + 1).
Proof.
  intros Hd He. unfold f64_mul, f64_2_0, SFmul. exact_mul_pow2 Hd 52.
Qed.

Lemma f64_mul_0_5 (s : bool) (m : positive) (e : Z) :
  digits2_pos m = 53%positive -> -100 <= e <= 100 ->
  f64_mul (S754_finite s m e) f64_0_5 = S754_finite s m (e - 1).
Proof.
  intros Hd He. unfold f64_mul, f64_0_5, SFmul. exact_mul_pow2 Hd 52.
Qed.

Lemma f32_mul_2 (s : bool) (m : positive) (e : Z) :
  digits2_pos m = 24%positive -> -100 <= e <= 100 ->
  f32_mul (S754_finite s m e) f32_2_0 = S754_finite s m (e + 1).
Proof.
  intros Hd He. unfold f32_mul, f32_2_0, SFmul. exact_mul_pow2 Hd 23.
Qed.

Lemma f32_mul_0_5 (s : bool) (m : positive) (e : Z) :
  digits2_pos m = 24%positive -> -100 <= e <= 100 ->
  f32_mul (S754_finite s m e) f32_0_5 = S754_finite s m (e - 1).
Proof.
  intros Hd He. unfold f32_mul, f32_0_5, SFmul. exact_mul_pow2 Hd 23.
Qed.

Lemma SFtrunc_scaled (s : bool) (m : positive) (e P j k : Z) :
  Zpos m = P * 2 ^ j -> 0 <= j -> 0 <= k -> e = k - j ->
  SFtrunc (S754_finite s m e) = Some (cond_Zopp s (P * 2 ^ k)).
Proof.
  intros Hm Hj Hk He. cbn [SFtrunc]. do 2 f_equal.
  destruct e as [|p|p].
  - replace k with j by lia. exact Hm.
  - rewrite Z.shiftl_mul_pow2, Hm by lia.
    replace k with (j + Zpos p) by lia. rewrite Z.pow_add_r by lia. lia.
  - rewrite Z.shiftr_div_pow2, Hm by lia.
    replace j with (k + Zpos p) by lia. rewrite Z.pow_add_r by lia.
    rewrite Z.mul_assoc. apply Z.div_mul. apply Z.pow_nonzero; lia.
Qed.

Lemma cond_Zopp_abs (n : Z) : cond_Zopp (n <? 0) (Z.abs n) = n.
Proof. destruct n; reflexivity. Qed.

Lemma cond_Zopp_abs_mul (n c : Z) :
  cond_Zopp (n <? 0) (Z.abs n * c) = n * c.
Proof. destruct n; cbn [Z.ltb Z.compare Z.abs cond_Zopp]; lia. Qed.

Section ExactScaling.

Variable prec emax : Z.
Variable mul : spec_float -> spec_float -> spec_float.
Variables two half : spec_float.

Hypothesis prec_range : 0 < prec <= 64.
Hypothesis emax_range : prec <= emax /\ 2 <= emax.
Hypothesis mul_two : forall s m e,
  Zpos (digits2_pos m) = prec -> -100 <= e <= 100 ->
  mul (S754_finite s m e) two = S754_finite s m (e + 1).
Hypothesis mul_half : forall s m e,
  Zpos (digits2_pos m) = prec -> -100 <= e <= 100 ->
  mul (S754_finite s m e) half = S754_finite s m (e - 1).
Hypothesis mul_zero_two : forall s, mul (S754_zero s) two = S754_zero s.
Hypothesis mul_zero_half : forall s, mul (S754_zero s) half = S754_zero s.

Lemma iter_mul_two (s : bool) (m : positive) (e : Z) (k : nat) :
  Zpos (digits2_pos m) = prec -> -100 <= e -> e + Z.of_nat k <= 100 ->
  Nat.iter k (fun f => mul f two) (S754_finite s m e) = S754_finite s m (e + Z.of_nat k).
Proof.
  intros Hd. induction k as [|k IH]; intros Hlo Hhi.
  - cbn. f_equal. lia.
  - rewrite Nat.iter_succ, IH, mul_two by lia. f_equal. lia.
Qed.

Lemma iter_mul_half (s : bool) (m : positive) (e : Z) (k : nat) :
  Zpos (digits2_pos m) = prec -> e <= 100 -> -100 <= e - Z.of_nat k ->
  Nat.iter k (fun f => mul f half) (S754_finite s m e) = S754_finite s m (e - Z.of_nat k).
Proof.
  intros Hd. induction k as [|k IH]; intros Hhi Hlo.
  - cbn. f_equal. lia.
  - rewrite Nat.iter_succ, IH, mul_half by lia. f_equal. lia.
Qed.

Lemma iter_mul_zero (s : bool) (c : spec_float) (k : nat) :
  mul (S754_zero s) c = S754_zero s ->
  Nat.iter k (fun f => mul f c) (S754_zero s) = S754_zero s.
Proof. intros Hc. induction k as [|k IH]; [reflexivity|]. now rewrite Nat.iter_succ, IH. Qed.

(** The conversion of an integer that fits the mantissa is exact. *)
Lemma binary_normalize_small (n : Z) :
  n <> 0 -> Z.abs n < 2 ^ prec ->
  exists (m : positive) (e : Z),
    binary_normalize prec emax n 0 false = S754_finite (n <? 0) m e /\
    Zpos (digits2_pos m) = prec /\ - prec < e <= 0 /\ Zpos m = Z.abs n * 2 ^ (- e).
Proof.
  intros Hn Habs. destruct n as [|p|p]; [contradiction| |];
    apply binary_round_small; tauto || lia.
Qed.

(** Scaling an integer up by [2^k]. *)
Lemma scale_up_exact (n : Z) (k : nat) :
  Z.of_nat k < 30 -> Z.abs n < 2 ^ prec -> in_int (n * 2 ^ Z.of_nat k) = true ->
  cast_int (Nat.iter k (fun f => mul f two) (binary_normalize prec emax n 0 false))
  = Some (n * 2 ^ Z.of_nat k).
Proof.
  intros Hk Habs Hint.
  destruct (Z.eq_dec n 0) as [->|Hn].
  - cbn [binary_normalize]. rewrite iter_mul_zero by apply mul_zero_two. reflexivity.
  - destruct (binary_normalize_small n Hn Habs) as (m & e & -> & Hd & He & Hm).
    rewrite iter_mul_two by lia. unfold cast_int.
    rewrite (SFtrunc_scaled _ m _ (Z.abs n) (- e) (Z.of_nat k) Hm) by lia.
    assert (Hv : cond_Zopp (n <? 0) (Z.abs n * 2 ^ Z.of_nat k) = n * 2 ^ Z.of_nat k).
    { apply cond_Zopp_abs_mul. }
    rewrite Hv, Hint. reflexivity.
Qed.

(** Scaling a multiple of [2^k] down by [2^k]. *)
Lemma scale_down_exact (n : Z) (k : nat) :
  Z.of_nat k < 30 -> Z.abs (n * 2 ^ Z.of_nat k) < 2 ^ prec ->
  in_int (n * 2 ^ Z.of_nat k) = true ->
  cast_int (Nat.iter k (fun f => mul f half)
              (binary_normalize prec emax (n * 2 ^ Z.of_nat k) 0 false))
  = Some n.
Proof.
  intros Hk Habs Hint.
  assert (Hpow : 0 < 2 ^ Z.of_nat k) by (apply Z.pow_pos_nonneg; lia).
  destruct (Z.eq_dec n 0) as [->|Hn].
  - cbn [Z.mul binary_normalize]. rewrite iter_mul_zero by apply mul_zero_half. reflexivity.
  - assert (Hnk : n * 2 ^ Z.of_nat k <> 0) by nia.
    destruct (binary_normalize_small _ Hnk Habs) as (m & e & -> & Hd & He & Hm).
    rewrite iter_mul_half by lia. unfold cast_int.
    rewrite (SFtrunc_scaled _ m _ (Z.abs n) (Z.of_nat k - e) 0).
    + assert (Hs : (n * 2 ^ Z.of_nat k <? 0) = (n <? 0)).
      { destruct (Z.ltb_spec n 0), (Z.ltb_spec (n * 2 ^ Z.of_nat k) 0); auto; nia. }
      rewrite Hs, Z.mul_1_r, cond_Zopp_abs.
      replace (in_int n) with true; [reflexivity|].
      symmetry. unfold in_int, INT_MIN, INT_MAX in *.
      apply andb_true_iff in Hint as [H1 H2]. apply Z.leb_le in H1, H2.
      apply andb_true_iff. split; apply Z.leb_le; nia.
    + rewrite Hm, Z.abs_mul, (Z.abs_eq (2 ^ Z.of_nat k)) by lia.
      rewrite <- Z.mul_assoc, <- Z.pow_add_r by lia. do 2 f_equal; lia.
    + lia.
    + lia.
    + lia.
Qed.

End ExactScaling.

Lemma double_to_fixedpoint_up (v : spec_float) (k : nat) :
  double_to_fixedpoint v (- Z.of_nat k) = cast_int (Nat.iter k (fun d => f64_mul d f64_2_0) v).
Proof.
  unfold double_to_fixedpoint. rewrite while_inc_lt0_iter, while_dec_gt0_iter.
  destruct (Z.ltb_spec (- Z.of_nat k) 0).
  - now replace (Z.to_nat (- - Z.of_nat k)) with k by lia.
  - now replace k with 0%nat by lia.
Qed.

Lemma double_to_fixedpoint_down (v : spec_float) (k : nat) :
  double_to_fixedpoint v (Z.of_nat k) = cast_int (Nat.iter k (fun d => f64_mul d f64_0_5) v).
Proof.
  unfold double_to_fixedpoint. rewrite while_dec_gt0_iter.
  destruct (Z.ltb_spec (Z.of_nat k) 0); [lia|]. now rewrite Nat2Z.id.
Qed.

Lemma float_to_fixedpoint_up (v : spec_float) (k : nat) :
  float_to_fixedpoint v (- Z.of_nat k) = cast_int (Nat.iter k (fun f => f32_mul f f32_2_0) v).
Proof.
  unfold float_to_fixedpoint. rewrite while_inc_lt0_iter, while_dec_gt0_iter.
  destruct (Z.ltb_spec (- Z.of_nat k) 0).
  - now replace (Z.to_nat (- - Z.of_nat k)) with k by lia.
  - now replace k with 0%nat by lia.
Qed.

Lemma float_to_fixedpoint_down (v : spec_float) (k : nat) :
  float_to_fixedpoint v (Z.of_nat k) = cast_int (Nat.iter k (fun f => f32_mul f f32_0_5) v).
Proof.
  unfold float_to_fixedpoint. rewrite while_dec_gt0_iter.
  destruct (Z.ltb_spec (Z.of_nat k) 0); [lia|]. now rewrite Nat2Z.id.
Qed.

Lemma in_int_iff (z : Z) : in_int z = true <-> INT_MIN <= z <= INT_MAX.
Proof. unfold in_int. rewrite andb_true_iff, !Z.leb_le. tauto. Qed.

Lemma abs_le_mul_pow2 (n k : Z) : 0 <= k -> Z.abs n <= Z.abs (n * 2 ^ k).
Proof.
  intros Hk. assert (0 < 2 ^ k) by (apply Z.pow_pos_nonneg; lia).
  rewrite Z.abs_mul, (Z.abs_eq (2 ^ k)) by lia. nia.
Qed.

Lemma round_trip64_exact (n : Z) (k : nat) :
  Z.of_nat k < 30 -> in_int (n * 2 ^ Z.of_nat k) = true ->
  round_trip64 (f64_of_Z n) (- Z.of_nat k) = Some n /\
  round_trip64 (f64_of_Z (n * 2 ^ Z.of_nat k)) (Z.of_nat k) = Some (n * 2 ^ Z.of_nat k).
Proof.
  intros Hk Hint.
  pose proof (proj1 (in_int_iff _) Hint) as Hr. unfold INT_MIN, INT_MAX in Hr.
  pose proof (abs_le_mul_pow2 n (Z.of_nat k) ltac:(lia)) as Hle.
  assert (Hbig : Z.abs (n * 2 ^ Z.of_nat k) < 2 ^ 53) by lia.
  assert (Hup : double_to_fixedpoint (f64_of_Z n) (- Z.of_nat k) = Some (n * 2 ^ Z.of_nat k)).
  { rewrite double_to_fixedpoint_up.
    apply (scale_up_exact 53 1024 f64_mul f64_2_0); try lia; try assumption.
    - intros s m e Hd He. apply f64_mul_2; [congruence|lia].
    - intros s. unfold f64_mul, f64_2_0. cbn. now rewrite xorb_false_r. }
  assert (Hdown : double_to_fixedpoint (f64_of_Z (n * 2 ^ Z.of_nat k)) (Z.of_nat k) = Some n).
  { rewrite double_to_fixedpoint_down.
    apply (scale_down_exact 53 1024 f64_mul f64_0_5); try lia; try assumption.
    - intros s m e Hd He. apply f64_mul_0_5; [congruence|lia].
    - intros s. unfold f64_mul, f64_0_5. cbn. now rewrite xorb_false_r. }
  unfold round_trip64. rewrite Hup, Hdown, Z.opp_involutive. auto.
Qed.

Lemma round_trip32_exact (n : Z) (k : nat) :
  Z.of_nat k < 30 -> in_int (n * 2 ^ Z.of_nat k) = true ->
  Z.abs (n * 2 ^ Z.of_nat k) < 2 ^ 24 ->
  round_trip32 (f32_of_Z n) (- Z.of_nat k) = Some n /\
  round_trip32 (f32_of_Z (n * 2 ^ Z.of_nat k)) (Z.of_nat k) = Some (n * 2 ^ Z.of_nat k).
Proof.
  intros Hk Hint Hbig.
  pose proof (abs_le_mul_pow2 n (Z.of_nat k) ltac:(lia)) as Hle.
  assert (Hup : float_to_fixedpoint (f32_of_Z n) (- Z.of_nat k) = Some (n * 2 ^ Z.of_nat k)).
  { rewrite float_to_fixedpoint_up.
    apply (scale_up_exact 24 128 f32_mul f32_2_0); try lia; try assumption.
    - intros s m e Hd He. apply f32_mul_2; [congruence|lia].
    - intros s. unfold f32_mul, f32_2_0. cbn. now rewrite xorb_false_r. }
  assert (Hdown : float_to_fixedpoint (f32_of_Z (n * 2 ^ Z.of_nat k)) (Z.of_nat k) = Some n).
  { rewrite float_to_fixedpoint_down.
    apply (scale_down_exact 24 128 f32_mul f32_0_5); try lia; try assumption.
    - intros s m e Hd He. apply f32_mul_0_5; [congruence|lia].
    - intros s. unfold f32_mul, f32_0_5. cbn. now rewrite xorb_false_r. }
  unfold round_trip32. rewrite Hup, Hdown, Z.opp_involutive. auto.
Qed.

(** C9, amended.  The helpers return an [int], so the round trip can
    only give back an integer.  For every scale factor of magnitude
    [k < 30] and every integer [n] such that [n * 2^k] fits [int], the
    64-bit round trip is exact in both directions: scaling [n] up by
    [2^k] and back returns [n], and scaling [n * 2^k] down by [2^k] and
    back returns [n * 2^k].  The same holds of the 32-bit round trip when
    [|n * 2^k| < 2^24], so that the conversions to [float] are exact. *)
Theorem C9_round_trip_exact (n k : Z) :
  0 <= k < 30 -> INT_MIN <= n * 2 ^ k <= INT_MAX ->
  (round_trip64 (f64_of_Z n) (- k) = Some n /\
   round_trip64 (f64_of_Z (n * 2 ^ k)) k = Some (n * 2 ^ k)) /\
  (Z.abs (n * 2 ^ k) < 2 ^ 24 ->
   round_trip32 (f32_of_Z n) (- k) = Some n /\
   round_trip32 (f32_of_Z (n * 2 ^ k)) k = Some (n * 2 ^ k)).
Proof.
  intros Hk Hr. apply in_int_iff in Hr.
  rewrite <- (Z2Nat.id k) in * by lia. split.
  - apply round_trip64_exact; [lia|assumption].
  - intros Hbig. apply round_trip32_exact; [lia|assumption|assumption].
Qed.

Lemma not_approximates_zero (tol : Q) (v : spec_float) (x : Q) :
  (tol < 1)%Q -> SF2Q v = Some x -> (x == 1)%Q -> ~ approximates tol (Some 0) v.
Proof.
  intros Htol Hv Hx. unfold approximates. rewrite Hv.
  rewrite Hx. intros H. apply (Qlt_not_le _ _ Htol).
  revert H. unfold Qabs, Qminus, Qplus, Qmult, Qle; cbn. lia.
Qed.

(** C9 as stated fails: scale(1.0, 1) is 0, so the round trip of 1.0 with
    scale factor 1 returns 0, which no relative tolerance below 1
    accepts as an approximation of 1.0 (in either variant). *)
Lemma C9_round_trip_counterexample :
  ~ (exists tol : Q, (tol < 1)%Q /\
       forall (sf : Z) (v : spec_float), Z.abs sf < 30 ->
         approximates tol (round_trip32 v sf) v) /\
  ~ (exists tol : Q, (tol < 1)%Q /\
       forall (sf : Z) (v : spec_float), Z.abs sf < 30 ->
         approximates tol (round_trip64 v sf) v).
Proof.
  split; intros (tol & Htol & H).
  - specialize (H 1 f32_1_0 ltac:(lia)).
    replace (round_trip32 f32_1_0 1) with (Some 0) in H by (vm_compute; reflexivity).
    revert H. eapply not_approximates_zero; [exact Htol|reflexivity|reflexivity].
  - specialize (H 1 f64_1_0 ltac:(lia)).
    replace (round_trip64 f64_1_0 1) with (Some 0) in H by (vm_compute; reflexivity).
    revert H. eapply not_approximates_zero; [exact Htol|reflexivity|reflexivity].
Qed.

(** *** The scaling helpers on normal numbers, on opposite inputs and on
    special values *)

Lemma f64_mul_2_normal (s : bool) (m : positive) (e : Z) :
  digits2_pos m = 53%positive -> -1074 <= e <= 970 ->
  f64_mul (S754_finite s m e) f64_2_0 = S754_finite s m (e + 1).
Proof.
  intros Hd He. unfold f64_mul, f64_2_0, SFmul. exact_mul_pow2 Hd 52.
Qed.

Lemma f64_mul_0_5_normal (s : bool) (m : positive) (e : Z) :
  digits2_pos m = 53%positive -> -1073 <= e <= 971 ->
  f64_mul (S754_finite s m e) f64_0_5 = S754_finite s m (e - 1).
Proof.
  intros Hd He. unfold f64_mul, f64_0_5, SFmul. exact_mul_pow2 Hd 52.
Qed.

Lemma f32_mul_2_normal (s : bool) (m : positive) (e : Z) :
  digits2_pos m = 24%positive -> -149 <= e <= 103 ->
  f32_mul (S754_finite s m e) f32_2_0 = S754_finite s m (e + 1).
Proof.
  intros Hd He. unfold f32_mul, f32_2_0, SFmul. exact_mul_pow2 Hd 23.
Qed.

Lemma f32_mul_0_5_normal (s : bool) (m : positive) (e : Z) :
  digits2_pos m = 24%positive -> -148 <= e <= 104 ->
  f32_mul (S754_finite s m e) f32_0_5 = S754_finite s m (e - 1).
Proof.
  intros Hd He. unfold f32_mul, f32_0_5, SFmul. exact_mul_pow2 Hd 23.
Qed.

(** Both loops of a helper as one iteration. *)
Lemma float_to_fixedpoint_iter (v : spec_float) (sf : Z) :
  float_to_fixedpoint v sf =
  cast_int (Nat.iter (Z.abs_nat sf)
              (fun f => f32_mul f (if sf <? 0 then f32_2_0 else f32_0_5)) v).
Proof.
  unfold float_to_fixedpoint. rewrite while_inc_lt0_iter, while_dec_gt0_iter.
  destruct (Z.ltb_spec sf 0).
  - now replace (Z.to_nat (- sf)) with (Z.abs_nat sf) by lia.
  - now replace (Z.to_nat sf) with (Z.abs_nat sf) by lia.
Qed.

Lemma double_to_fixedpoint_iter (v : spec_float) (sf : Z) :
  double_to_fixedpoint v sf =
  cast_int (Nat.iter (Z.abs_nat sf)
              (fun d => f64_mul d (if sf <? 0 then f64_2_0 else f64_0_5)) v).
Proof.
  unfold double_to_fixedpoint. rewrite while_inc_lt0_iter, while_dec_gt0_iter.
  destruct (Z.ltb_spec sf 0).
  - now replace (Z.to_nat (- sf)) with (Z.abs_nat sf) by lia.
  - now replace (Z.to_nat sf) with (Z.abs_nat sf) by lia.
Qed.

Section NormalScaling.

Variable mul : spec_float -> spec_float -> spec_float.
Variables two half : spec_float.
Variable digits : positive.
Variables lo hi : Z.

Hypothesis mul_two_normal : forall s m e,
  digits2_pos m = digits -> lo <= e -> e + 1 <= hi ->
  mul (S754_finite s m e) two = S754_finite s m (e + 1).
Hypothesis mul_half_normal : forall s m e,
  digits2_pos m = digits -> lo <= e - 1 -> e <= hi ->
  mul (S754_finite s m e) half = S754_finite s m (e - 1).

Lemma iter_two_normal (s : bool) (m : positive) (e : Z) (k : nat) :
  digits2_pos m = digits -> lo <= e -> e + Z.of_nat k <= hi ->
  Nat.iter k (fun f => mul f two) (S754_finite s m e) = S754_finite s m (e + Z.of_nat k).
Proof.
  intros Hd. induction k as [|k IH]; intros Hlo Hhi.
  - cbn. f_equal. lia.
  - rewrite Nat.iter_succ, IH, mul_two_normal by lia. f_equal. lia.
Qed.

Lemma iter_half_normal (s : bool) (m : positive) (e : Z) (k : nat) :
  digits2_pos m = digits -> e <= hi -> lo <= e - Z.of_nat k ->
  Nat.iter k (fun f => mul f half) (S754_finite s m e) = S754_finite s m (e - Z.of_nat k).
Proof.
  intros Hd. induction k as [|k IH]; intros Hhi Hlo.
  - cbn. f_equal. lia.
  - rewrite Nat.iter_succ, IH, mul_half_normal by lia. f_equal. lia.
Qed.

(** On a normal number the loops only move the exponent. *)
Lemma iter_scale_normal (s : bool) (m : positive) (e sf : Z) :
  digits2_pos m = digits -> lo <= e <= hi -> lo <= e - sf <= hi ->
  Nat.iter (Z.abs_nat sf) (fun f => mul f (if sf <? 0 then two else half))
    (S754_finite s m e)
  = S754_finite s m (e - sf).
Proof.
  intros Hd He Hs. destruct (Z.ltb_spec sf 0).
  - rewrite iter_two_normal by lia. f_equal. lia.
  - rewrite iter_half_normal by lia. f_equal. lia.
Qed.

End NormalScaling.

(** X1. On a normal input [m * 2^e] (a mantissa of full width) whose
    exponent stays in the range of the format after scaling, the helper
    returns the cast of [m * 2^(e - sf)]: the loop of multiplications
    never rounds the mantissa. *)
Theorem scale_normal_exact (s : bool) (m : positive) (e sf : Z) :
  (digits2_pos m = 24%positive -> -149 <= e <= 104 -> -149 <= e - sf <= 104 ->
   float_to_fixedpoint (S754_finite s m e) sf = cast_int (S754_finite s m (e - sf))) /\
  (digits2_pos m = 53%positive -> -1074 <= e <= 971 -> -1074 <= e - sf <= 971 ->
   double_to_fixedpoint (S754_finite s m e) sf = cast_int (S754_finite s m (e - sf))).
Proof.
  split; intros Hd He Hs.
  - rewrite float_to_fixedpoint_iter. f_equal.
    apply (iter_scale_normal f32_mul f32_2_0 f32_0_5 24%positive (-149) 104);
      try assumption; intros; [apply f32_mul_2_normal | apply f32_mul_0_5_normal];
      (assumption || lia).
  - rewrite double_to_fixedpoint_iter. f_equal.
    apply (iter_scale_normal f64_mul f64_2_0 f64_0_5 53%positive (-1074) 971);
      try assumption; intros; [apply f64_mul_2_normal | apply f64_mul_0_5_normal];
      (assumption || lia).
Qed.

Lemma binary_round_aux_opp (prec emax : Z) (s : bool) (m e : Z) (l : location) :
  SFopp (binary_round_aux prec emax s m e l) = binary_round_aux prec emax (negb s) m e l.
Proof.
  unfold binary_round_aux.
  destruct (shr_fexp prec emax m e l) as [mrs' e'].
  destruct (shr_fexp prec emax _ e' loc_Exact) as [mrs'' e''].
  destruct (shr_m mrs''); [reflexivity| |reflexivity].
  destruct (e'' <=? emax - prec); reflexivity.
Qed.

Lemma SFmul_opp_l (prec emax : Z) (x y : spec_float) :
  SFmul prec emax (SFopp x) y = SFopp (SFmul prec emax x y).
Proof.
  destruct x as [sx|sx| |sx mx ex], y as [sy|sy| |sy my ey]; cbn [SFmul SFopp];
    rewrite ?binary_round_aux_opp; try reflexivity;
    destruct sx, sy; reflexivity.
Qed.

Lemma iter_mul_opp (prec emax : Z) (c v : spec_float) (k : nat) :
  Nat.iter k (fun f => SFmul prec emax f c) (SFopp v)
  = SFopp (Nat.iter k (fun f => SFmul prec emax f c) v).
Proof.
  induction k as [|k IH]; [reflexivity|].
  now rewrite !Nat.iter_succ, IH, SFmul_opp_l.
Qed.

Lemma cast_int_opp (f : spec_float) (z : Z) :
  cast_int f = Some z -> z <> INT_MIN -> cast_int (SFopp f) = Some (- z).
Proof.
  unfold cast_int. intros Hc Hz.
  assert (Ht : SFtrunc (SFopp f) = option_map Z.opp (SFtrunc f)).
  { destruct f as [s|s| |s m e]; cbn [SFtrunc SFopp option_map]; try reflexivity.
    f_equal. destruct s; cbn [negb cond_Zopp]; lia. }
  rewrite Ht. destruct (SFtrunc f) as [t|]; [|discriminate]. cbn [option_map].
  destruct (in_int t) eqn:Hin; [|discriminate]. injection Hc as ->.
  replace (in_int (- z)) with true; [reflexivity|].
  symmetry. apply in_int_iff. apply in_int_iff in Hin.
  unfold INT_MIN, INT_MAX in *. lia.
Qed.

(** X2. The helpers are odd functions: when scale(v, sf) is an integer
    other than [INT_MIN], scale(-v, sf) is its opposite. *)
Theorem scale_opp (v : spec_float) (sf z : Z) :
  z <> INT_MIN ->
  (float_to_fixedpoint v sf = Some z -> float_to_fixedpoint (SFopp v) sf = Some (- z)) /\
  (double_to_fixedpoint v sf = Some z -> double_to_fixedpoint (SFopp v) sf = Some (- z)).
Proof.
  intros Hz. split; intros H.
  - rewrite float_to_fixedpoint_iter in *. unfold f32_mul in *.
    rewrite iter_mul_opp. now apply cast_int_opp.
  - rewrite double_to_fixedpoint_iter in *. unfold f64_mul in *.
    rewrite iter_mul_opp. now apply cast_int_opp.
Qed.

Lemma iter_fixed {A : Type} (body : A -> A) (x : A) (k : nat) :
  body x = x -> Nat.iter k body x = x.
Proof. intros Hx. induction k as [|k IH]; [reflexivity|]. now rewrite Nat.iter_succ, IH. Qed.

(** X3. Special values: a zero of either sign scales to 0 for every
    scale factor, and for a NaN or an infinity the cast is undefined for
    every scale factor. *)
Theorem scale_special_values (sf : Z) (s : bool) :
  (float_to_fixedpoint (S754_zero s) sf = Some 0 /\
   double_to_fixedpoint (S754_zero s) sf = Some 0) /\
  (float_to_fixedpoint S754_nan sf = None /\
   double_to_fixedpoint S754_nan sf = None) /\
  (float_to_fixedpoint (S754_infinity s) sf = None /\
   double_to_fixedpoint (S754_infinity s) sf = None).
Proof.
  rewrite !float_to_fixedpoint_iter, !double_to_fixedpoint_iter.
  repeat split; rewrite iter_fixed; try reflexivity;
    destruct (sf <? 0), s; reflexivity.
Qed.

Lemma cast_int_small (s : bool) (m : positive) (e : Z) :
  Zpos (digits2_pos m) + e <= 31 ->
  exists z : Z, cast_int (S754_finite s m e) = Some z /\ Z.abs z < 2 ^ 31.
Proof.
  intros He. pose proof (digits2_pos_bounds m) as [_ Hm].
  set (d := Zpos (digits2_pos m)) in *. assert (Hd : 0 < d) by (subst d; lia).
  assert (Ha : exists a : Z,
             SFtrunc (S754_finite s m e) = Some (cond_Zopp s a) /\ 0 <= a < 2 ^ 31).
  { cbn [SFtrunc]. destruct e as [|p|p]; eexists; (split; [reflexivity|]).
    - assert (2 ^ d <= 2 ^ 31) by (apply Z.pow_le_mono_r; lia). lia.
    - rewrite Z.shiftl_mul_pow2 by lia.
      assert (2 ^ d * 2 ^ Zpos p <= 2 ^ 31)
        by (rewrite <- Z.pow_add_r by lia; apply Z.pow_le_mono_r; lia).
      assert (0 < 2 ^ Zpos p) by (apply Z.pow_pos_nonneg; lia). nia.
    - rewrite Z.shiftr_div_pow2 by lia.
      assert (0 < 2 ^ Zpos p) by (apply Z.pow_pos_nonneg; lia).
      split; [apply Z.div_pos; lia|].
      apply Z.div_lt_upper_bound; [lia|].
      assert (2 ^ d <= 2 ^ Zpos p * 2 ^ 31)
        by (rewrite <- Z.pow_add_r by lia; apply Z.pow_le_mono_r; lia).
      lia. }
  destruct Ha as (a & Ht & Hrange). unfold cast_int. rewrite Ht.
  exists (cond_Zopp s a).
  assert (Habs : Z.abs (cond_Zopp s a) < 2 ^ 31) by (destruct s; cbn [cond_Zopp]; lia).
  replace (in_int (cond_Zopp s a)) with true; [auto|].
  symmetry. apply in_int_iff. unfold INT_MIN, INT_MAX. lia.
Qed.

(** X17. When the cast is defined: for a normal input [m * 2^e] whose
    scaled value [m * 2^(e - sf)] is below [2^31] in magnitude (and whose
    exponent stays in the range of the format), the helper returns an
    integer. *)
Theorem scale_defined_below_2_31 (s : bool) (m : positive) (e sf : Z) :
  (digits2_pos m = 24%positive -> -149 <= e <= 104 -> -149 <= e - sf -> e - sf <= 7 ->
   exists z : Z, float_to_fixedpoint (S754_finite s m e) sf = Some z /\ Z.abs z < 2 ^ 31) /\
  (digits2_pos m = 53%positive -> -1074 <= e <= 971 -> -1074 <= e - sf -> e - sf <= -22 ->
   exists z : Z, double_to_fixedpoint (S754_finite s m e) sf = Some z /\ Z.abs z < 2 ^ 31).
Proof.
  split; intros Hd He Hlo Hhi.
  - rewrite float_to_fixedpoint_iter.
    rewrite (iter_scale_normal f32_mul f32_2_0 f32_0_5 24%positive (-149) 104);
      try assumption; try lia;
      [| intros; apply f32_mul_2_normal; (assumption || lia)
       | intros; apply f32_mul_0_5_normal; (assumption || lia)].
    apply cast_int_small. rewrite Hd. lia.
  - rewrite double_to_fixedpoint_iter.
    rewrite (iter_scale_normal f64_mul f64_2_0 f64_0_5 53%positive (-1074) 971);
      try assumption; try lia;
      [| intros; apply f64_mul_2_normal; (assumption || lia)
       | intros; apply f64_mul_0_5_normal; (assumption || lia)].
    apply cast_int_small. rewrite Hd. lia.
Qed.

(** ** The decoders *)

Section ParserProperties.

Context {almanac_params ephemeris_params payload : Type}.
Context {gps_h : @GpsH almanac_params ephemeris_params} {ubx_h : @UbxH payload}.

#[local] Abbreviation gps_almanac_sv := (@gps_almanac_sv almanac_params) (only parsing).
#[local] Abbreviation gps_ephemeris_sv := (@gps_ephemeris_sv ephemeris_params) (only parsing).
#[local] Abbreviation gps_assist_data :=
  (@gps_assist_data almanac_params ephemeris_params) (only parsing).
#[local] Abbreviation world := (@world almanac_params ephemeris_params) (only parsing).
#[local] Abbreviation M := (@M almanac_params ephemeris_params) (only parsing).
#[local] Abbreviation ubx_dispatch_entry :=
  (@ubx_dispatch_entry almanac_params ephemeris_params payload) (only parsing).

Lemma land_lor_r (a b : Z) : Z.land (Z.lor a b) b = b.
Proof.
  apply Z.bits_inj'. intros n _.
  rewrite Z.land_spec, Z.lor_spec.
  destruct (Z.testbit a n), (Z.testbit b n); reflexivity.
Qed.

Lemma land_lor_l (a b : Z) : Z.land a (Z.lor a b) = a.
Proof.
  apply Z.bits_inj'. intros n _.
  rewrite Z.land_spec, Z.lor_spec.
  destruct (Z.testbit a n), (Z.testbit b n); reflexivity.
Qed.

Lemma land_lor_lor (a b c : Z) : Z.land (Z.lor (Z.lor a b) c) b = b.
Proof.
  apply Z.bits_inj'. intros n _.
  rewrite Z.land_spec, !Z.lor_spec.
  destruct (Z.testbit a n), (Z.testbit b n), (Z.testbit c n); reflexivity.
Qed.

Lemma diagnostics_app (l1 l2 : list event) :
  diagnostics (l1 ++ l2) = diagnostics l1 ++ diagnostics l2.
Proof. apply List.filter_app. Qed.

(** Unfolding of the monad and of the stores, to run a decoder on a
    symbolic world. *)
Ltac run :=
  cbv [bind ret store get_gps printd printd1 fprintf_stderr time_NULL when_
       set_ud] in *; cbn [ud out clock world_of] in *.

(** C3. For the AID-ALM and AID-EPH decoders, a payload of exactly 8
    bytes leaves the accumulator unchanged, increments no satellite count
    and prints nothing; a payload whose length is neither 8 nor the size
    of the message structure leaves the accumulator unchanged and prints
    exactly one diagnostic. *)
Theorem C3_length_checks (hdr : ubx_hdr) (pl : payload) (pl_len : Z) (w : world) :
  (pl_len = 8 ->
     _ubx_msg_parse_aid_alm hdr pl pl_len w = Done tt w /\
     _ubx_msg_parse_aid_eph hdr pl pl_len w = Done tt w) /\
  (pl_len <> 8 -> pl_len <> sizeof_ubx_aid_alm ->
     _ubx_msg_parse_aid_alm hdr pl pl_len w =
       Done tt {| ud := ud w;
                  out := out w ++ [Stderr "pl_len != sizeof(struct ubx_aid_alm) (%d)\n"
                                          [ArgInt pl_len]];
                  clock := clock w |}) /\
  (pl_len <> 8 -> pl_len <> sizeof_ubx_aid_eph ->
     _ubx_msg_parse_aid_eph hdr pl pl_len w =
       Done tt {| ud := ud w;
                  out := out w ++ [Stderr "pl_len != sizeof(struct ubx_aid_eph) (%d)\n"
                                          [ArgInt pl_len]];
                  clock := clock w |}).
Proof.
  unfold _ubx_msg_parse_aid_alm, _ubx_msg_parse_aid_eph.
  split; [|split].
  - intros ->. split; reflexivity.
  - intros H8 Hsz.
    destruct (Z.eqb_spec pl_len 8); [contradiction|].
    destruct (Z.eqb_spec pl_len sizeof_ubx_aid_alm); [contradiction|]. reflexivity.
  - intros H8 Hsz.
    destruct (Z.eqb_spec pl_len 8); [contradiction|].
    destruct (Z.eqb_spec pl_len sizeof_ubx_aid_eph); [contradiction|]. reflexivity.
Qed.

(** C6. An AID-ALM message that passes the length checks and whose
    [gps_week] is 0 leaves the almanac count unchanged, sets no capability
    flag and commits no record, whatever its other fields: the whole
    accumulator is unchanged, and no diagnostic is printed. *)
Theorem C6_alm_week_zero (hdr : ubx_hdr) (pl : payload) (pl_len : Z) (w : world) :
  pl_len <> 8 -> pl_len = sizeof_ubx_aid_alm -> gps_week (as_aid_alm pl) = 0 ->
  exists w' : world,
    _ubx_msg_parse_aid_alm hdr pl pl_len w = Done tt w' /\
    ud w' = ud w /\
    alm_n_sv (almanac (ud w')) = alm_n_sv (almanac (ud w)) /\
    fields (ud w') = fields (ud w) /\
    alm_svs (almanac (ud w')) = alm_svs (almanac (ud w)) /\
    diagnostics (out w') = diagnostics (out w).
Proof.
  intros H8 Hsz Hweek. unfold _ubx_msg_parse_aid_alm.
  destruct (Z.eqb_spec pl_len 8); [contradiction|].
  destruct (Z.eqb_spec pl_len sizeof_ubx_aid_alm); [|contradiction].
  rewrite Hweek. run. eexists. split; [reflexivity|]. cbn [ud out].
  rewrite diagnostics_app, app_nil_r. repeat split; destruct w as [[] ? ?]; reflexivity.
Qed.

Lemma truthy_land_pow2 (a k : Z) :
  0 <= k -> truthy (Z.land a (2 ^ k)) = Z.testbit a k.
Proof.
  intros Hk. unfold truthy.
  destruct (Z.testbit a k) eqn:Hb.
  - destruct (Z.eqb_spec (Z.land a (2 ^ k)) 0) as [H0|]; [|reflexivity].
    apply (f_equal (fun z => Z.testbit z k)) in H0.
    rewrite Z.land_spec, Hb, Z.pow2_bits_true, Z.bits_0 in H0 by lia. discriminate.
  - replace (Z.land a (2 ^ k)) with 0; [reflexivity|].
    symmetry. apply Z.bits_inj'. intros n Hn.
    rewrite Z.land_spec, Z.bits_0, Z.pow2_bits_eqb by lia.
    destruct (Z.eqb_spec k n) as [->|]; [rewrite Hb|]; auto using andb_false_r.
Qed.

Lemma land_3_testbit (a : Z) :
  (Z.land a 3 =? 3) = Z.testbit a 0 && Z.testbit a 1.
Proof.
  destruct (Z.eqb_spec (Z.land a 3) 3) as [H3|H3].
  - pose proof (f_equal (fun z => Z.testbit z 0) H3) as H0.
    pose proof (f_equal (fun z => Z.testbit z 1) H3) as H1.
    cbv beta in H0, H1. rewrite Z.land_spec in H0, H1.
    change (Z.testbit 3 0) with true in H0. change (Z.testbit 3 1) with true in H1.
    rewrite andb_true_r in H0, H1. now rewrite H0, H1.
  - symmetry. apply not_true_iff_false. intros [H0 H1]%andb_true_iff.
    apply H3. apply Z.bits_inj'. intros n Hn.
    rewrite Z.land_spec.
    destruct (Z.eq_dec n 0) as [->|]; [now rewrite H0|].
    destruct (Z.eq_dec n 1) as [->|]; [now rewrite H1|].
    change 3 with (Z.ones 2). rewrite Z.ones_spec_high by lia. apply andb_false_r.
Qed.

(** C5. The AID-INI decoder always commits the reference time: after
    the call the REFTIME bit is set, the week number read back from the
    accumulator is the raw one, the time of week read back is the raw
    milliseconds times 1e-3 and the capture time read back is the clock.
    When the validity flags (bit 0 and bit 1) are not both set it prints a
    warning; whatever the flags, nothing else of the accumulator
    changes. *)
Theorem C5_aid_ini (hdr : ubx_hdr) (pl : payload) (pl_len : Z) (w : world) :
  exists w' : world,
    _ubx_msg_parse_aid_ini hdr pl pl_len w = Done tt w' /\
    fields (ud w') = Z.lor (fields (ud w)) GPS_FIELD_REFTIME /\
    Z.land (fields (ud w')) GPS_FIELD_REFTIME = GPS_FIELD_REFTIME /\
    wn (ref_time (ud w')) = ini_wn (as_aid_ini pl) /\
    tow (ref_time (ud w')) = f64_mul (f64_of_Z (ini_tow (as_aid_ini pl))) f64_1e_3 /\
    when (ref_time (ud w')) = clock w /\
    (ref_pos (ud w'), utc (ud w'), ionosphere (ud w'), almanac (ud w'), ephemeris (ud w')) =
      (ref_pos (ud w), utc (ud w), ionosphere (ud w), almanac (ud w), ephemeris (ud w)) /\
    diagnostics (out w') =
      diagnostics (out w) ++
      (if Z.testbit (ini_flags (as_aid_ini pl)) 0 && Z.testbit (ini_flags (as_aid_ini pl)) 1
       then []
       else [Stderr "Postion and/or time not valid (0x%lx)"
                    [ArgInt (ini_flags (as_aid_ini pl))]]).
Proof.
  unfold _ubx_msg_parse_aid_ini. run.
  destruct (Z.land (ini_flags (as_aid_ini pl)) 3 =? 3) eqn:Hfl;
    rewrite land_3_testbit in Hfl; rewrite Hfl; cbn [negb]; run;
    (eexists; split; [reflexivity|]); cbn [ud out];
    rewrite ?diagnostics_app; cbn [diagnostics List.filter is_stderr];
    rewrite ?app_nil_r;
    cbn [fields ref_pos ref_time utc ionosphere almanac ephemeris wn tow when
         set_fields set_ref_time set_wn set_tow set_when];
    repeat apply conj; try reflexivity; apply land_lor_r.
Qed.

Lemma within_bool (f : spec_float) (q eps : Q) :
  match SF2Q f with
  | Some x => Qle_bool (Qabs (x - q)) eps
  | None => false
  end = true -> within f q eps.
Proof.
  unfold within. destruct (SF2Q f); [apply Qle_bool_imp_le | discriminate].
Qed.

(** C7. For every NAV-POSLLH message the decoder sets the REFPOS bit and
    the accumulator then reads latitude = raw lat times 1e-7 and
    longitude = raw lon times 1e-7 (degrees) and altitude = raw height
    times 1e-3 (meters), in binary64, with nothing else changed and no
    diagnostic; and for a message with raw lat = 373382270,
    lon = -1220041450 and height = 30000 the accumulator after the call
    has REFPOS set and reads 37.338227, -122.004145 and 30.0 to within
    1e-9. *)
Theorem C7_nav_posllh :
  (forall (hdr : ubx_hdr) (pl : payload) (pl_len : Z) (w : world),
    exists w' : world,
      _ubx_msg_parse_nav_posllh hdr pl pl_len w = Done tt w' /\
      fields (ud w') = Z.lor (fields (ud w)) GPS_FIELD_REFPOS /\
      Z.land (fields (ud w')) GPS_FIELD_REFPOS = GPS_FIELD_REFPOS /\
      latitude (ref_pos (ud w')) =
        f64_mul (f64_of_Z (posllh_lat (as_nav_posllh pl))) f64_1e_7 /\
      longitude (ref_pos (ud w')) =
        f64_mul (f64_of_Z (posllh_lon (as_nav_posllh pl))) f64_1e_7 /\
      altitude (ref_pos (ud w')) =
        f64_mul (f64_of_Z (posllh_height (as_nav_posllh pl))) f64_1e_3 /\
      (ref_time (ud w'), utc (ud w'), ionosphere (ud w'), almanac (ud w'), ephemeris (ud w')) =
        (ref_time (ud w), utc (ud w), ionosphere (ud w), almanac (ud w), ephemeris (ud w)) /\
      diagnostics (out w') = diagnostics (out w)) /\
  (forall (hdr : ubx_hdr) (pl : payload) (pl_len : Z) (w : world),
    posllh_lat (as_nav_posllh pl) = 373382270 ->
    posllh_lon (as_nav_posllh pl) = -1220041450 ->
    posllh_height (as_nav_posllh pl) = 30000 ->
    exists w' : world,
      _ubx_msg_parse_nav_posllh hdr pl pl_len w = Done tt w' /\
      Z.land (fields (ud w')) GPS_FIELD_REFPOS = GPS_FIELD_REFPOS /\
      within (latitude (ref_pos (ud w'))) (37338227 # 1000000) (1 # 1000000000) /\
      within (longitude (ref_pos (ud w'))) (-122004145 # 1000000) (1 # 1000000000) /\
      within (altitude (ref_pos (ud w'))) 30 (1 # 1000000000)).
Proof.
  match goal with |- ?general /\ _ => assert (Hgen : general) end.
  { intros hdr pl pl_len w. unfold _ubx_msg_parse_nav_posllh. run.
    eexists; split; [reflexivity|]. cbn [ud out].
    rewrite !diagnostics_app; cbn [diagnostics List.filter is_stderr].
    rewrite !app_nil_r.
    cbn [fields ref_pos ref_time utc ionosphere almanac ephemeris
         latitude longitude altitude
         set_fields set_ref_pos set_latitude set_longitude set_altitude].
    repeat apply conj; try reflexivity. apply land_lor_r. }
  split; [exact Hgen|].
  intros hdr pl pl_len w Hlat Hlon Hheight.
  destruct (Hgen hdr pl pl_len w) as (w' & Hrun & _ & Hbit & Hla & Hlo & Hal & _).
  exists w'. split; [exact Hrun|]. split; [exact Hbit|].
  rewrite Hla, Hlo, Hal, Hlat, Hlon, Hheight.
  repeat split; apply within_bool; vm_compute; reflexivity.
Qed.

(** *** Capability flags only grow *)

Lemma grows_refl (w : world) : grows w w.
Proof. apply Z.land_diag. Qed.

Lemma grows_trans (w1 w2 w3 : world) : grows w1 w2 -> grows w2 w3 -> grows w1 w3.
Proof.
  unfold grows. intros H12 H23.
  rewrite <- H12 at 1. rewrite <- Z.land_assoc, H23. exact H12.
Qed.

Lemma monotone_ret {A : Type} (a : A) : monotone (ret a : M A).
Proof. intros w. apply grows_refl. Qed.

Lemma monotone_bind {A B : Type} (m : M A) (k : A -> M B) :
  monotone m -> (forall a, monotone (k a)) -> monotone (bind m k).
Proof.
  intros Hm Hk w. unfold bind. specialize (Hm w).
  destruct (m w) as [a w1|f w1]; cbn [world_of] in *; [|exact Hm].
  apply (grows_trans _ w1); [exact Hm | apply Hk].
Qed.

Lemma monotone_store (f : gps_assist_data -> gps_assist_data) :
  (forall g, Z.land (fields g) (fields (f g)) = fields g) -> monotone (store f).
Proof. intros Hf w. apply Hf. Qed.

Lemma monotone_get_gps : monotone (get_gps : M gps_assist_data).
Proof. intros w. apply grows_refl. Qed.

Lemma monotone_printd (fmt : string) (args : list printf_arg) : monotone (printd fmt args : M unit).
Proof. intros w. apply Z.land_diag. Qed.

Lemma monotone_printd1 (fmt : string) (args : list printf_arg) : monotone (printd1 fmt args : M unit).
Proof. intros w. apply grows_refl. Qed.

Lemma monotone_fprintf_stderr (fmt : string) (args : list printf_arg) :
  monotone (fprintf_stderr fmt args : M unit).
Proof. intros w. apply Z.land_diag. Qed.

Lemma monotone_time_NULL : monotone (time_NULL : M Z).
Proof. intros w. apply grows_refl. Qed.

Lemma monotone_defined (o : option Z) : monotone (defined o : M Z).
Proof. intros w. destruct o; apply grows_refl. Qed.

Lemma monotone_when_ (c : bool) (m : M unit) : monotone m -> monotone (when_ c m).
Proof. intros Hm. destruct c; [exact Hm | apply monotone_ret]. Qed.

Lemma monotone_store_almanac_sv (i : Z) (f : gps_almanac_sv -> gps_almanac_sv) :
  monotone (store_almanac_sv i f).
Proof.
  intros w. unfold store_almanac_sv.
  destruct ((0 <=? i) && (i <? MAX_SV)); apply Z.land_diag.
Qed.

Lemma monotone_store_ephemeris_sv (i : Z) (f : gps_ephemeris_sv -> gps_ephemeris_sv) :
  monotone (store_ephemeris_sv i f).
Proof.
  intros w. unfold store_ephemeris_sv.
  destruct ((0 <=? i) && (i <? MAX_SV)); apply Z.land_diag.
Qed.

Create HintDb mono.
#[local] Hint Resolve monotone_ret monotone_bind monotone_get_gps monotone_printd
  monotone_printd1 monotone_fprintf_stderr monotone_time_NULL monotone_defined
  monotone_when_ monotone_store_almanac_sv monotone_store_ephemeris_sv : mono.

(** A store either ors bits into [fields] or leaves [fields] alone. *)
Ltac mono_store :=
  apply monotone_store; intros ?; cbn;
  first [apply land_lor_l | apply Z.land_diag].

Ltac mono :=
  repeat first
    [ apply monotone_bind; [|intros ?]
    | apply monotone_when_
    | mono_store
    | solve [auto with mono] ].

Lemma monotone_nav_posllh (hdr : ubx_hdr) (pl : payload) (pl_len : Z) :
  monotone (_ubx_msg_parse_nav_posllh hdr pl pl_len).
Proof. unfold _ubx_msg_parse_nav_posllh. mono. Qed.

Lemma monotone_aid_ini (hdr : ubx_hdr) (pl : payload) (pl_len : Z) :
  monotone (_ubx_msg_parse_aid_ini hdr pl pl_len).
Proof. unfold _ubx_msg_parse_aid_ini. mono. Qed.

Lemma monotone_aid_hui (hdr : ubx_hdr) (pl : payload) (pl_len : Z) :
  monotone (_ubx_msg_parse_aid_hui hdr pl pl_len).
Proof. unfold _ubx_msg_parse_aid_hui. mono. Qed.

Lemma monotone_aid_alm (hdr : ubx_hdr) (pl : payload) (pl_len : Z) :
  monotone (_ubx_msg_parse_aid_alm hdr pl pl_len).
Proof.
  unfold _ubx_msg_parse_aid_alm.
  destruct (pl_len =? 8); [mono|].
  destruct (negb (pl_len =? sizeof_ubx_aid_alm)); mono.
Qed.

Lemma monotone_aid_eph (hdr : ubx_hdr) (pl : payload) (pl_len : Z) :
  monotone (_ubx_msg_parse_aid_eph hdr pl pl_len).
Proof.
  unfold _ubx_msg_parse_aid_eph.
  destruct (pl_len =? 8); [mono|].
  destruct (negb (pl_len =? sizeof_ubx_aid_eph)); mono.
Qed.

Lemma monotone_nav_timegps (hdr : ubx_hdr) (pl : payload) (pl_len : Z) :
  monotone (_ubx_msg_parse_nav_timegps hdr pl pl_len).
Proof. unfold _ubx_msg_parse_nav_timegps. mono. Qed.

(** C8. For every call of each of the six decoders of the dispatch table,
    on any input, the capability flags of the accumulator after the call
    are a superset of those before it: a decoder only ors bits into
    [fields] and never clears one. *)
Theorem C8_fields_monotone :
  length ubx_parse_dt = 6%nat /\
  Forall (fun e : ubx_dispatch_entry =>
            forall (hdr : ubx_hdr) (pl : payload) (pl_len : Z) (w : world),
              Z.land (fields (ud w)) (fields (ud (world_of (handler e hdr pl pl_len w))))
              = fields (ud w))
         ubx_parse_dt.
Proof.
  split; [reflexivity|]. unfold ubx_parse_dt.
  repeat (apply List.Forall_cons; [cbn [handler]; intros hdr pl pl_len w|]);
    [ | | | | | | apply List.Forall_nil].
  - apply monotone_nav_posllh.
  - apply monotone_aid_ini.
  - apply monotone_aid_hui.
  - apply monotone_aid_alm.
  - apply monotone_aid_eph.
  - apply monotone_nav_timegps.
Qed.

(** *** What a call depends on *)

Lemma accumulator_only_ret {A : Type} (a : A) : accumulator_only (ret a : M A).
Proof. intros w1 w2 H. cbn. now rewrite H. Qed.

Lemma accumulator_only_bind {A B : Type} (m : M A) (k : A -> M B) :
  accumulator_only m -> (forall a, accumulator_only (k a)) -> accumulator_only (bind m k).
Proof.
  intros Hm Hk w1 w2 H. unfold bind. specialize (Hm w1 w2 H).
  destruct (m w1) as [a1 v1|f1 v1], (m w2) as [a2 v2|f2 v2];
    cbn [result] in Hm; inversion Hm; subst; cbn [result]; auto.
  - apply Hk. assumption.
  - congruence.
Qed.

Lemma accumulator_only_store (f : gps_assist_data -> gps_assist_data) :
  accumulator_only (store f).
Proof. intros w1 w2 H. cbn. now rewrite H. Qed.

Lemma accumulator_only_get_gps : accumulator_only (get_gps : M gps_assist_data).
Proof. intros w1 w2 H. cbn. now rewrite H. Qed.

Lemma accumulator_only_printd (fmt : string) (args : list printf_arg) :
  accumulator_only (printd fmt args : M unit).
Proof. intros w1 w2 H. cbn. now rewrite H. Qed.

Lemma accumulator_only_fprintf_stderr (fmt : string) (args : list printf_arg) :
  accumulator_only (fprintf_stderr fmt args : M unit).
Proof. intros w1 w2 H. cbn. now rewrite H. Qed.

Lemma accumulator_only_defined (o : option Z) : accumulator_only (defined o : M Z).
Proof. intros w1 w2 H. destruct o; cbn; now rewrite H. Qed.

Lemma accumulator_only_when_ (c : bool) (m : M unit) :
  accumulator_only m -> accumulator_only (when_ c m).
Proof. intros Hm. destruct c; [exact Hm | apply accumulator_only_ret]. Qed.

Lemma accumulator_only_store_almanac_sv (i : Z) (f : gps_almanac_sv -> gps_almanac_sv) :
  accumulator_only (store_almanac_sv i f).
Proof.
  intros w1 w2 H. unfold store_almanac_sv.
  destruct ((0 <=? i) && (i <? MAX_SV)); cbn; now rewrite H.
Qed.

Lemma accumulator_only_store_ephemeris_sv (i : Z) (f : gps_ephemeris_sv -> gps_ephemeris_sv) :
  accumulator_only (store_ephemeris_sv i f).
Proof.
  intros w1 w2 H. unfold store_ephemeris_sv.
  destruct ((0 <=? i) && (i <? MAX_SV)); cbn; now rewrite H.
Qed.

Create HintDb acc.
#[local] Hint Resolve accumulator_only_ret accumulator_only_bind accumulator_only_store
  accumulator_only_get_gps accumulator_only_printd accumulator_only_fprintf_stderr
  accumulator_only_defined accumulator_only_when_ accumulator_only_store_almanac_sv
  accumulator_only_store_ephemeris_sv : acc.

Ltac acc_only :=
  repeat first
    [ apply accumulator_only_bind; [|intros ?]
    | apply accumulator_only_when_
    | solve [auto with acc] ].

Lemma accumulator_only_nav_posllh (hdr : ubx_hdr) (pl : payload) (pl_len : Z) :
  accumulator_only (_ubx_msg_parse_nav_posllh hdr pl pl_len).
Proof. unfold _ubx_msg_parse_nav_posllh. acc_only. Qed.

Lemma accumulator_only_aid_hui (hdr : ubx_hdr) (pl : payload) (pl_len : Z) :
  accumulator_only (_ubx_msg_parse_aid_hui hdr pl pl_len).
Proof. unfold _ubx_msg_parse_aid_hui. acc_only. Qed.

Lemma accumulator_only_aid_alm (hdr : ubx_hdr) (pl : payload) (pl_len : Z) :
  accumulator_only (_ubx_msg_parse_aid_alm hdr pl pl_len).
Proof.
  unfold _ubx_msg_parse_aid_alm.
  destruct (pl_len =? 8); [acc_only|].
  destruct (negb (pl_len =? sizeof_ubx_aid_alm)); acc_only.
Qed.

Lemma accumulator_only_aid_eph (hdr : ubx_hdr) (pl : payload) (pl_len : Z) :
  accumulator_only (_ubx_msg_parse_aid_eph hdr pl pl_len).
Proof.
  unfold _ubx_msg_parse_aid_eph.
  destruct (pl_len =? 8); [acc_only|].
  destruct (negb (pl_len =? sizeof_ubx_aid_eph)); acc_only.
Qed.

Lemma aid_ini_up_to_when (hdr : ubx_hdr) (pl : payload) (pl_len : Z)
    (g : gps_assist_data) (o1 o2 : list event) (c1 c2 : Z) :
  erase_when (result (_ubx_msg_parse_aid_ini hdr pl pl_len {| ud := g; out := o1; clock := c1 |}))
  = erase_when (result (_ubx_msg_parse_aid_ini hdr pl pl_len {| ud := g; out := o2; clock := c2 |})).
Proof.
  unfold _ubx_msg_parse_aid_ini. run.
  destruct (negb (Z.land (ini_flags (as_aid_ini pl)) 3 =? 3)); reflexivity.
Qed.

Lemma nav_timegps_up_to_when (hdr : ubx_hdr) (pl : payload) (pl_len : Z)
    (g : gps_assist_data) (o1 o2 : list event) (c1 c2 : Z) :
  erase_when (result (_ubx_msg_parse_nav_timegps hdr pl pl_len {| ud := g; out := o1; clock := c1 |}))
  = erase_when (result (_ubx_msg_parse_nav_timegps hdr pl pl_len {| ud := g; out := o2; clock := c2 |})).
Proof. reflexivity. Qed.

(** C10. Two calls of a decoder with the same payload, payload length and
    prior accumulator leave the same accumulator except possibly for the
    capture time [ref_time.when], whatever the clock shows and whatever
    was printed before: the NAV-POSLLH, AID-HUI, AID-ALM and AID-EPH
    decoders are functions of their inputs alone (the unpack functions
    being fixed), and the AID-INI and NAV-TIMEGPS decoders read the wall
    clock, into [ref_time.when] only. *)
Theorem C10_deterministic_up_to_when :
  Forall (fun e : ubx_dispatch_entry =>
            forall (hdr : ubx_hdr) (pl : payload) (pl_len : Z)
                   (g : gps_assist_data) (o1 o2 : list event) (c1 c2 : Z),
              erase_when (result (handler e hdr pl pl_len {| ud := g; out := o1; clock := c1 |}))
              = erase_when (result (handler e hdr pl pl_len {| ud := g; out := o2; clock := c2 |})))
         ubx_parse_dt /\
  Forall (fun d : ubx_hdr -> payload -> Z -> M unit =>
            forall (hdr : ubx_hdr) (pl : payload) (pl_len : Z)
                   (g : gps_assist_data) (o1 o2 : list event) (c1 c2 : Z),
              result (d hdr pl pl_len {| ud := g; out := o1; clock := c1 |})
              = result (d hdr pl pl_len {| ud := g; out := o2; clock := c2 |}))
         [_ubx_msg_parse_nav_posllh; _ubx_msg_parse_aid_hui;
          _ubx_msg_parse_aid_alm; _ubx_msg_parse_aid_eph] /\
  (forall (hdr : ubx_hdr) (pl : payload) (pl_len : Z) (w : world),
      when (ref_time (ud (world_of (_ubx_msg_parse_aid_ini hdr pl pl_len w)))) = clock w /\
      when (ref_time (ud (world_of (_ubx_msg_parse_nav_timegps hdr pl pl_len w)))) = clock w).
Proof.
  split; [|split].
  - unfold ubx_parse_dt.
    repeat (apply List.Forall_cons; [cbn [handler]; intros hdr pl pl_len g o1 o2 c1 c2|]);
      [ | | | | | | apply List.Forall_nil].
    + apply (f_equal erase_when), accumulator_only_nav_posllh. reflexivity.
    + apply aid_ini_up_to_when.
    + apply (f_equal erase_when), accumulator_only_aid_hui. reflexivity.
    + apply (f_equal erase_when), accumulator_only_aid_alm. reflexivity.
    + apply (f_equal erase_when), accumulator_only_aid_eph. reflexivity.
    + apply nav_timegps_up_to_when.
  - repeat (apply List.Forall_cons; [intros hdr pl pl_len g o1 o2 c1 c2|]);
      [ apply accumulator_only_nav_posllh | apply accumulator_only_aid_hui
      | apply accumulator_only_aid_alm | apply accumulator_only_aid_eph
      | apply List.Forall_nil ]; reflexivity.
  - intros hdr pl pl_len w. split.
    + unfold _ubx_msg_parse_aid_ini. run.
      destruct (negb (Z.land (ini_flags (as_aid_ini pl)) 3 =? 3)); reflexivity.
    + reflexivity.
Qed.

(** *** AID-HUI *)

Lemma truthy_land_2 (a : Z) : truthy (Z.land a 2) = Z.testbit a 1.
Proof. apply (truthy_land_pow2 a 1). lia. Qed.

Lemma truthy_land_4 (a : Z) : truthy (Z.land a 4) = Z.testbit a 2.
Proof. apply (truthy_land_pow2 a 2). lia. Qed.

(** Full evaluation of the monad, the stores and the record accesses,
    leaving the scaling helpers alone. *)
Ltac eval_world :=
  cbv [bind ret store get_gps printd printd1 fprintf_stderr time_NULL when_ defined
       world_of set_ud ud out clock
       fields ref_pos ref_time utc ionosphere almanac ephemeris
       set_fields set_ref_pos set_ref_time set_utc set_ionosphere set_almanac
       set_ephemeris
       a0 a1 delta_t_ls t_ot wn_t wn_lsf dn delta_t_lsf
       set_a0 set_a1 set_delta_t_ls set_t_ot set_wn_t set_wn_lsf set_dn set_delta_t_lsf
       alpha_0 alpha_1 alpha_2 alpha_3 beta_0 beta_1 beta_2 beta_3
       set_alpha_0 set_alpha_1 set_alpha_2 set_alpha_3
       set_beta_0 set_beta_1 set_beta_2 set_beta_3].

(** Case analysis on the casts a run of the AID-HUI decoder meets. *)
Ltac hui_casts :=
  repeat match goal with
         | |- context [match double_to_fixedpoint ?f ?s with _ => _ end] =>
             destruct (double_to_fixedpoint f s); cbv beta iota
         | |- context [match float_to_fixedpoint ?f ?s with _ => _ end] =>
             destruct (float_to_fixedpoint f s); cbv beta iota
         end.

Ltac hui_run :=
  unfold _ubx_msg_parse_aid_hui; rewrite truthy_land_2, truthy_land_4.

(** C4. The AID-HUI decoder commits the UTC sub-block if and only if flag
    bit 1 is set: it then sets the UTC bit and writes a0 = scale(raw a0,
    -30) and a1 = scale(raw a1, -50) by the 64-bit helper, t_ot = raw tot
    >> 12, and the leap second count, reference week, leap second week,
    day number and future leap second count as they are.  It commits the
    ionosphere sub-block if and only if flag bit 2 is set, writing the 8
    coefficients by the 32-bit helper with scale factors -30, -27, -24,
    -24, 11, 14, 16, 16.  With both bits clear the capability flags and
    both sub-structures keep their values. *)
Theorem C4_aid_hui (hdr : ubx_hdr) (pl : payload) (pl_len : Z) (w : world) :
  let h := as_aid_hui pl in
  let o := _ubx_msg_parse_aid_hui hdr pl pl_len w in
  (* bit 1 clear: no UTC commit *)
  (Z.testbit (hui_flags h) 1 = false ->
     utc (ud (world_of o)) = utc (ud w) /\
     fields (ud (world_of o)) =
       if Z.testbit (hui_flags h) 2
       then Z.lor (fields (ud w)) GPS_FIELD_IONOSPHERE else fields (ud w)) /\
  (* bit 1 set: UTC commit *)
  (Z.testbit (hui_flags h) 1 = true ->
   forall x0 x1 : Z,
     double_to_fixedpoint (utc_a0 h) (-30) = Some x0 ->
     double_to_fixedpoint (utc_a1 h) (-50) = Some x1 ->
     utc (ud (world_of o)) =
       {| a0 := x0; a1 := x1; delta_t_ls := utc_ls h;
          t_ot := Z.shiftr (utc_tot h) 12; wn_t := utc_wnt h;
          wn_lsf := utc_wnf h; dn := utc_dn h; delta_t_lsf := utc_lsf h |} /\
     Z.land (fields (ud (world_of o))) GPS_FIELD_UTC = GPS_FIELD_UTC) /\
  (* bit 2 clear: no ionosphere commit *)
  (Z.testbit (hui_flags h) 2 = false ->
     ionosphere (ud (world_of o)) = ionosphere (ud w) /\
     fields (ud (world_of o)) =
       if Z.testbit (hui_flags h) 1
       then Z.lor (fields (ud w)) GPS_FIELD_UTC else fields (ud w)) /\
  (* bit 2 set: ionosphere commit, once the UTC block is passed *)
  (Z.testbit (hui_flags h) 2 = true ->
   (Z.testbit (hui_flags h) 1 = false \/
    exists x0 x1 : Z,
      double_to_fixedpoint (utc_a0 h) (-30) = Some x0 /\
      double_to_fixedpoint (utc_a1 h) (-50) = Some x1) ->
   forall y0 y1 y2 y3 z0 z1 z2 z3 : Z,
     float_to_fixedpoint (klob_a0 h) (-30) = Some y0 ->
     float_to_fixedpoint (klob_a1 h) (-27) = Some y1 ->
     float_to_fixedpoint (klob_a2 h) (-24) = Some y2 ->
     float_to_fixedpoint (klob_a3 h) (-24) = Some y3 ->
     float_to_fixedpoint (klob_b0 h) 11 = Some z0 ->
     float_to_fixedpoint (klob_b1 h) 14 = Some z1 ->
     float_to_fixedpoint (klob_b2 h) 16 = Some z2 ->
     float_to_fixedpoint (klob_b3 h) 16 = Some z3 ->
     (exists w', o = Done tt w') /\
     ionosphere (ud (world_of o)) =
       {| alpha_0 := y0; alpha_1 := y1; alpha_2 := y2; alpha_3 := y3;
          beta_0 := z0; beta_1 := z1; beta_2 := z2; beta_3 := z3 |} /\
     Z.land (fields (ud (world_of o))) GPS_FIELD_IONOSPHERE = GPS_FIELD_IONOSPHERE) /\
  (* both clear: nothing is committed *)
  (Z.testbit (hui_flags h) 1 = false -> Z.testbit (hui_flags h) 2 = false ->
     exists w', o = Done tt w' /\ ud w' = ud w /\ diagnostics (out w') = diagnostics (out w)).
Proof.
  intros h o. subst h o. destruct w as [[fl rp rt u io al ep] pr ck].
  repeat apply conj.
  - intros H1. hui_run. rewrite H1.
    destruct (Z.testbit (hui_flags (as_aid_hui pl)) 2); eval_world; hui_casts; auto.
  - intros H1 x0 x1 Hx0 Hx1. hui_run. rewrite H1, Hx0, Hx1.
    destruct (Z.testbit (hui_flags (as_aid_hui pl)) 2); eval_world; hui_casts;
      (split; [reflexivity|]); first [apply land_lor_r | apply land_lor_lor].
  - intros H2. hui_run. rewrite H2.
    destruct (Z.testbit (hui_flags (as_aid_hui pl)) 1); eval_world; hui_casts; auto.
  - intros H2 H1 y0 y1 y2 y3 z0 z1 z2 z3 Hy0 Hy1 Hy2 Hy3 Hz0 Hz1 Hz2 Hz3.
    hui_run. rewrite H2, Hy0, Hy1, Hy2, Hy3, Hz0, Hz1, Hz2, Hz3.
    destruct H1 as [H1|(x0 & x1 & Hx0 & Hx1)].
    + rewrite H1. eval_world.
      split; [eexists; reflexivity|]. split; [reflexivity|]. apply land_lor_r.
    + rewrite Hx0, Hx1.
      destruct (Z.testbit (hui_flags (as_aid_hui pl)) 1); eval_world;
        (split; [eexists; reflexivity|]); (split; [reflexivity|]); apply land_lor_r.
  - intros H1 H2. hui_run. rewrite H1, H2. eval_world.
    eexists. split; [reflexivity|]. cbn [ud out].
    rewrite diagnostics_app, app_nil_r. split; reflexivity.
Qed.

(** *** The satellite arrays *)

Lemma wrap_int_small (z : Z) : INT_MIN <= z <= INT_MAX -> wrap_int z = z.
Proof.
  unfold INT_MIN, INT_MAX, wrap_int. intros H.
  rewrite Z.mod_small; lia.
Qed.

Lemma repeat_m_snoc (n : nat) (m : M unit) (w : world) :
  repeat_m (n + 1) m w = bind (repeat_m n m) (fun _ => m) w.
Proof.
  revert w. induction n as [|n IH]; intros w; cbn [repeat_m Nat.add].
  - unfold bind, ret. destruct (m w) as [[] ?|]; reflexivity.
  - unfold bind in *. destruct (m w) as [[] w1|f w1]; [|reflexivity].
    apply IH.
Qed.

Lemma aid_alm_append (hdr : ubx_hdr) (pl : payload) (w : world) :
  valid_alm pl ->
  0 <= alm_n_sv (almanac (ud w)) < MAX_SV -> MAX_SV <= INT_MAX ->
  exists w' : world,
    _ubx_msg_parse_aid_alm hdr pl sizeof_ubx_aid_alm w = Done tt w' /\
    alm_n_sv (almanac (ud w')) = alm_n_sv (almanac (ud w)) + 1.
Proof.
  intros [Hsz Hweek] Hn Hmax. unfold _ubx_msg_parse_aid_alm.
  destruct (Z.eqb_spec sizeof_ubx_aid_alm 8); [contradiction|].
  rewrite Z.eqb_refl. cbn [negb]. unfold truthy.
  destruct (Z.eqb_spec (gps_week (as_aid_alm pl)) 0); [contradiction|]. cbn [negb].
  run. unfold store_almanac_sv. cbn [ud set_almanac set_fields almanac alm_n_sv set_alm_n_sv set_wna].
  replace ((0 <=? alm_n_sv (almanac (ud w))) && (alm_n_sv (almanac (ud w)) <? MAX_SV))
    with true by (symmetry; apply andb_true_iff; split; [apply Z.leb_le | apply Z.ltb_lt]; lia).
  cbn [ud set_ud set_almanac set_fields almanac alm_n_sv set_alm_svs set_alm_n_sv set_wna].
  replace ((0 <=? alm_n_sv (almanac (ud w))) && (alm_n_sv (almanac (ud w)) <? MAX_SV))
    with true by (symmetry; apply andb_true_iff; split; [apply Z.leb_le | apply Z.ltb_lt]; lia).
  eexists. split; [reflexivity|]. cbn.
  apply wrap_int_small. unfold INT_MIN, INT_MAX in *. lia.
Qed.

Lemma aid_alm_overflow (hdr : ubx_hdr) (pl : payload) (w : world) :
  valid_alm pl ->
  alm_n_sv (almanac (ud w)) = MAX_SV -> 0 <= MAX_SV < INT_MAX ->
  exists w' : world,
    _ubx_msg_parse_aid_alm hdr pl sizeof_ubx_aid_alm w = Fault (OutOfBounds MAX_SV) w' /\
    alm_n_sv (almanac (ud w')) = MAX_SV + 1.
Proof.
  intros [Hsz Hweek] Hn Hmax. unfold _ubx_msg_parse_aid_alm.
  destruct (Z.eqb_spec sizeof_ubx_aid_alm 8); [contradiction|].
  rewrite Z.eqb_refl. cbn [negb]. unfold truthy.
  destruct (Z.eqb_spec (gps_week (as_aid_alm pl)) 0); [contradiction|]. cbn [negb].
  run. unfold store_almanac_sv. rewrite Hn, Z.ltb_irrefl, andb_false_r.
  eexists. split; [reflexivity|]. cbn.
  apply wrap_int_small. unfold INT_MIN, INT_MAX in *. lia.
Qed.

Lemma aid_alm_fill (hdr : ubx_hdr) (pl : payload) (k : nat) (w : world) :
  valid_alm pl ->
  0 <= alm_n_sv (almanac (ud w)) -> alm_n_sv (almanac (ud w)) + Z.of_nat k <= MAX_SV ->
  MAX_SV <= INT_MAX ->
  exists w' : world,
    repeat_m k (_ubx_msg_parse_aid_alm hdr pl sizeof_ubx_aid_alm) w = Done tt w' /\
    alm_n_sv (almanac (ud w')) = alm_n_sv (almanac (ud w)) + Z.of_nat k.
Proof.
  intros Hv. revert w. induction k as [|k IH]; intros w H0 Hk Hmax.
  - exists w. split; [reflexivity|lia].
  - destruct (aid_alm_append hdr pl w Hv ltac:(lia) Hmax) as (w1 & Hrun & Hn1).
    destruct (IH w1 ltac:(lia) ltac:(lia) Hmax) as (w2 & Hrun2 & Hn2).
    exists w2. cbn [repeat_m]. unfold bind. rewrite Hrun. split; [exact Hrun2|lia].
Qed.

Lemma aid_eph_append (hdr : ubx_hdr) (pl : payload) (w : world) :
  valid_eph pl ->
  0 <= eph_n_sv (ephemeris (ud w)) < MAX_SV -> MAX_SV <= INT_MAX ->
  exists w' : world,
    _ubx_msg_parse_aid_eph hdr pl sizeof_ubx_aid_eph w = Done tt w' /\
    eph_n_sv (ephemeris (ud w')) = eph_n_sv (ephemeris (ud w)) + 1.
Proof.
  intros [Hsz Hpresent] Hn Hmax. unfold _ubx_msg_parse_aid_eph.
  destruct (Z.eqb_spec sizeof_ubx_aid_eph 8); [contradiction|].
  rewrite Z.eqb_refl. cbn [negb]. unfold truthy.
  destruct (Z.eqb_spec (present (as_aid_eph pl)) 0); [contradiction|]. cbn [negb].
  run. unfold store_ephemeris_sv. cbn [ud set_ephemeris set_fields ephemeris eph_n_sv set_eph_n_sv].
  replace ((0 <=? eph_n_sv (ephemeris (ud w))) && (eph_n_sv (ephemeris (ud w)) <? MAX_SV))
    with true by (symmetry; apply andb_true_iff; split; [apply Z.leb_le | apply Z.ltb_lt]; lia).
  cbn [ud set_ud set_ephemeris set_fields ephemeris eph_n_sv set_eph_svs set_eph_n_sv].
  replace ((0 <=? eph_n_sv (ephemeris (ud w))) && (eph_n_sv (ephemeris (ud w)) <? MAX_SV))
    with true by (symmetry; apply andb_true_iff; split; [apply Z.leb_le | apply Z.ltb_lt]; lia).
  eexists. split; [reflexivity|]. cbn.
  apply wrap_int_small. unfold INT_MIN, INT_MAX in *. lia.
Qed.

Lemma aid_eph_overflow (hdr : ubx_hdr) (pl : payload) (w : world) :
  valid_eph pl ->
  eph_n_sv (ephemeris (ud w)) = MAX_SV -> 0 <= MAX_SV < INT_MAX ->
  exists w' : world,
    _ubx_msg_parse_aid_eph hdr pl sizeof_ubx_aid_eph w = Fault (OutOfBounds MAX_SV) w' /\
    eph_n_sv (ephemeris (ud w')) = MAX_SV + 1.
Proof.
  intros [Hsz Hpresent] Hn Hmax. unfold _ubx_msg_parse_aid_eph.
  destruct (Z.eqb_spec sizeof_ubx_aid_eph 8); [contradiction|].
  rewrite Z.eqb_refl. cbn [negb]. unfold truthy.
  destruct (Z.eqb_spec (present (as_aid_eph pl)) 0); [contradiction|]. cbn [negb].
  run. unfold store_ephemeris_sv. rewrite Hn, Z.ltb_irrefl, andb_false_r.
  eexists. split; [reflexivity|]. cbn.
  apply wrap_int_small. unfold INT_MIN, INT_MAX in *. lia.
Qed.

Lemma aid_eph_fill (hdr : ubx_hdr) (pl : payload) (k : nat) (w : world) :
  valid_eph pl ->
  0 <= eph_n_sv (ephemeris (ud w)) -> eph_n_sv (ephemeris (ud w)) + Z.of_nat k <= MAX_SV ->
  MAX_SV <= INT_MAX ->
  exists w' : world,
    repeat_m k (_ubx_msg_parse_aid_eph hdr pl sizeof_ubx_aid_eph) w = Done tt w' /\
    eph_n_sv (ephemeris (ud w')) = eph_n_sv (ephemeris (ud w)) + Z.of_nat k.
Proof.
  intros Hv. revert w. induction k as [|k IH]; intros w H0 Hk Hmax.
  - exists w. split; [reflexivity|lia].
  - destruct (aid_eph_append hdr pl w Hv ltac:(lia) Hmax) as (w1 & Hrun & Hn1).
    destruct (IH w1 ltac:(lia) ltac:(lia) Hmax) as (w2 & Hrun2 & Hn2).
    exists w2. cbn [repeat_m]. unfold bind. rewrite Hrun. split; [exact Hrun2|lia].
Qed.

(** C1 does not hold of the code.  The decoders append without a bounds
    check: [MAX_SV + 1] valid AID-ALM messages in a row, onto an empty
    almanac, raise the count to [MAX_SV + 1], and the last one stores to
    [svs[MAX_SV]], outside the array; likewise for AID-EPH and the
    ephemeris. *)
Theorem C1_satellite_count_overflow (hdr : ubx_hdr) (pl : payload) (w : world) :
  0 <= MAX_SV < INT_MAX ->
  (valid_alm pl -> alm_n_sv (almanac (ud w)) = 0 ->
   exists w' : world,
     repeat_m (Z.to_nat MAX_SV + 1) (_ubx_msg_parse_aid_alm hdr pl sizeof_ubx_aid_alm) w
       = Fault (OutOfBounds MAX_SV) w' /\
     alm_n_sv (almanac (ud w')) = MAX_SV + 1 /\
     MAX_SV < alm_n_sv (almanac (ud w'))) /\
  (valid_eph pl -> eph_n_sv (ephemeris (ud w)) = 0 ->
   exists w' : world,
     repeat_m (Z.to_nat MAX_SV + 1) (_ubx_msg_parse_aid_eph hdr pl sizeof_ubx_aid_eph) w
       = Fault (OutOfBounds MAX_SV) w' /\
     eph_n_sv (ephemeris (ud w')) = MAX_SV + 1 /\
     MAX_SV < eph_n_sv (ephemeris (ud w'))).
Proof.
  intros Hmax. split.
  - intros Hv Hn.
    destruct (aid_alm_fill hdr pl (Z.to_nat MAX_SV) w Hv ltac:(lia) ltac:(lia) ltac:(lia))
      as (w1 & Hrun1 & Hn1).
    destruct (aid_alm_overflow hdr pl w1 Hv ltac:(lia) Hmax) as (w2 & Hrun2 & Hn2).
    exists w2. rewrite repeat_m_snoc. unfold bind. rewrite Hrun1.
    split; [exact Hrun2|]. lia.
  - intros Hv Hn.
    destruct (aid_eph_fill hdr pl (Z.to_nat MAX_SV) w Hv ltac:(lia) ltac:(lia) ltac:(lia))
      as (w1 & Hrun1 & Hn1).
    destruct (aid_eph_overflow hdr pl w1 Hv ltac:(lia) Hmax) as (w2 & Hrun2 & Hn2).
    exists w2. rewrite repeat_m_snoc. unfold bind. rewrite Hrun1.
    split; [exact Hrun2|]. lia.
Qed.

(** *** What each decoder leaves alone *)

Lemma keeps_ret {A X : Type} (proj : gps_assist_data -> X) (a : A) :
  keeps proj (ret a : M A).
Proof. intros w. reflexivity. Qed.

Lemma keeps_bind {A B X : Type} (proj : gps_assist_data -> X) (m : M A) (k : A -> M B) :
  keeps proj m -> (forall a, keeps proj (k a)) -> keeps proj (bind m k).
Proof.
  intros Hm Hk w. unfold bind. specialize (Hm w).
  destruct (m w) as [a w1|f w1]; cbn [world_of] in *; [|exact Hm].
  rewrite Hk. exact Hm.
Qed.

Lemma keeps_store {X : Type} (proj : gps_assist_data -> X)
    (f : gps_assist_data -> gps_assist_data) :
  (forall g, proj (f g) = proj g) -> keeps proj (store f).
Proof. intros Hf w. apply Hf. Qed.

Lemma keeps_get_gps {X : Type} (proj : gps_assist_data -> X) :
  keeps proj (get_gps : M gps_assist_data).
Proof. intros w. reflexivity. Qed.

Lemma keeps_printd {X : Type} (proj : gps_assist_data -> X)
    (fmt : string) (args : list printf_arg) :
  keeps proj (printd fmt args : M unit).
Proof. intros w. reflexivity. Qed.

Lemma keeps_printd1 {X : Type} (proj : gps_assist_data -> X)
    (fmt : string) (args : list printf_arg) :
  keeps proj (printd1 fmt args : M unit).
Proof. intros w. reflexivity. Qed.

Lemma keeps_fprintf_stderr {X : Type} (proj : gps_assist_data -> X)
    (fmt : string) (args : list printf_arg) :
  keeps proj (fprintf_stderr fmt args : M unit).
Proof. intros w. reflexivity. Qed.

Lemma keeps_time_NULL {X : Type} (proj : gps_assist_data -> X) :
  keeps proj (time_NULL : M Z).
Proof. intros w. reflexivity. Qed.

Lemma keeps_defined {X : Type} (proj : gps_assist_data -> X) (o : option Z) :
  keeps proj (defined o : M Z).
Proof. intros w. destruct o; reflexivity. Qed.

Lemma keeps_when_ {X : Type} (proj : gps_assist_data -> X) (c : bool) (m : M unit) :
  keeps proj m -> keeps proj (when_ c m).
Proof. intros Hm. destruct c; [exact Hm | apply keeps_ret]. Qed.

Ltac keeps_step :=
  first
    [ apply keeps_bind; [|intros ?]
    | apply keeps_when_
    | apply keeps_ret
    | apply keeps_get_gps
    | apply keeps_printd
    | apply keeps_printd1
    | apply keeps_fprintf_stderr
    | apply keeps_time_NULL
    | apply keeps_defined
    | apply keeps_store; intros ?; reflexivity ].

(** Every decoder, with the two length tests of AID-ALM and AID-EPH
    decided. *)
Ltac unfold_decoder :=
  unfold _ubx_msg_parse_nav_posllh, _ubx_msg_parse_aid_ini, _ubx_msg_parse_aid_hui,
         _ubx_msg_parse_aid_alm, _ubx_msg_parse_aid_eph, _ubx_msg_parse_nav_timegps;
  repeat match goal with
         | |- context [if ?c then _ else _] => destruct c
         end.

Ltac keeps_decoder := unfold_decoder; repeat keeps_step.

(** An AID-ALM message whose count is inside the array changes the
    almanac and the flags at most. *)
Lemma aid_alm_writes_almanac_only (hdr : ubx_hdr) (pl : payload) (pl_len : Z) (w : world) :
  0 <= alm_n_sv (almanac (ud w)) < MAX_SV ->
  exists w' : world,
    _ubx_msg_parse_aid_alm hdr pl pl_len w = Done tt w' /\
    (ref_pos (ud w'), ref_time (ud w'), utc (ud w'), ionosphere (ud w'), ephemeris (ud w')) =
      (ref_pos (ud w), ref_time (ud w), utc (ud w), ionosphere (ud w), ephemeris (ud w)).
Proof.
  intros Hn.
  assert (Hb : (0 <=? alm_n_sv (almanac (ud w))) && (alm_n_sv (almanac (ud w)) <? MAX_SV) = true)
    by (apply andb_true_iff; split; [apply Z.leb_le | apply Z.ltb_lt]; lia).
  unfold _ubx_msg_parse_aid_alm.
  destruct (pl_len =? 8); [eexists; split; reflexivity|].
  destruct (negb (pl_len =? sizeof_ubx_aid_alm)); [eexists; split; reflexivity|].
  destruct (truthy (gps_week (as_aid_alm pl))); [|eexists; split; reflexivity].
  destruct w as [[fl rp rt u io [wk cnt svs] ep] pr ck].
  cbn [ud almanac alm_n_sv] in Hb.
  cbv [bind ret store get_gps printd when_ store_almanac_sv set_ud ud out clock
       fields ref_pos ref_time utc ionosphere almanac ephemeris
       set_fields set_almanac wna alm_n_sv alm_svs set_wna set_alm_n_sv set_alm_svs].
  rewrite !Hb. eexists; split; reflexivity.
Qed.

(** An AID-EPH message whose count is inside the array changes the
    ephemeris and the flags at most. *)
Lemma aid_eph_writes_ephemeris_only (hdr : ubx_hdr) (pl : payload) (pl_len : Z) (w : world) :
  0 <= eph_n_sv (ephemeris (ud w)) < MAX_SV ->
  exists w' : world,
    _ubx_msg_parse_aid_eph hdr pl pl_len w = Done tt w' /\
    (ref_pos (ud w'), ref_time (ud w'), utc (ud w'), ionosphere (ud w'), almanac (ud w')) =
      (ref_pos (ud w), ref_time (ud w), utc (ud w), ionosphere (ud w), almanac (ud w)).
Proof.
  intros Hn.
  assert (Hb : (0 <=? eph_n_sv (ephemeris (ud w))) && (eph_n_sv (ephemeris (ud w)) <? MAX_SV)
               = true)
    by (apply andb_true_iff; split; [apply Z.leb_le | apply Z.ltb_lt]; lia).
  unfold _ubx_msg_parse_aid_eph.
  destruct (pl_len =? 8); [eexists; split; reflexivity|].
  destruct (negb (pl_len =? sizeof_ubx_aid_eph)); [eexists; split; reflexivity|].
  destruct (truthy (present (as_aid_eph pl))); [|eexists; split; reflexivity].
  destruct w as [[fl rp rt u io al [cnt svs]] pr ck].
  cbn [ud ephemeris eph_n_sv] in Hb.
  cbv [bind ret store get_gps printd when_ store_ephemeris_sv set_ud ud out clock
       fields ref_pos ref_time utc ionosphere almanac ephemeris
       set_fields set_ephemeris eph_n_sv eph_svs set_eph_n_sv set_eph_svs].
  rewrite !Hb. eexists; split; reflexivity.
Qed.

(** X6. Each part of the accumulator has its own writers.  Of the four
    decoders that store to no satellite array, on every input: AID-INI,
    AID-HUI and NAV-TIMEGPS leave the position as it is, NAV-POSLLH and
    AID-HUI the reference time, NAV-POSLLH, AID-INI and NAV-TIMEGPS the
    UTC and ionosphere models, and all four the almanac and the
    ephemeris.  AID-ALM, called with a satellite count inside the array
    (0 <= n_sv < MAX_SV), runs to its end and leaves the position, the
    reference time, both models and the ephemeris as they are; AID-EPH,
    likewise, leaves everything but the ephemeris and the flags. *)
Theorem decoders_write_their_own_part :
  Forall (fun d : ubx_hdr -> payload -> Z -> M unit =>
            forall hdr pl pl_len, keeps ref_pos (d hdr pl pl_len))
    [_ubx_msg_parse_aid_ini; _ubx_msg_parse_aid_hui; _ubx_msg_parse_nav_timegps] /\
  Forall (fun d : ubx_hdr -> payload -> Z -> M unit =>
            forall hdr pl pl_len, keeps ref_time (d hdr pl pl_len))
    [_ubx_msg_parse_nav_posllh; _ubx_msg_parse_aid_hui] /\
  Forall (fun d : ubx_hdr -> payload -> Z -> M unit =>
            forall hdr pl pl_len,
              keeps utc (d hdr pl pl_len) /\ keeps ionosphere (d hdr pl pl_len))
    [_ubx_msg_parse_nav_posllh; _ubx_msg_parse_aid_ini; _ubx_msg_parse_nav_timegps] /\
  Forall (fun d : ubx_hdr -> payload -> Z -> M unit =>
            forall hdr pl pl_len,
              keeps almanac (d hdr pl pl_len) /\ keeps ephemeris (d hdr pl pl_len))
    [_ubx_msg_parse_nav_posllh; _ubx_msg_parse_aid_ini; _ubx_msg_parse_aid_hui;
     _ubx_msg_parse_nav_timegps] /\
  (forall (hdr : ubx_hdr) (pl : payload) (pl_len : Z) (w : world),
     0 <= alm_n_sv (almanac (ud w)) < MAX_SV ->
     exists w' : world,
       _ubx_msg_parse_aid_alm hdr pl pl_len w = Done tt w' /\
       (ref_pos (ud w'), ref_time (ud w'), utc (ud w'), ionosphere (ud w'),
        ephemeris (ud w')) =
         (ref_pos (ud w), ref_time (ud w), utc (ud w), ionosphere (ud w),
          ephemeris (ud w))) /\
  (forall (hdr : ubx_hdr) (pl : payload) (pl_len : Z) (w : world),
     0 <= eph_n_sv (ephemeris (ud w)) < MAX_SV ->
     exists w' : world,
       _ubx_msg_parse_aid_eph hdr pl pl_len w = Done tt w' /\
       (ref_pos (ud w'), ref_time (ud w'), utc (ud w'), ionosphere (ud w'),
        almanac (ud w')) =
         (ref_pos (ud w), ref_time (ud w), utc (ud w), ionosphere (ud w),
          almanac (ud w))).
Proof.
  repeat apply conj;
    try exact aid_alm_writes_almanac_only; try exact aid_eph_writes_ephemeris_only;
    repeat (apply List.Forall_cons; [intros hdr pl pl_len|]); try apply List.Forall_nil;
    try split; keeps_decoder.
Qed.

(** *** Diagnostics *)

Lemma diagnoses_le {A : Type} (n n' : nat) (m : M A) :
  (n <= n')%nat -> diagnoses n m -> diagnoses n' m.
Proof. intros Hn Hm w. destruct (Hm w) as (l & Hl & Hlen). exists l. split; [exact Hl|lia]. Qed.

Lemma diagnoses_ret {A : Type} (a : A) : diagnoses 0 (ret a : M A).
Proof. intros w. exists []. split; [symmetry; apply app_nil_r | reflexivity]. Qed.

Lemma diagnoses_same_out {A : Type} (m : M A) :
  (forall w, out (world_of (m w)) = out w) -> diagnoses 0 m.
Proof.
  intros Hm w. exists []. rewrite Hm. split; [symmetry; apply app_nil_r | reflexivity].
Qed.

Lemma diagnoses_bind {A B : Type} (a b : nat) (m : M A) (k : A -> M B) :
  diagnoses a m -> (forall x, diagnoses b (k x)) -> diagnoses (a + b) (bind m k).
Proof.
  intros Hm Hk w. unfold bind. destruct (Hm w) as (l1 & Hl1 & Hlen1).
  destruct (m w) as [x w1|f w1]; cbn [world_of] in *.
  - destruct (Hk x w1) as (l2 & Hl2 & Hlen2). exists (l1 ++ l2).
    rewrite Hl2, Hl1, <- app_assoc, length_app. split; [reflexivity|lia].
  - exists l1. split; [exact Hl1|lia].
Qed.

Lemma diagnoses_printd (fmt : string) (args : list printf_arg) :
  diagnoses 0 (printd fmt args : M unit).
Proof.
  intros w. exists []. cbn. rewrite diagnostics_app. split; reflexivity.
Qed.

Lemma diagnoses_fprintf_stderr (fmt : string) (args : list printf_arg) :
  diagnoses 1 (fprintf_stderr fmt args : M unit).
Proof.
  intros w. exists [Stderr fmt args]. cbn. rewrite diagnostics_app. split; reflexivity.
Qed.

Lemma diagnoses_defined (o : option Z) : diagnoses 0 (defined o : M Z).
Proof. apply diagnoses_same_out. intros w. destruct o; reflexivity. Qed.

Lemma diagnoses_when_ (n : nat) (c : bool) (m : M unit) :
  diagnoses n m -> diagnoses n (when_ c m).
Proof.
  intros Hm. destruct c; [exact Hm|].
  apply (diagnoses_le 0); [lia | apply diagnoses_ret].
Qed.

Lemma diagnoses_store_almanac_sv (i : Z) (f : gps_almanac_sv -> gps_almanac_sv) :
  diagnoses 0 (store_almanac_sv i f).
Proof.
  apply diagnoses_same_out. intros w. unfold store_almanac_sv.
  destruct ((0 <=? i) && (i <? MAX_SV)); reflexivity.
Qed.

Lemma diagnoses_store_ephemeris_sv (i : Z) (f : gps_ephemeris_sv -> gps_ephemeris_sv) :
  diagnoses 0 (store_ephemeris_sv i f).
Proof.
  apply diagnoses_same_out. intros w. unfold store_ephemeris_sv.
  destruct ((0 <=? i) && (i <? MAX_SV)); reflexivity.
Qed.

(** A step that prints no diagnostic. *)
Ltac quiet_step :=
  first
    [ apply (diagnoses_bind 0 0); [|intros ?]
    | apply diagnoses_when_
    | apply diagnoses_ret
    | apply diagnoses_printd
    | apply diagnoses_defined
    | apply diagnoses_store_almanac_sv
    | apply diagnoses_store_ephemeris_sv
    | apply diagnoses_same_out; intros ?; reflexivity ].

(** A computation whose only diagnostic, if any, is its last step. *)
Ltac one_diagnostic :=
  repeat first
    [ apply diagnoses_fprintf_stderr
    | apply (diagnoses_bind 0 1); [solve [repeat quiet_step]|intros ?]
    | apply diagnoses_when_
    | apply (diagnoses_le 0 1); [lia | solve [repeat quiet_step]] ].

(** X8. A decoder call prints at most one diagnostic, on every input and
    also when it stops; the NAV-POSLLH, AID-HUI and NAV-TIMEGPS decoders
    print none. *)
Theorem decoders_print_at_most_one_diagnostic :
  Forall (fun e : ubx_dispatch_entry =>
            forall hdr pl pl_len, diagnoses 1 (handler e hdr pl pl_len))
         ubx_parse_dt /\
  Forall (fun d : ubx_hdr -> payload -> Z -> M unit =>
            forall hdr pl pl_len, diagnoses 0 (d hdr pl pl_len))
         [_ubx_msg_parse_nav_posllh; _ubx_msg_parse_aid_hui; _ubx_msg_parse_nav_timegps].
Proof.
  split.
  - unfold ubx_parse_dt.
    repeat (apply List.Forall_cons; [cbn [handler]; intros hdr pl pl_len|]);
      try apply List.Forall_nil; unfold_decoder; one_diagnostic.
  - repeat (apply List.Forall_cons; [intros hdr pl pl_len|]);
      try apply List.Forall_nil; unfold_decoder; repeat quiet_step.
Qed.

(** *** Reference time *)

Lemma nav_timegps_commits_eq (hdr : ubx_hdr) (pl : payload) (pl_len : Z) (w : world) :
  _ubx_msg_parse_nav_timegps hdr pl pl_len w =
    Done tt
      {| ud := set_ref_time
                 {| wn := week (as_nav_timegps pl);
                    tow := f64_mul (f64_of_Z (timegps_itow (as_nav_timegps pl))) f64_1e_3;
                    when := clock w |}
                 (set_fields (Z.lor (fields (ud w)) GPS_FIELD_REFTIME) (ud w));
         out := out w;
         clock := clock w |}.
Proof. reflexivity. Qed.

(** The accumulator an AID-INI call ends with. *)
Lemma aid_ini_result (hdr : ubx_hdr) (pl : payload) (pl_len : Z) (w : world) :
  exists w' : world,
    _ubx_msg_parse_aid_ini hdr pl pl_len w = Done tt w' /\
    clock w' = clock w /\
    ud w' =
      set_ref_time
        {| wn := ini_wn (as_aid_ini pl);
           tow := f64_mul (f64_of_Z (ini_tow (as_aid_ini pl))) f64_1e_3;
           when := clock w |}
        (set_fields (Z.lor (fields (ud w)) GPS_FIELD_REFTIME) (ud w)).
Proof.
  unfold _ubx_msg_parse_aid_ini. run.
  destruct (negb (Z.land (ini_flags (as_aid_ini pl)) 3 =? 3)); run;
    eexists; repeat split; reflexivity.
Qed.

(** X4. The two reference-time decoders commit alike: for an AID-INI
    and a NAV-TIMEGPS message with the same raw week and time of week, the
    calls leave the same accumulator (REFTIME set, the week, the time of
    week in seconds, the clock as capture time) and both run to their
    end.  They differ in what they print only: NAV-TIMEGPS prints
    nothing. *)
Theorem reference_time_decoders_agree
    (hdr1 hdr2 : ubx_hdr) (pl1 pl2 : payload) (len1 len2 : Z) (w : world) :
  ini_wn (as_aid_ini pl1) = week (as_nav_timegps pl2) ->
  ini_tow (as_aid_ini pl1) = timegps_itow (as_nav_timegps pl2) ->
  result (_ubx_msg_parse_aid_ini hdr1 pl1 len1 w)
    = result (_ubx_msg_parse_nav_timegps hdr2 pl2 len2 w) /\
  result (_ubx_msg_parse_nav_timegps hdr2 pl2 len2 w) =
    (inl tt,
     set_ref_time
       {| wn := week (as_nav_timegps pl2);
          tow := f64_mul (f64_of_Z (timegps_itow (as_nav_timegps pl2))) f64_1e_3;
          when := clock w |}
       (set_fields (Z.lor (fields (ud w)) GPS_FIELD_REFTIME) (ud w))) /\
  out (world_of (_ubx_msg_parse_nav_timegps hdr2 pl2 len2 w)) = out w.
Proof.
  intros Hwn Htow.
  destruct (aid_ini_result hdr1 pl1 len1 w) as (w1 & Hrun & _ & Hud).
  rewrite Hrun, nav_timegps_commits_eq. cbn [result world_of ud out].
  rewrite Hud, Hwn, Htow. repeat split.
Qed.

(** X5. The reference time is that of the last message: after AID-INI
    and then NAV-TIMEGPS the week and time of week are those of the
    NAV-TIMEGPS message, after NAV-TIMEGPS and then AID-INI those of the
    AID-INI message, with no trace of the earlier one; REFTIME is set
    either way. *)
Theorem ref_time_last_write_wins
    (hdr1 hdr2 : ubx_hdr) (pl1 pl2 : payload) (len1 len2 : Z) (w : world) :
  (exists w' : world,
     bind (_ubx_msg_parse_aid_ini hdr1 pl1 len1)
          (fun _ => _ubx_msg_parse_nav_timegps hdr2 pl2 len2) w = Done tt w' /\
     ref_time (ud w') =
       {| wn := week (as_nav_timegps pl2);
          tow := f64_mul (f64_of_Z (timegps_itow (as_nav_timegps pl2))) f64_1e_3;
          when := clock w |} /\
     fields (ud w') = Z.lor (fields (ud w)) GPS_FIELD_REFTIME) /\
  (exists w' : world,
     bind (_ubx_msg_parse_nav_timegps hdr2 pl2 len2)
          (fun _ => _ubx_msg_parse_aid_ini hdr1 pl1 len1) w = Done tt w' /\
     ref_time (ud w') =
       {| wn := ini_wn (as_aid_ini pl1);
          tow := f64_mul (f64_of_Z (ini_tow (as_aid_ini pl1))) f64_1e_3;
          when := clock w |} /\
     fields (ud w') = Z.lor (fields (ud w)) GPS_FIELD_REFTIME).
Proof.
  split.
  - destruct (aid_ini_result hdr1 pl1 len1 w) as (w1 & Hrun & Hck & Hud).
    unfold bind. rewrite Hrun, nav_timegps_commits_eq. eexists. split; [reflexivity|].
    cbn [ud]. rewrite Hck, Hud. split; [reflexivity|].
    cbn [fields set_ref_time set_fields]. rewrite <- Z.lor_assoc, Z.lor_diag. reflexivity.
  - unfold bind. rewrite nav_timegps_commits_eq.
    destruct (aid_ini_result hdr1 pl1 len1
                {| ud := set_ref_time
                           {| wn := week (as_nav_timegps pl2);
                              tow := f64_mul (f64_of_Z (timegps_itow (as_nav_timegps pl2)))
                                       f64_1e_3;
                              when := clock w |}
                           (set_fields (Z.lor (fields (ud w)) GPS_FIELD_REFTIME) (ud w));
                   out := out w; clock := clock w |})
      as (w1 & Hrun & Hck & Hud).
    rewrite Hrun. eexists. split; [reflexivity|]. rewrite Hud. cbn [ud clock].
    split; [reflexivity|].
    cbn [fields set_ref_time set_fields]. rewrite <- Z.lor_assoc, Z.lor_diag. reflexivity.
Qed.

(** *** Appending satellites *)

Lemma land_255_range (z : Z) : 0 <= Z.land z 255 <= 255.
Proof.
  assert (H : Z.land z 255 = z mod 256)
    by (change 255 with (Z.ones 8); rewrite Z.land_ones by lia; reflexivity).
  rewrite H. pose proof (Z.mod_pos_bound z 256 ltac:(lia)). lia.
Qed.

(** The record an AID-ALM message leaves in a slot: the unpacked words,
    with the satellite id of the message put over the unpacked one. *)
Lemma aid_alm_step (hdr : ubx_hdr) (pl : payload) (w : world) :
  valid_alm pl ->
  0 <= alm_n_sv (almanac (ud w)) < MAX_SV -> MAX_SV <= INT_MAX ->
  exists w' : world,
    _ubx_msg_parse_aid_alm hdr pl sizeof_ubx_aid_alm w = Done tt w' /\
    ud w' =
      set_almanac
        {| wna := Z.land (gps_week (as_aid_alm pl)) 255;
           alm_n_sv := alm_n_sv (almanac (ud w)) + 1;
           alm_svs :=
             alter (fun sv => set_sv_id (alm_sv_id (as_aid_alm pl))
                                (gps_unpack_sf45_almanac (alm_words (as_aid_alm pl)) sv))
                   (Z.to_nat (alm_n_sv (almanac (ud w))))
                   (alm_svs (almanac (ud w))) |}
        (set_fields (Z.lor (fields (ud w)) GPS_FIELD_ALMANAC) (ud w)).
Proof.
  intros [Hsz Hweek] Hn Hmax. unfold _ubx_msg_parse_aid_alm.
  destruct (Z.eqb_spec sizeof_ubx_aid_alm 8); [contradiction|].
  rewrite Z.eqb_refl. cbn [negb]. unfold truthy.
  destruct (Z.eqb_spec (gps_week (as_aid_alm pl)) 0); [contradiction|]. cbn [negb].
  destruct w as [[fl rp rt u io [wn0 cnt svs] ep] pr ck]. cbn [ud almanac alm_n_sv] in Hn.
  run. unfold store_almanac_sv.
  cbn [ud set_ud set_almanac set_fields almanac alm_n_sv alm_svs set_alm_svs set_alm_n_sv
       set_wna fields ref_pos ref_time utc ionosphere ephemeris wna].
  replace ((0 <=? cnt) && (cnt <? MAX_SV))
    with true by (symmetry; apply andb_true_iff; split; [apply Z.leb_le | apply Z.ltb_lt]; lia).
  cbn [ud set_ud set_almanac set_fields almanac alm_n_sv alm_svs set_alm_svs set_alm_n_sv
       set_wna fields ref_pos ref_time utc ionosphere ephemeris wna].
  replace ((0 <=? cnt) && (cnt <? MAX_SV))
    with true by (symmetry; apply andb_true_iff; split; [apply Z.leb_le | apply Z.ltb_lt]; lia).
  eexists. split; [reflexivity|].
  cbn [ud set_ud set_almanac set_fields almanac alm_n_sv alm_svs set_alm_svs set_alm_n_sv
       set_wna fields ref_pos ref_time utc ionosphere ephemeris wna].
  rewrite list_alter_alter_eq, wrap_int_small by (unfold INT_MIN, INT_MAX in *; lia).
  reflexivity.
Qed.

(** The record an AID-EPH message leaves in a slot: the words unpacked
    into the slot, after the satellite id of the message is stored in
    it. *)
Lemma aid_eph_step (hdr : ubx_hdr) (pl : payload) (w : world) :
  valid_eph pl ->
  0 <= eph_n_sv (ephemeris (ud w)) < MAX_SV -> MAX_SV <= INT_MAX ->
  exists w' : world,
    _ubx_msg_parse_aid_eph hdr pl sizeof_ubx_aid_eph w = Done tt w' /\
    ud w' =
      set_ephemeris
        {| eph_n_sv := eph_n_sv (ephemeris (ud w)) + 1;
           eph_svs :=
             alter (fun sv => gps_unpack_sf123 (eph_words (as_aid_eph pl))
                                (set_sv_id (eph_sv_id (as_aid_eph pl)) sv))
                   (Z.to_nat (eph_n_sv (ephemeris (ud w))))
                   (eph_svs (ephemeris (ud w))) |}
        (set_fields (Z.lor (fields (ud w)) GPS_FIELD_EPHEMERIS) (ud w)).
Proof.
  intros [Hsz Hpresent] Hn Hmax. unfold _ubx_msg_parse_aid_eph.
  destruct (Z.eqb_spec sizeof_ubx_aid_eph 8); [contradiction|].
  rewrite Z.eqb_refl. cbn [negb]. unfold truthy.
  destruct (Z.eqb_spec (present (as_aid_eph pl)) 0); [contradiction|]. cbn [negb].
  destruct w as [[fl rp rt u io al [cnt svs]] pr ck]. cbn [ud ephemeris eph_n_sv] in Hn.
  run. unfold store_ephemeris_sv.
  cbn [ud set_ud set_ephemeris set_fields ephemeris eph_n_sv eph_svs set_eph_svs
       set_eph_n_sv fields ref_pos ref_time utc ionosphere almanac].
  replace ((0 <=? cnt) && (cnt <? MAX_SV))
    with true by (symmetry; apply andb_true_iff; split; [apply Z.leb_le | apply Z.ltb_lt]; lia).
  cbn [ud set_ud set_ephemeris set_fields ephemeris eph_n_sv eph_svs set_eph_svs
       set_eph_n_sv fields ref_pos ref_time utc ionosphere almanac].
  replace ((0 <=? cnt) && (cnt <? MAX_SV))
    with true by (symmetry; apply andb_true_iff; split; [apply Z.leb_le | apply Z.ltb_lt]; lia).
  eexists. split; [reflexivity|].
  cbn [ud set_ud set_ephemeris set_fields ephemeris eph_n_sv eph_svs set_eph_svs
       set_eph_n_sv fields ref_pos ref_time utc ionosphere almanac].
  rewrite list_alter_alter_eq, wrap_int_small by (unfold INT_MIN, INT_MAX in *; lia).
  reflexivity.
Qed.

(** X9. A valid AID-ALM message with room left is appended at the slot
    the count points to: the count goes up by one, ALMANAC is set, the
    week number of the almanac is the low 8 bits of the week of the
    message, and the slot holds the unpacked record with the satellite id
    of the message, whatever id the unpack function wrote; the other
    slots and the rest of the accumulator are as before. *)
Theorem aid_alm_appends (hdr : ubx_hdr) (pl : payload) (w : world) :
  valid_alm pl ->
  0 <= alm_n_sv (almanac (ud w)) < MAX_SV -> MAX_SV <= INT_MAX ->
  exists w' : world,
    _ubx_msg_parse_aid_alm hdr pl sizeof_ubx_aid_alm w = Done tt w' /\
    alm_n_sv (almanac (ud w')) = alm_n_sv (almanac (ud w)) + 1 /\
    fields (ud w') = Z.lor (fields (ud w)) GPS_FIELD_ALMANAC /\
    wna (almanac (ud w')) = Z.land (gps_week (as_aid_alm pl)) 255 /\
    0 <= wna (almanac (ud w')) <= 255 /\
    (forall old : gps_almanac_sv,
        alm_svs (almanac (ud w)) !! Z.to_nat (alm_n_sv (almanac (ud w))) = Some old ->
        alm_svs (almanac (ud w')) !! Z.to_nat (alm_n_sv (almanac (ud w)))
        = Some {| sv_id := alm_sv_id (as_aid_alm pl);
                  sv_params := sv_params (gps_unpack_sf45_almanac
                                            (alm_words (as_aid_alm pl)) old) |}) /\
    (forall j : nat,
        j <> Z.to_nat (alm_n_sv (almanac (ud w))) ->
        alm_svs (almanac (ud w')) !! j = alm_svs (almanac (ud w)) !! j) /\
    (ref_pos (ud w'), ref_time (ud w'), utc (ud w'), ionosphere (ud w'), ephemeris (ud w'))
    = (ref_pos (ud w), ref_time (ud w), utc (ud w), ionosphere (ud w), ephemeris (ud w)).
Proof.
  intros Hv Hn Hmax.
  destruct (aid_alm_step hdr pl w Hv Hn Hmax) as (w' & Hrun & Hud).
  exists w'. split; [exact Hrun|]. rewrite Hud.
  cbn [set_almanac set_fields almanac alm_n_sv alm_svs wna fields ref_pos ref_time utc
       ionosphere ephemeris].
  repeat split; try apply land_255_range.
  - intros old Hold. rewrite list_lookup_alter_eq.
    unfold gps_almanac_sv, gps_ephemeris_sv in *. rewrite Hold. reflexivity.
  - intros j Hj. apply list_lookup_alter_ne. congruence.
Qed.

(** X10. A valid AID-EPH message that is present, with room left, is
    appended at the slot the count points to: the count goes up by one,
    EPHEMERIS is set, and the slot holds what the unpack function makes
    of the slot once the satellite id of the message is stored in it; the
    other slots and the rest of the accumulator are as before. *)
Theorem aid_eph_appends (hdr : ubx_hdr) (pl : payload) (w : world) :
  valid_eph pl ->
  0 <= eph_n_sv (ephemeris (ud w)) < MAX_SV -> MAX_SV <= INT_MAX ->
  exists w' : world,
    _ubx_msg_parse_aid_eph hdr pl sizeof_ubx_aid_eph w = Done tt w' /\
    eph_n_sv (ephemeris (ud w')) = eph_n_sv (ephemeris (ud w)) + 1 /\
    fields (ud w') = Z.lor (fields (ud w)) GPS_FIELD_EPHEMERIS /\
    (forall old : gps_ephemeris_sv,
        eph_svs (ephemeris (ud w)) !! Z.to_nat (eph_n_sv (ephemeris (ud w))) = Some old ->
        eph_svs (ephemeris (ud w')) !! Z.to_nat (eph_n_sv (ephemeris (ud w)))
        = Some (gps_unpack_sf123 (eph_words (as_aid_eph pl))
                  {| sv_id := eph_sv_id (as_aid_eph pl); sv_params := sv_params old |})) /\
    (forall j : nat,
        j <> Z.to_nat (eph_n_sv (ephemeris (ud w))) ->
        eph_svs (ephemeris (ud w')) !! j = eph_svs (ephemeris (ud w)) !! j) /\
    (ref_pos (ud w'), ref_time (ud w'), utc (ud w'), ionosphere (ud w'), almanac (ud w'))
    = (ref_pos (ud w), ref_time (ud w), utc (ud w), ionosphere (ud w), almanac (ud w)).
Proof.
  intros Hv Hn Hmax.
  destruct (aid_eph_step hdr pl w Hv Hn Hmax) as (w' & Hrun & Hud).
  exists w'. split; [exact Hrun|]. rewrite Hud.
  cbn [set_ephemeris set_fields ephemeris eph_n_sv eph_svs fields ref_pos ref_time utc
       ionosphere almanac].
  repeat split.
  - intros old Hold. rewrite list_lookup_alter_eq.
    unfold gps_almanac_sv, gps_ephemeris_sv in *. rewrite Hold. reflexivity.
  - intros j Hj. apply list_lookup_alter_ne. congruence.
Qed.

Section RunEach.

(** A decoder [d] whose call, on a payload that is [ok] and with room
    left, stores [F pl] of the slot the count points to and steps the
    count. *)
Context {T : Type}.
Variable d : payload -> M unit.
Variable ok : payload -> Prop.
Variable count : gps_assist_data -> Z.
Variable slots : gps_assist_data -> list T.
Variable F : payload -> T -> T.

Hypothesis step : forall (pl : payload) (w : world),
  ok pl -> 0 <= count (ud w) < MAX_SV ->
  exists w' : world,
    d pl w = Done tt w' /\
    count (ud w') = count (ud w) + 1 /\
    slots (ud w') = alter (F pl) (Z.to_nat (count (ud w))) (slots (ud w)).

Lemma run_each_fills (pls : list payload) :
  forall (w : world) (j : nat),
    Forall ok pls -> count (ud w) = Z.of_nat j ->
    Z.of_nat (j + length pls) <= MAX_SV ->
    exists w' : world,
      run_each d pls w = Done tt w' /\
      count (ud w') = Z.of_nat (j + length pls) /\
      (forall (k : nat) (pl : payload),
          pls !! k = Some pl ->
          slots (ud w') !! (j + k)%nat = F pl <$> slots (ud w) !! (j + k)%nat) /\
      (forall k : nat,
          (k < j \/ j + length pls <= k)%nat ->
          slots (ud w') !! k = slots (ud w) !! k).
Proof.
  induction pls as [|pl pls IH]; intros w j Hok Hj Hroom.
  - exists w. cbn [run_each length]. repeat split.
    + rewrite Hj. f_equal. lia.
    + intros k pl Hk. discriminate.
  - apply Forall_cons in Hok as [Hpl Hok]. cbn [length] in Hroom.
    destruct (step pl w Hpl ltac:(lia)) as (w1 & Hrun1 & Hc1 & Hs1).
    destruct (IH w1 (S j) Hok ltac:(lia) ltac:(lia)) as (w' & Hrun & Hc & Hnew & Hold).
    exists w'. cbn [run_each length]. unfold bind. rewrite Hrun1.
    rewrite Hj, Nat2Z.id in Hs1.
    split; [exact Hrun|]. split; [rewrite Hc; f_equal; lia|]. split.
    + intros [|k] pl' Hk.
      * injection Hk as <-. rewrite Hold by lia.
        rewrite Hs1, Nat.add_0_r. apply list_lookup_alter_eq.
      * replace (j + S k)%nat with (S j + k)%nat by lia.
        rewrite (Hnew k pl' Hk), Hs1. f_equal. apply list_lookup_alter_ne. lia.
    + intros k Hk. rewrite Hold by lia. rewrite Hs1. apply list_lookup_alter_ne. lia.
Qed.

End RunEach.

(** X11. Valid AID-ALM messages onto an empty almanac, no more than the
    capacity, are all committed, in the order of arrival: the count is
    their number, slot [k] holds the record unpacked from the [k]-th
    message with the satellite id of that message, and the slots past
    them are untouched. *)
Theorem aid_alm_arrival_order (hdr : ubx_hdr) (pls : list payload) (w : world) :
  Forall valid_alm pls ->
  alm_n_sv (almanac (ud w)) = 0 ->
  Z.of_nat (length pls) <= MAX_SV -> MAX_SV <= INT_MAX ->
  exists w' : world,
    run_each (fun pl => _ubx_msg_parse_aid_alm hdr pl sizeof_ubx_aid_alm) pls w = Done tt w' /\
    alm_n_sv (almanac (ud w')) = Z.of_nat (length pls) /\
    (forall (k : nat) (pl : payload) (old : gps_almanac_sv),
        pls !! k = Some pl -> alm_svs (almanac (ud w)) !! k = Some old ->
        alm_svs (almanac (ud w')) !! k
        = Some {| sv_id := alm_sv_id (as_aid_alm pl);
                  sv_params := sv_params (gps_unpack_sf45_almanac
                                            (alm_words (as_aid_alm pl)) old) |}) /\
    (forall k : nat,
        (length pls <= k)%nat ->
        alm_svs (almanac (ud w')) !! k = alm_svs (almanac (ud w)) !! k).
Proof.
  intros Hok Hn Hroom Hmax.
  destruct (run_each_fills
              (fun pl => _ubx_msg_parse_aid_alm hdr pl sizeof_ubx_aid_alm)
              valid_alm (fun g => alm_n_sv (almanac g)) (fun g => alm_svs (almanac g))
              (fun pl sv => set_sv_id (alm_sv_id (as_aid_alm pl))
                              (gps_unpack_sf45_almanac (alm_words (as_aid_alm pl)) sv)))
    with (pls := pls) (w := w) (j := 0%nat) as (w' & Hrun & Hc & Hnew & Hold);
    [|assumption|assumption|lia|].
  - intros pl v Hpl Hv.
    destruct (aid_alm_step hdr pl v Hpl Hv Hmax) as (v' & Hrun & Hud).
    exists v'. rewrite Hud. repeat split. exact Hrun.
  - exists w'. split; [exact Hrun|]. split; [rewrite Hc; f_equal|]. split.
    + intros k pl old Hk Hslot. specialize (Hnew k pl Hk).
      cbn [Nat.add] in Hnew. cbv beta in Hnew.
      unfold gps_almanac_sv in *. rewrite Hnew, Hslot. reflexivity.
    + intros k Hk. apply Hold. lia.
Qed.

(** X12. Valid AID-EPH messages that are present, onto an empty
    ephemeris list and no more than the capacity, are all committed, in
    the order of arrival: the count is their number, slot [k] holds what
    the unpack function makes of the [k]-th message, and the slots past
    them are untouched. *)
Theorem aid_eph_arrival_order (hdr : ubx_hdr) (pls : list payload) (w : world) :
  Forall valid_eph pls ->
  eph_n_sv (ephemeris (ud w)) = 0 ->
  Z.of_nat (length pls) <= MAX_SV -> MAX_SV <= INT_MAX ->
  exists w' : world,
    run_each (fun pl => _ubx_msg_parse_aid_eph hdr pl sizeof_ubx_aid_eph) pls w = Done tt w' /\
    eph_n_sv (ephemeris (ud w')) = Z.of_nat (length pls) /\
    (forall (k : nat) (pl : payload) (old : gps_ephemeris_sv),
        pls !! k = Some pl -> eph_svs (ephemeris (ud w)) !! k = Some old ->
        eph_svs (ephemeris (ud w')) !! k
        = Some (gps_unpack_sf123 (eph_words (as_aid_eph pl))
                  {| sv_id := eph_sv_id (as_aid_eph pl); sv_params := sv_params old |})) /\
    (forall k : nat,
        (length pls <= k)%nat ->
        eph_svs (ephemeris (ud w')) !! k = eph_svs (ephemeris (ud w)) !! k).
Proof.
  intros Hok Hn Hroom Hmax.
  destruct (run_each_fills
              (fun pl => _ubx_msg_parse_aid_eph hdr pl sizeof_ubx_aid_eph)
              valid_eph (fun g => eph_n_sv (ephemeris g)) (fun g => eph_svs (ephemeris g))
              (fun pl sv => gps_unpack_sf123 (eph_words (as_aid_eph pl))
                              (set_sv_id (eph_sv_id (as_aid_eph pl)) sv)))
    with (pls := pls) (w := w) (j := 0%nat) as (w' & Hrun & Hc & Hnew & Hold);
    [|assumption|assumption|lia|].
  - intros pl v Hpl Hv.
    destruct (aid_eph_step hdr pl v Hpl Hv Hmax) as (v' & Hrun & Hud).
    exists v'. rewrite Hud. repeat split. exact Hrun.
  - exists w'. split; [exact Hrun|]. split; [rewrite Hc; f_equal|]. split.
    + intros k pl old Hk Hslot. specialize (Hnew k pl Hk).
      cbn [Nat.add] in Hnew. cbv beta in Hnew.
      unfold gps_ephemeris_sv in *. rewrite Hnew, Hslot. reflexivity.
    + intros k Hk. apply Hold. lia.
Qed.

(** X13. An AID-EPH message that passes the length checks and is not
    present leaves the whole accumulator unchanged and prints no
    diagnostic. *)
Theorem aid_eph_not_present (hdr : ubx_hdr) (pl : payload) (pl_len : Z) (w : world) :
  pl_len <> 8 -> pl_len = sizeof_ubx_aid_eph -> present (as_aid_eph pl) = 0 ->
  exists w' : world,
    _ubx_msg_parse_aid_eph hdr pl pl_len w = Done tt w' /\
    ud w' = ud w /\
    diagnostics (out w') = diagnostics (out w).
Proof.
  intros H8 Hsz Hp. unfold _ubx_msg_parse_aid_eph.
  destruct (Z.eqb_spec pl_len 8); [contradiction|].
  destruct (Z.eqb_spec pl_len sizeof_ubx_aid_eph); [|contradiction].
  rewrite Hp. run. eexists. split; [reflexivity|]. cbn [ud out].
  rewrite diagnostics_app, app_nil_r. split; destruct w as [[] ? ?]; reflexivity.
Qed.

(** *** Delivering a message twice, and in either order *)

(** Evaluation of a run on a world given by its components. *)
Ltac eval_run :=
  cbv [bind ret store get_gps printd printd1 fprintf_stderr time_NULL when_ defined
       world_of result erase_when fst snd set_ud set_clock ud out clock
       fields ref_pos ref_time utc ionosphere almanac ephemeris
       set_fields set_ref_pos set_ref_time set_utc set_ionosphere set_almanac
       set_ephemeris
       latitude longitude altitude set_latitude set_longitude set_altitude
       wn tow when set_wn set_tow set_when
       a0 a1 delta_t_ls t_ot wn_t wn_lsf dn delta_t_lsf
       set_a0 set_a1 set_delta_t_ls set_t_ot set_wn_t set_wn_lsf set_dn set_delta_t_lsf
       alpha_0 alpha_1 alpha_2 alpha_3 beta_0 beta_1 beta_2 beta_3
       set_alpha_0 set_alpha_1 set_alpha_2 set_alpha_3
       set_beta_0 set_beta_1 set_beta_2 set_beta_3].

(** Equations between disjunctions of flags, bit by bit. *)
Ltac lor_bits :=
  apply Z.bits_inj'; intros ? _; rewrite ?Z.lor_spec;
  repeat match goal with
         | |- context [Z.testbit ?a ?n] => destruct (Z.testbit a n)
         end; reflexivity.

Lemma lor_again (a b : Z) : Z.lor (Z.lor a b) b = Z.lor a b.
Proof. lor_bits. Qed.

Lemma lor_again_2 (a b c : Z) :
  Z.lor (Z.lor (Z.lor (Z.lor a b) c) b) c = Z.lor (Z.lor a b) c.
Proof. lor_bits. Qed.

Lemma lor_swap (a b c : Z) : Z.lor (Z.lor a b) c = Z.lor (Z.lor a c) b.
Proof. lor_bits. Qed.

Ltac same_result := rewrite ?lor_again_2, ?lor_again; reflexivity.

(** X14. A message delivered twice leaves the accumulator as the first
    delivery did: for NAV-POSLLH and AID-HUI outright (also when the call
    stops at an undefined cast), for AID-INI and NAV-TIMEGPS up to the
    capture time, which follows the clock of the second call. *)
Theorem redelivery_changes_nothing (hdr : ubx_hdr) (pl : payload) (pl_len : Z) (w : world) :
  result (bind (_ubx_msg_parse_nav_posllh hdr pl pl_len)
               (fun _ => _ubx_msg_parse_nav_posllh hdr pl pl_len) w)
    = result (_ubx_msg_parse_nav_posllh hdr pl pl_len w) /\
  result (bind (_ubx_msg_parse_aid_hui hdr pl pl_len)
               (fun _ => _ubx_msg_parse_aid_hui hdr pl pl_len) w)
    = result (_ubx_msg_parse_aid_hui hdr pl pl_len w) /\
  (forall c : Z,
      erase_when (result (bind (_ubx_msg_parse_aid_ini hdr pl pl_len)
                               (fun _ w1 => _ubx_msg_parse_aid_ini hdr pl pl_len (set_clock c w1))
                               w))
      = erase_when (result (_ubx_msg_parse_aid_ini hdr pl pl_len w))) /\
  (forall c : Z,
      erase_when (result (bind (_ubx_msg_parse_nav_timegps hdr pl pl_len)
                               (fun _ w1 => _ubx_msg_parse_nav_timegps hdr pl pl_len
                                              (set_clock c w1))
                               w))
      = erase_when (result (_ubx_msg_parse_nav_timegps hdr pl pl_len w))).
Proof.
  destruct w as [[fl rp rt u io al ep] pr ck]. repeat apply conj.
  - unfold _ubx_msg_parse_nav_posllh. eval_run. same_result.
  - hui_run.
    destruct (Z.testbit (hui_flags (as_aid_hui pl)) 1),
             (Z.testbit (hui_flags (as_aid_hui pl)) 2);
      eval_run; hui_casts; try reflexivity; same_result.
  - intros c. unfold _ubx_msg_parse_aid_ini.
    destruct (negb (Z.land (ini_flags (as_aid_ini pl)) 3 =? 3)); eval_run; same_result.
  - intros c. unfold _ubx_msg_parse_nav_timegps. eval_run. same_result.
Qed.

(** X15. The position and the reference time do not depend on the order
    of their messages: NAV-POSLLH followed by AID-INI or NAV-TIMEGPS
    leaves the same accumulator as the two calls in the other order. *)
Theorem position_and_time_commute
    (hdr1 hdr2 : ubx_hdr) (pl1 pl2 : payload) (len1 len2 : Z) (w : world) :
  result (bind (_ubx_msg_parse_nav_posllh hdr1 pl1 len1)
               (fun _ => _ubx_msg_parse_aid_ini hdr2 pl2 len2) w)
    = result (bind (_ubx_msg_parse_aid_ini hdr2 pl2 len2)
                   (fun _ => _ubx_msg_parse_nav_posllh hdr1 pl1 len1) w) /\
  result (bind (_ubx_msg_parse_nav_posllh hdr1 pl1 len1)
               (fun _ => _ubx_msg_parse_nav_timegps hdr2 pl2 len2) w)
    = result (bind (_ubx_msg_parse_nav_timegps hdr2 pl2 len2)
                   (fun _ => _ubx_msg_parse_nav_posllh hdr1 pl1 len1) w).
Proof.
  destruct w as [[fl rp rt u io al ep] pr ck]. split.
  - unfold _ubx_msg_parse_nav_posllh, _ubx_msg_parse_aid_ini.
    destruct (negb (Z.land (ini_flags (as_aid_ini pl2)) 3 =? 3)); eval_run;
      rewrite (lor_swap fl GPS_FIELD_REFPOS); reflexivity.
  - unfold _ubx_msg_parse_nav_posllh, _ubx_msg_parse_nav_timegps. eval_run.
    rewrite (lor_swap fl GPS_FIELD_REFPOS). reflexivity.
Qed.

(** *** Where a decoder can stop *)

(** X16. The NAV-POSLLH, AID-INI and NAV-TIMEGPS decoders always run to
    their end.  The AID-HUI decoder can stop at an undefined cast only.
    The AID-ALM and AID-EPH decoders can stop only at the store to the
    slot the count points to, and only when the count is outside the
    array. *)
Theorem decoders_stop_only_there (hdr : ubx_hdr) (pl : payload) (pl_len : Z) (w : world) :
  (exists w', _ubx_msg_parse_nav_posllh hdr pl pl_len w = Done tt w') /\
  (exists w', _ubx_msg_parse_aid_ini hdr pl pl_len w = Done tt w') /\
  (exists w', _ubx_msg_parse_nav_timegps hdr pl pl_len w = Done tt w') /\
  (forall f w', _ubx_msg_parse_aid_hui hdr pl pl_len w = Fault f w' -> f = CastOverflow) /\
  (forall f w',
      _ubx_msg_parse_aid_alm hdr pl pl_len w = Fault f w' ->
      f = OutOfBounds (alm_n_sv (almanac (ud w))) /\
      ~ 0 <= alm_n_sv (almanac (ud w)) < MAX_SV) /\
  (forall f w',
      _ubx_msg_parse_aid_eph hdr pl pl_len w = Fault f w' ->
      f = OutOfBounds (eph_n_sv (ephemeris (ud w))) /\
      ~ 0 <= eph_n_sv (ephemeris (ud w)) < MAX_SV).
Proof.
  destruct w as [[fl rp rt u io [wn0 cnta svsa] [cnte svse]] pr ck]. repeat apply conj.
  - eexists. reflexivity.
  - unfold _ubx_msg_parse_aid_ini.
    destruct (negb (Z.land (ini_flags (as_aid_ini pl)) 3 =? 3)); eexists; reflexivity.
  - eexists. reflexivity.
  - intros f w'. unfold _ubx_msg_parse_aid_hui.
    destruct (truthy (Z.land (hui_flags (as_aid_hui pl)) 2)),
             (truthy (Z.land (hui_flags (as_aid_hui pl)) 4));
      eval_run; hui_casts; intros H; try discriminate H; now injection H.
  - intros f w'. unfold _ubx_msg_parse_aid_alm.
    destruct (pl_len =? 8); [discriminate|].
    destruct (negb (pl_len =? sizeof_ubx_aid_alm)); [discriminate|].
    destruct (truthy (gps_week (as_aid_alm pl))); [|discriminate].
    eval_run. unfold store_almanac_sv.
    cbn [ud almanac alm_n_sv set_ud set_almanac].
    destruct ((0 <=? cnta) && (cnta <? MAX_SV)) eqn:Hb; [discriminate|].
    intros H. injection H as <- _. split; [reflexivity|].
    intros [H1 H2]. apply andb_false_iff in Hb as [Hb|Hb];
      [apply Z.leb_gt in Hb | apply Z.ltb_ge in Hb]; lia.
  - intros f w'. unfold _ubx_msg_parse_aid_eph.
    destruct (pl_len =? 8); [discriminate|].
    destruct (negb (pl_len =? sizeof_ubx_aid_eph)); [discriminate|].
    destruct (truthy (present (as_aid_eph pl))); [|discriminate].
    eval_run. unfold store_ephemeris_sv.
    cbn [ud ephemeris eph_n_sv set_ud set_ephemeris].
    destruct ((0 <=? cnte) && (cnte <? MAX_SV)) eqn:Hb; [discriminate|].
    intros H. injection H as <- _. split; [reflexivity|].
    intros [H1 H2]. apply andb_false_iff in Hb as [Hb|Hb];
      [apply Z.leb_gt in Hb | apply Z.ltb_ge in Hb]; lia.
Qed.

End ParserProperties.

(** * The theorems at the sample configuration *)

#[local] Existing Instance Demo.gps_h.
#[local] Existing Instance Demo.ubx_h.

(** 65 almanac pages, and 65 ephemerides, onto the zeroed accumulator with
    room for 64. *)
Lemma C1_satellite_count_overflow_witness :
  0 <= MAX_SV < INT_MAX /\
  valid_alm Demo.pl /\ alm_n_sv (almanac (ud Demo.w0)) = 0 /\
  valid_eph Demo.pl /\ eph_n_sv (ephemeris (ud Demo.w0)) = 0 /\
  (exists w',
     repeat_m (Z.to_nat MAX_SV + 1)
       (_ubx_msg_parse_aid_alm Demo.hdr Demo.pl sizeof_ubx_aid_alm) Demo.w0
       = Fault (OutOfBounds MAX_SV) w' /\
     alm_n_sv (almanac (ud w')) = MAX_SV + 1 /\
     MAX_SV < alm_n_sv (almanac (ud w'))) /\
  (exists w',
     repeat_m (Z.to_nat MAX_SV + 1)
       (_ubx_msg_parse_aid_eph Demo.hdr Demo.pl sizeof_ubx_aid_eph) Demo.w0
       = Fault (OutOfBounds MAX_SV) w' /\
     eph_n_sv (ephemeris (ud w')) = MAX_SV + 1 /\
     MAX_SV < eph_n_sv (ephemeris (ud w'))).
Proof.
  assert (Hmax : 0 <= MAX_SV < INT_MAX) by (vm_compute; split; [discriminate|reflexivity]).
  assert (Halm : valid_alm Demo.pl) by (split; vm_compute; discriminate).
  assert (Heph : valid_eph Demo.pl) by (split; vm_compute; discriminate).
  split; [exact Hmax|]. split; [exact Halm|]. split; [reflexivity|].
  split; [exact Heph|]. split; [reflexivity|].
  split.
  - exact (proj1 (C1_satellite_count_overflow Demo.hdr Demo.pl Demo.w0 Hmax) Halm eq_refl).
  - exact (proj2 (C1_satellite_count_overflow Demo.hdr Demo.pl Demo.w0 Hmax) Heph eq_refl).
Defined.

(** Payload lengths 8 and 12. *)
Lemma C3_length_checks_witness :
  (_ubx_msg_parse_aid_alm Demo.hdr Demo.pl 8 Demo.w0 = Done tt Demo.w0 /\
   _ubx_msg_parse_aid_eph Demo.hdr Demo.pl 8 Demo.w0 = Done tt Demo.w0) /\
  (12 <> 8 /\ 12 <> sizeof_ubx_aid_alm /\ 12 <> sizeof_ubx_aid_eph) /\
  _ubx_msg_parse_aid_alm Demo.hdr Demo.pl 12 Demo.w0 =
    Done tt {| ud := ud Demo.w0;
               out := out Demo.w0 ++ [Stderr "pl_len != sizeof(struct ubx_aid_alm) (%d)\n"
                                             [ArgInt 12]];
               clock := clock Demo.w0 |} /\
  _ubx_msg_parse_aid_eph Demo.hdr Demo.pl 12 Demo.w0 =
    Done tt {| ud := ud Demo.w0;
               out := out Demo.w0 ++ [Stderr "pl_len != sizeof(struct ubx_aid_eph) (%d)\n"
                                             [ArgInt 12]];
               clock := clock Demo.w0 |}.
Proof.
  assert (H8 : 12 <> 8) by discriminate.
  assert (Ha : 12 <> sizeof_ubx_aid_alm) by (vm_compute; discriminate).
  assert (He : 12 <> sizeof_ubx_aid_eph) by (vm_compute; discriminate).
  split; [|split; [|split]].
  - exact (proj1 (C3_length_checks Demo.hdr Demo.pl 8 Demo.w0) eq_refl).
  - exact (conj H8 (conj Ha He)).
  - exact (proj1 (proj2 (C3_length_checks Demo.hdr Demo.pl 12 Demo.w0)) H8 Ha).
  - exact (proj2 (proj2 (C3_length_checks Demo.hdr Demo.pl 12 Demo.w0)) H8 He).
Defined.

(** A full-size almanac page whose week is 0. *)
Lemma C6_alm_week_zero_witness :
  40 <> 8 /\ 40 = sizeof_ubx_aid_alm /\ gps_week (as_aid_alm Demo.pl_week0) = 0 /\
  exists w',
    _ubx_msg_parse_aid_alm Demo.hdr Demo.pl_week0 40 Demo.w0 = Done tt w' /\
    ud w' = ud Demo.w0 /\
    alm_n_sv (almanac (ud w')) = alm_n_sv (almanac (ud Demo.w0)) /\
    fields (ud w') = fields (ud Demo.w0) /\
    alm_svs (almanac (ud w')) = alm_svs (almanac (ud Demo.w0)) /\
    diagnostics (out w') = diagnostics (out Demo.w0).
Proof.
  assert (H8 : 40 <> 8) by discriminate.
  split; [exact H8|]. split; [reflexivity|]. split; [reflexivity|].
  exact (C6_alm_week_zero Demo.hdr Demo.pl_week0 40 Demo.w0 H8 eq_refl eq_refl).
Defined.

(** 3 scaled by 2^5 and back, 96 scaled by 2^-5 and back. *)
Lemma C9_round_trip_exact_witness :
  0 <= 5 < 30 /\ INT_MIN <= 3 * 2 ^ 5 <= INT_MAX /\ Z.abs (3 * 2 ^ 5) < 2 ^ 24 /\
  (round_trip64 (f64_of_Z 3) (- 5) = Some 3 /\
   round_trip64 (f64_of_Z (3 * 2 ^ 5)) 5 = Some (3 * 2 ^ 5)) /\
  (round_trip32 (f32_of_Z 3) (- 5) = Some 3 /\
   round_trip32 (f32_of_Z (3 * 2 ^ 5)) 5 = Some (3 * 2 ^ 5)).
Proof.
  assert (Hk : 0 <= 5 < 30) by lia.
  assert (Hr : INT_MIN <= 3 * 2 ^ 5 <= INT_MAX) by (unfold INT_MIN, INT_MAX; lia).
  assert (Hs : Z.abs (3 * 2 ^ 5) < 2 ^ 24) by (vm_compute; reflexivity).
  split; [exact Hk|]. split; [exact Hr|]. split; [exact Hs|].
  split.
  - exact (proj1 (C9_round_trip_exact 3 5 Hk Hr)).
  - exact (proj2 (C9_round_trip_exact 3 5 Hk Hr) Hs).
Defined.

(** An AID-HUI message with both validity bits set, and the same with
    none. *)
Lemma C4_aid_hui_witness :
  (* flags = 6: both sub-blocks are committed *)
  (Z.testbit (hui_flags (as_aid_hui Demo.pl)) 1 = true /\
   Z.testbit (hui_flags (as_aid_hui Demo.pl)) 2 = true /\
   double_to_fixedpoint (utc_a0 (as_aid_hui Demo.pl)) (-30) = Some 1 /\
   double_to_fixedpoint (utc_a1 (as_aid_hui Demo.pl)) (-50) = Some 1 /\
   float_to_fixedpoint (klob_a0 (as_aid_hui Demo.pl)) (-30) = Some 3 /\
   float_to_fixedpoint (klob_b0 (as_aid_hui Demo.pl)) 11 = Some 5) /\
  (utc (ud (world_of (_ubx_msg_parse_aid_hui Demo.hdr Demo.pl 72 Demo.w0))) =
     {| a0 := 1; a1 := 1; delta_t_ls := 15; t_ot := 99; wn_t := 1550;
        wn_lsf := 1512; dn := 7; delta_t_lsf := 15 |} /\
   Z.land (fields (ud (world_of (_ubx_msg_parse_aid_hui Demo.hdr Demo.pl 72 Demo.w0))))
          GPS_FIELD_UTC = GPS_FIELD_UTC) /\
  ((exists w', _ubx_msg_parse_aid_hui Demo.hdr Demo.pl 72 Demo.w0 = Done tt w') /\
   ionosphere (ud (world_of (_ubx_msg_parse_aid_hui Demo.hdr Demo.pl 72 Demo.w0))) =
     {| alpha_0 := 3; alpha_1 := 3; alpha_2 := 3; alpha_3 := 3;
        beta_0 := 5; beta_1 := 5; beta_2 := 5; beta_3 := 5 |} /\
   Z.land (fields (ud (world_of (_ubx_msg_parse_aid_hui Demo.hdr Demo.pl 72 Demo.w0))))
          GPS_FIELD_IONOSPHERE = GPS_FIELD_IONOSPHERE) /\
  (* flags = 0: nothing is committed *)
  (Z.testbit (hui_flags (as_aid_hui Demo.pl_noflags)) 1 = false /\
   Z.testbit (hui_flags (as_aid_hui Demo.pl_noflags)) 2 = false) /\
  (utc (ud (world_of (_ubx_msg_parse_aid_hui Demo.hdr Demo.pl_noflags 72 Demo.w0)))
     = utc (ud Demo.w0) /\
   ionosphere (ud (world_of (_ubx_msg_parse_aid_hui Demo.hdr Demo.pl_noflags 72 Demo.w0)))
     = ionosphere (ud Demo.w0)) /\
  (exists w', _ubx_msg_parse_aid_hui Demo.hdr Demo.pl_noflags 72 Demo.w0 = Done tt w' /\
              ud w' = ud Demo.w0 /\ diagnostics (out w') = diagnostics (out Demo.w0)).
Proof.
  pose proof (C4_aid_hui Demo.hdr Demo.pl 72 Demo.w0) as (_ & Hutc & _ & Hion & _).
  pose proof (C4_aid_hui Demo.hdr Demo.pl_noflags 72 Demo.w0) as (Hu0 & _ & Hi0 & _ & Hnone).
  assert (Ha0 : double_to_fixedpoint (utc_a0 (as_aid_hui Demo.pl)) (-30) = Some 1)
    by (vm_compute; reflexivity).
  assert (Ha1 : double_to_fixedpoint (utc_a1 (as_aid_hui Demo.pl)) (-50) = Some 1)
    by (vm_compute; reflexivity).
  split; [repeat split; vm_compute; reflexivity|].
  split; [exact (Hutc eq_refl 1 1 Ha0 Ha1)|].
  split.
  - apply (Hion eq_refl); [right; exists 1, 1; split; assumption|..];
      vm_compute; reflexivity.
  - split; [split; reflexivity|].
    split; [split; [exact (proj1 (Hu0 eq_refl)) | exact (proj1 (Hi0 eq_refl))]|].
    exact (Hnone eq_refl eq_refl).
Defined.

(** The position message of the sample configuration: 37.338227 degrees
    north, 122.004145 degrees west, 30 m. *)
Lemma C7_nav_posllh_witness :
  posllh_lat (as_nav_posllh Demo.pl) = 373382270 /\
  posllh_lon (as_nav_posllh Demo.pl) = -1220041450 /\
  posllh_height (as_nav_posllh Demo.pl) = 30000 /\
  exists w',
    _ubx_msg_parse_nav_posllh Demo.hdr Demo.pl 28 Demo.w0 = Done tt w' /\
    Z.land (fields (ud w')) GPS_FIELD_REFPOS = GPS_FIELD_REFPOS /\
    within (latitude (ref_pos (ud w'))) (37338227 # 1000000) (1 # 1000000000) /\
    within (longitude (ref_pos (ud w'))) (-122004145 # 1000000) (1 # 1000000000) /\
    within (altitude (ref_pos (ud w'))) 30 (1 # 1000000000).
Proof.
  split; [reflexivity|]. split; [reflexivity|]. split; [reflexivity|].
  exact (proj2 C7_nav_posllh Demo.hdr Demo.pl 28 Demo.w0 eq_refl eq_refl eq_refl).
Defined.

(** ** The further properties at the sample configuration *)

(** 3 * 2^-30 as [float] and 2^-30 as [double], scaled by 2^30. *)
Lemma scale_normal_exact_witness :
  (digits2_pos 12582912 = 24%positive /\ -149 <= -52 <= 104 /\ -149 <= -52 - -30 <= 104 /\
   float_to_fixedpoint (S754_finite false 12582912 (-52)) (-30)
   = cast_int (S754_finite false 12582912 (-52 - -30))) /\
  (digits2_pos 4503599627370496 = 53%positive /\ -1074 <= -82 <= 971 /\
   -1074 <= -82 - -30 <= 971 /\
   double_to_fixedpoint (S754_finite false 4503599627370496 (-82)) (-30)
   = cast_int (S754_finite false 4503599627370496 (-82 - -30))).
Proof.
  assert (H24 : digits2_pos 12582912 = 24%positive) by reflexivity.
  assert (H53 : digits2_pos 4503599627370496 = 53%positive) by reflexivity.
  assert (Ha : -149 <= -52 <= 104) by lia.
  assert (Hb : -149 <= -52 - -30 <= 104) by lia.
  assert (Hc : -1074 <= -82 <= 971) by lia.
  assert (Hd : -1074 <= -82 - -30 <= 971) by lia.
  split.
  - split; [exact H24|]. split; [exact Ha|]. split; [exact Hb|].
    exact (proj1 (scale_normal_exact false 12582912 (-52) (-30)) H24 Ha Hb).
  - split; [exact H53|]. split; [exact Hc|]. split; [exact Hd|].
    exact (proj2 (scale_normal_exact false 4503599627370496 (-82) (-30)) H53 Hc Hd).
Defined.

(** 3 * 2^-30 scaled by 2^30 is 3, and -3 for the opposite input. *)
Lemma scale_opp_witness :
  3 <> INT_MIN /\
  float_to_fixedpoint (S754_finite false 12582912 (-52)) (-30) = Some 3 /\
  double_to_fixedpoint (S754_finite false 12582912 (-52)) (-30) = Some 3 /\
  float_to_fixedpoint (SFopp (S754_finite false 12582912 (-52))) (-30) = Some (- 3) /\
  double_to_fixedpoint (SFopp (S754_finite false 12582912 (-52))) (-30) = Some (- 3).
Proof.
  assert (Hz : 3 <> INT_MIN) by discriminate.
  assert (H32 : float_to_fixedpoint (S754_finite false 12582912 (-52)) (-30) = Some 3)
    by (vm_compute; reflexivity).
  assert (H64 : double_to_fixedpoint (S754_finite false 12582912 (-52)) (-30) = Some 3)
    by (vm_compute; reflexivity).
  split; [exact Hz|]. split; [exact H32|]. split; [exact H64|]. split.
  - exact (proj1 (scale_opp (S754_finite false 12582912 (-52)) (-30) 3 Hz) H32).
  - exact (proj2 (scale_opp (S754_finite false 12582912 (-52)) (-30) 3 Hz) H64).
Defined.

(** 5 * 2^11 as [float] scaled by 2^-11, and 2^-30 as [double] scaled by
    2^30. *)
Lemma scale_defined_below_2_31_witness :
  (digits2_pos 10485760 = 24%positive /\ -149 <= -10 <= 104 /\ -149 <= -10 - 11 /\
   -10 - 11 <= 7 /\
   exists z : Z,
     float_to_fixedpoint (S754_finite false 10485760 (-10)) 11 = Some z /\ Z.abs z < 2 ^ 31) /\
  (digits2_pos 4503599627370496 = 53%positive /\ -1074 <= -82 <= 971 /\
   -1074 <= -82 - -30 /\ -82 - -30 <= -22 /\
   exists z : Z,
     double_to_fixedpoint (S754_finite false 4503599627370496 (-82)) (-30) = Some z /\
     Z.abs z < 2 ^ 31).
Proof.
  assert (H24 : digits2_pos 10485760 = 24%positive) by reflexivity.
  assert (H53 : digits2_pos 4503599627370496 = 53%positive) by reflexivity.
  assert (Ha : -149 <= -10 <= 104) by lia.
  assert (Hb : -149 <= -10 - 11) by lia.
  assert (Hb' : -10 - 11 <= 7) by lia.
  assert (Hc : -1074 <= -82 <= 971) by lia.
  assert (Hd : -1074 <= -82 - -30) by lia.
  assert (Hd' : -82 - -30 <= -22) by lia.
  split.
  - split; [exact H24|]. split; [exact Ha|]. split; [exact Hb|]. split; [exact Hb'|].
    exact (proj1 (scale_defined_below_2_31 false 10485760 (-10) 11) H24 Ha Hb Hb').
  - split; [exact H53|]. split; [exact Hc|]. split; [exact Hd|]. split; [exact Hd'|].
    exact (proj2 (scale_defined_below_2_31 false 4503599627370496 (-82) (-30)) H53 Hc Hd Hd').
Defined.

(** Week 2100 and 345600000 ms, as an AID-INI and as a NAV-TIMEGPS
    message. *)
Lemma reference_time_decoders_agree_witness :
  ini_wn (as_aid_ini Demo.pl) = week (as_nav_timegps Demo.pl) /\
  ini_tow (as_aid_ini Demo.pl) = timegps_itow (as_nav_timegps Demo.pl) /\
  result (_ubx_msg_parse_aid_ini Demo.hdr Demo.pl 48 Demo.w0)
    = result (_ubx_msg_parse_nav_timegps Demo.hdr Demo.pl 16 Demo.w0) /\
  out (world_of (_ubx_msg_parse_nav_timegps Demo.hdr Demo.pl 16 Demo.w0)) = out Demo.w0.
Proof.
  split; [reflexivity|]. split; [reflexivity|].
  pose proof (reference_time_decoders_agree Demo.hdr Demo.hdr Demo.pl Demo.pl 48 16 Demo.w0
                eq_refl eq_refl) as (H1 & _ & H3).
  exact (conj H1 H3).
Defined.

(** An almanac page onto the zeroed accumulator. *)
Lemma aid_alm_appends_witness :
  valid_alm Demo.pl /\ 0 <= alm_n_sv (almanac (ud Demo.w0)) < MAX_SV /\ MAX_SV <= INT_MAX /\
  exists w',
    _ubx_msg_parse_aid_alm Demo.hdr Demo.pl sizeof_ubx_aid_alm Demo.w0 = Done tt w' /\
    alm_n_sv (almanac (ud w')) = 1 /\
    alm_svs (almanac (ud w')) !! 0%nat = Some {| sv_id := 5; sv_params := Demo.words 8 |}.
Proof.
  assert (Hv : valid_alm Demo.pl) by (split; vm_compute; discriminate).
  assert (Hn : 0 <= alm_n_sv (almanac (ud Demo.w0)) < MAX_SV)
    by (vm_compute; split; [discriminate|reflexivity]).
  assert (Hmax : MAX_SV <= INT_MAX) by (vm_compute; discriminate).
  split; [exact Hv|]. split; [exact Hn|]. split; [exact Hmax|].
  destruct (aid_alm_appends Demo.hdr Demo.pl Demo.w0 Hv Hn Hmax)
    as (w' & Hrun & Hcnt & _ & _ & _ & Hslot & _).
  exists w'. split; [exact Hrun|]. split; [exact Hcnt|].
  exact (Hslot {| sv_id := 0; sv_params := [] |} eq_refl).
Defined.

(** An ephemeris onto the zeroed accumulator. *)
Lemma aid_eph_appends_witness :
  valid_eph Demo.pl /\ 0 <= eph_n_sv (ephemeris (ud Demo.w0)) < MAX_SV /\ MAX_SV <= INT_MAX /\
  exists w',
    _ubx_msg_parse_aid_eph Demo.hdr Demo.pl sizeof_ubx_aid_eph Demo.w0 = Done tt w' /\
    eph_n_sv (ephemeris (ud w')) = 1 /\
    eph_svs (ephemeris (ud w')) !! 0%nat = Some {| sv_id := 5; sv_params := Demo.words 24 |}.
Proof.
  assert (Hv : valid_eph Demo.pl) by (split; vm_compute; discriminate).
  assert (Hn : 0 <= eph_n_sv (ephemeris (ud Demo.w0)) < MAX_SV)
    by (vm_compute; split; [discriminate|reflexivity]).
  assert (Hmax : MAX_SV <= INT_MAX) by (vm_compute; discriminate).
  split; [exact Hv|]. split; [exact Hn|]. split; [exact Hmax|].
  destruct (aid_eph_appends Demo.hdr Demo.pl Demo.w0 Hv Hn Hmax)
    as (w' & Hrun & Hcnt & _ & Hslot & _).
  exists w'. split; [exact Hrun|]. split; [exact Hcnt|].
  exact (Hslot {| sv_id := 0; sv_params := [] |} eq_refl).
Defined.

(** The pages of satellites 5 and 7, in that order. *)
Lemma aid_alm_arrival_order_witness :
  Forall valid_alm [Demo.pl; Demo.pl_sv7] /\
  alm_n_sv (almanac (ud Demo.w0)) = 0 /\
  Z.of_nat (length [Demo.pl; Demo.pl_sv7]) <= MAX_SV /\ MAX_SV <= INT_MAX /\
  exists w',
    run_each (fun pl => _ubx_msg_parse_aid_alm Demo.hdr pl sizeof_ubx_aid_alm)
      [Demo.pl; Demo.pl_sv7] Demo.w0 = Done tt w' /\
    alm_n_sv (almanac (ud w')) = 2 /\
    sv_id <$> alm_svs (almanac (ud w')) !! 0%nat = Some 5 /\
    sv_id <$> alm_svs (almanac (ud w')) !! 1%nat = Some 7.
Proof.
  assert (Hv : Forall valid_alm [Demo.pl; Demo.pl_sv7])
    by (repeat apply List.Forall_cons; try apply List.Forall_nil;
        split; vm_compute; discriminate).
  assert (Hroom : Z.of_nat (length [Demo.pl; Demo.pl_sv7]) <= MAX_SV)
    by (vm_compute; discriminate).
  assert (Hmax : MAX_SV <= INT_MAX) by (vm_compute; discriminate).
  split; [exact Hv|]. split; [reflexivity|]. split; [exact Hroom|]. split; [exact Hmax|].
  destruct (aid_alm_arrival_order Demo.hdr [Demo.pl; Demo.pl_sv7] Demo.w0 Hv eq_refl Hroom Hmax)
    as (w' & Hrun & Hcnt & Hslot & _).
  exists w'. split; [exact Hrun|]. split; [exact Hcnt|]. split.
  - exact (f_equal (fmap sv_id)
             (Hslot 0%nat Demo.pl {| sv_id := 0; sv_params := [] |} eq_refl eq_refl)).
  - exact (f_equal (fmap sv_id)
             (Hslot 1%nat Demo.pl_sv7 {| sv_id := 0; sv_params := [] |} eq_refl eq_refl)).
Defined.

(** The ephemerides of satellites 5 and 7, in that order. *)
Lemma aid_eph_arrival_order_witness :
  Forall valid_eph [Demo.pl; Demo.pl_sv7] /\
  eph_n_sv (ephemeris (ud Demo.w0)) = 0 /\
  Z.of_nat (length [Demo.pl; Demo.pl_sv7]) <= MAX_SV /\ MAX_SV <= INT_MAX /\
  exists w',
    run_each (fun pl => _ubx_msg_parse_aid_eph Demo.hdr pl sizeof_ubx_aid_eph)
      [Demo.pl; Demo.pl_sv7] Demo.w0 = Done tt w' /\
    eph_n_sv (ephemeris (ud w')) = 2 /\
    sv_id <$> eph_svs (ephemeris (ud w')) !! 0%nat = Some 5 /\
    sv_id <$> eph_svs (ephemeris (ud w')) !! 1%nat = Some 7.
Proof.
  assert (Hv : Forall valid_eph [Demo.pl; Demo.pl_sv7])
    by (repeat apply List.Forall_cons; try apply List.Forall_nil;
        split; vm_compute; discriminate).
  assert (Hroom : Z.of_nat (length [Demo.pl; Demo.pl_sv7]) <= MAX_SV)
    by (vm_compute; discriminate).
  assert (Hmax : MAX_SV <= INT_MAX) by (vm_compute; discriminate).
  split; [exact Hv|]. split; [reflexivity|]. split; [exact Hroom|]. split; [exact Hmax|].
  destruct (aid_eph_arrival_order Demo.hdr [Demo.pl; Demo.pl_sv7] Demo.w0 Hv eq_refl Hroom Hmax)
    as (w' & Hrun & Hcnt & Hslot & _).
  exists w'. split; [exact Hrun|]. split; [exact Hcnt|]. split.
  - exact (f_equal (fmap sv_id)
             (Hslot 0%nat Demo.pl {| sv_id := 0; sv_params := [] |} eq_refl eq_refl)).
  - exact (f_equal (fmap sv_id)
             (Hslot 1%nat Demo.pl_sv7 {| sv_id := 0; sv_params := [] |} eq_refl eq_refl)).
Defined.

(** A full-size AID-EPH message that is not present. *)
Lemma aid_eph_not_present_witness :
  104 <> 8 /\ 104 = sizeof_ubx_aid_eph /\ present (as_aid_eph Demo.pl_absent) = 0 /\
  exists w',
    _ubx_msg_parse_aid_eph Demo.hdr Demo.pl_absent 104 Demo.w0 = Done tt w' /\
    ud w' = ud Demo.w0 /\
    diagnostics (out w') = diagnostics (out Demo.w0).
Proof.
  assert (H8 : 104 <> 8) by discriminate.
  split; [exact H8|]. split; [reflexivity|]. split; [reflexivity|].
  exact (aid_eph_not_present Demo.hdr Demo.pl_absent 104 Demo.w0 H8 eq_refl eq_refl).
Defined.

(** An AID-HUI message whose a0 overflows, and an almanac page and an
    ephemeris onto full arrays. *)
Lemma decoders_stop_only_there_witness :
  (_ubx_msg_parse_aid_hui Demo.hdr Demo.pl_overflow 72 Demo.w0
   = Fault CastOverflow (world_of (_ubx_msg_parse_aid_hui Demo.hdr Demo.pl_overflow 72 Demo.w0))) /\
  (_ubx_msg_parse_aid_alm Demo.hdr Demo.pl 40 Demo.w_full
   = Fault (OutOfBounds 64) (world_of (_ubx_msg_parse_aid_alm Demo.hdr Demo.pl 40 Demo.w_full)) /\
   OutOfBounds 64 = OutOfBounds (alm_n_sv (almanac (ud Demo.w_full))) /\
   ~ 0 <= alm_n_sv (almanac (ud Demo.w_full)) < MAX_SV) /\
  (_ubx_msg_parse_aid_eph Demo.hdr Demo.pl 104 Demo.w_full
   = Fault (OutOfBounds 64) (world_of (_ubx_msg_parse_aid_eph Demo.hdr Demo.pl 104 Demo.w_full)) /\
   OutOfBounds 64 = OutOfBounds (eph_n_sv (ephemeris (ud Demo.w_full))) /\
   ~ 0 <= eph_n_sv (ephemeris (ud Demo.w_full)) < MAX_SV).
Proof.
  assert (Hh : _ubx_msg_parse_aid_hui Demo.hdr Demo.pl_overflow 72 Demo.w0
               = Fault CastOverflow
                   (world_of (_ubx_msg_parse_aid_hui Demo.hdr Demo.pl_overflow 72 Demo.w0)))
    by (vm_compute; reflexivity).
  assert (Ha : _ubx_msg_parse_aid_alm Demo.hdr Demo.pl 40 Demo.w_full
               = Fault (OutOfBounds 64)
                   (world_of (_ubx_msg_parse_aid_alm Demo.hdr Demo.pl 40 Demo.w_full)))
    by (vm_compute; reflexivity).
  assert (He : _ubx_msg_parse_aid_eph Demo.hdr Demo.pl 104 Demo.w_full
               = Fault (OutOfBounds 64)
                   (world_of (_ubx_msg_parse_aid_eph Demo.hdr Demo.pl 104 Demo.w_full)))
    by (vm_compute; reflexivity).
  split; [exact Hh|]. split.
  - split; [exact Ha|].
    exact (proj1 (proj2 (proj2 (proj2 (proj2
             (decoders_stop_only_there Demo.hdr Demo.pl 40 Demo.w_full))))) _ _ Ha).
  - split; [exact He|].
    exact (proj2 (proj2 (proj2 (proj2 (proj2
             (decoders_stop_only_there Demo.hdr Demo.pl 104 Demo.w_full))))) _ _ He).
Defined.

(** An almanac page and an ephemeris onto the zeroed accumulator. *)
Lemma decoders_write_their_own_part_witness :
  0 <= alm_n_sv (almanac (ud Demo.w0)) < MAX_SV /\
  0 <= eph_n_sv (ephemeris (ud Demo.w0)) < MAX_SV /\
  (exists w',
     _ubx_msg_parse_aid_alm Demo.hdr Demo.pl 40 Demo.w0 = Done tt w' /\
     (ref_pos (ud w'), ref_time (ud w'), utc (ud w'), ionosphere (ud w'), ephemeris (ud w')) =
       (ref_pos (ud Demo.w0), ref_time (ud Demo.w0), utc (ud Demo.w0),
        ionosphere (ud Demo.w0), ephemeris (ud Demo.w0))) /\
  (exists w',
     _ubx_msg_parse_aid_eph Demo.hdr Demo.pl 104 Demo.w0 = Done tt w' /\
     (ref_pos (ud w'), ref_time (ud w'), utc (ud w'), ionosphere (ud w'), almanac (ud w')) =
       (ref_pos (ud Demo.w0), ref_time (ud Demo.w0), utc (ud Demo.w0),
        ionosphere (ud Demo.w0), almanac (ud Demo.w0))).
Proof.
  assert (Ha : 0 <= alm_n_sv (almanac (ud Demo.w0)) < MAX_SV)
    by (vm_compute; split; [discriminate|reflexivity]).
  assert (He : 0 <= eph_n_sv (ephemeris (ud Demo.w0)) < MAX_SV)
    by (vm_compute; split; [discriminate|reflexivity]).
  split; [exact Ha|]. split; [exact He|]. split.
  - exact (proj1 (proj2 (proj2 (proj2 (proj2 decoders_write_their_own_part))))
             Demo.hdr Demo.pl 40 Demo.w0 Ha).
  - exact (proj2 (proj2 (proj2 (proj2 (proj2 decoders_write_their_own_part))))
             Demo.hdr Demo.pl 104 Demo.w0 He).
Defined.
